(** * Event-Tickets: the order / payment / ticket lifecycle

    A shallow embedding of the services of the ticket-sales backend
    ([OrdersService], [PaymentService], [TicketsService]) and the
    properties of their order state machine, quota ledger, webhook
    handling and ticket fabrication.

    Modelling conventions.
    - The relational store is a record of tables.  Tables addressed by
      primary key are finite maps; the ticket table keeps insertion order
      because [find] returns rows and callers rely on the rows returned.
    - An [async] method is a state transformer that may throw:
      [M A := Store -> Result A * Store].  The store component of the
      result is the store at the moment of the [return] or of the [throw];
      [try]/[catch] is [catch].
    - Everything a method reads from outside the store (the clock, the
      identifiers the store and [uuidv4] generate, random suffixes, the
      answer of the payment gateway, whether writing a QR or PDF file
      works) is an input, collected in [Env].  So is what the runtime
      computes where integers would not follow it: the instant an hour
      later on the local wall clock, which depends on the time zone, and
      the product of two numbers, which is a product of doubles.
    - The store itself is reliable: [save], [find], [delete] do not throw,
      except that inserting a row under a primary key already in use is
      refused.
    - Logging is not modelled. *)

From Stdlib Require Import ZArith Lia.
From stdpp Require Import base strings gmap list pretty.

#[local] Open Scope Z_scope.

(** ** JavaScript strings and numbers *)

(** A JavaScript string is a sequence of UTF-16 code units.  Identifiers,
    messages and e-mail addresses stay within ASCII and are kept as
    [string]; the seat label is built with [String.fromCharCode], whose
    result may leave ASCII, so it is kept as code units. *)
Module Js.

Definition str := list N.

(** An ASCII literal as code units. *)
Definition lit (s : string) : str := Ascii.N_of_ascii <$> String.list_ascii_of_string s.

(** [String.fromCharCode(c)]: one code unit, [c] taken modulo 2^16. *)
Definition fromCharCode (c : Z) : str := [Z.to_N (c mod 65536)].

(** [Math.floor(a / b)] for integers [a] and a positive integer [b]. *)
Definition floor_div (a b : Z) : Z := a / b.

(** [a % b]: the remainder has the sign of the dividend. *)
Definition rem (a b : Z) : Z := Z.rem a b.

(** [`${n}`] for an integer [n]. *)
Definition ofNumber (n : Z) : str := lit (pretty n).

(** [x || d] on an optional string: [undefined], [null] and the empty
    string are falsy. *)
Definition or_else (x : option string) (d : string) : string :=
  match x with
  | Some s => if decide (s = "") then d else s
  | None => d
  end.

(** Truthiness of an optional string. *)
Definition truthy (x : option string) : bool :=
  match x with
  | Some s => if decide (s = "") then false else true
  | None => false
  end.

End Js.

(** ** Seat labels ([TicketsService.generateSeatNumber]) *)

Definition generateSeatNumber (index : Z) : Js.str :=
  let section := Js.fromCharCode (65 + Js.floor_div index 100) in
  let row := Js.floor_div (Js.rem index 100) 10 + 1 in
  let seat := Js.rem index 10 + 1 in
  section ++ Js.ofNumber row ++ Js.lit "-" ++ Js.ofNumber seat.

(** The label as the specification words it: a section letter, a row and a
    seat, written [section row - seat]. *)
Module SeatSpec.

Definition section_code (i : N) : N := (65 + i / 100)%N.
Definition row (i : N) : N := ((i mod 100) / 10 + 1)%N.
Definition seat (i : N) : N := (i mod 10 + 1)%N.

Definition label (i : N) : Js.str :=
  [section_code i] ++ Js.lit (pretty (row i)) ++ Js.lit "-" ++ Js.lit (pretty (seat i)).

End SeatSpec.


(** ** Enumerations *)

(** Modelled from the spec: the enum declarations ([order.enums],
    [payment.enums], [TicketStatus] of [ticket.entity]) are not among the
    sources; the members are those the services name and section 3 lists. *)
Module OrderStatus.
Inductive t := PENDING | AWAITING_PAYMENT | PAID | CANCELLED | EXPIRED.
#[global] Instance eq_dec : EqDecision t.
Proof. solve_decision. Defined.
Definition show (s : t) : string :=
  match s with
  | PENDING => "pending"
  | AWAITING_PAYMENT => "awaiting_payment"
  | PAID => "paid"
  | CANCELLED => "cancelled"
  | EXPIRED => "expired"
  end.
End OrderStatus.

Module PaymentStatus.
Inductive t := PENDING | PAID | EXPIRED | FAILED.
#[global] Instance eq_dec : EqDecision t.
Proof. solve_decision. Defined.
End PaymentStatus.

Module TicketStatus.
Inductive t := ACTIVE | USED | CANCELLED.
#[global] Instance eq_dec : EqDecision t.
Proof. solve_decision. Defined.
Definition show (s : t) : string :=
  match s with
  | ACTIVE => "active"
  | USED => "used"
  | CANCELLED => "cancelled"
  end.
End TicketStatus.

(** Modelled from the spec: [status-xendit.enum] is not among the sources.
    Section 4.2 gives the provider's vocabulary: paid, expired, pending;
    the payload carries the status as the provider's string. *)
Module XenditWebhookStatus.
Definition PAID : string := "PAID".
Definition EXPIRED : string := "EXPIRED".
Definition PENDING : string := "PENDING".
End XenditWebhookStatus.

(** ** Entities *)

(** Modelled from the spec: the entity classes are not among the sources.
    Each record has the columns the services read or write.  Instants are
    milliseconds since the epoch; money is an integer amount.  The primary
    key of an order is the key of its row in the [orders] table, and a
    payment, unique per order, is stored under the key of its order: where
    the services write [order.id] or [payment.orderId] the model has that
    key. *)
Module User.
Record t := mk { email : string; name : option string }.
End User.

Module Event.
Record t := mk {
  title : string;
  location : option string;
  status : option string;
  startTime : option Z;
  price : Z;
  quota : Z;
}.
Definition set_quota (q : Z) (e : t) : t :=
  mk (title e) (location e) (status e) (startTime e) (price e) q.
End Event.

Module Order.
Record t := mk {
  orderNumber : string;
  invoiceNumber : string;
  userId : string;
  eventId : string;
  quantity : Z;
  unitPrice : Z;
  totalAmount : Z;
  status : OrderStatus.t;
  expiredAt : Z;
}.
Definition set_status (s : OrderStatus.t) (o : t) : t :=
  mk (orderNumber o) (invoiceNumber o) (userId o) (eventId o)
     (quantity o) (unitPrice o) (totalAmount o) s (expiredAt o).
End Order.

Module Payment.
Record t := mk {
  referenceId : string;
  amount : Z;
  status : PaymentStatus.t;
  paymentUrl : option string;
  expiresAt : Z;
  paidAt : option Z;
  paymentMethod : option string;
}.
Definition set_status (s : PaymentStatus.t) (p : t) : t :=
  mk (referenceId p) (amount p) s (paymentUrl p) (expiresAt p)
     (paidAt p) (paymentMethod p).
Definition set_paid (at_ : Z) (method : string) (p : t) : t :=
  mk (referenceId p) (amount p) (status p) (paymentUrl p)
     (expiresAt p) (Some at_) (Some method).
End Payment.

Module Ticket.
Record t := mk {
  id : string;
  ticketNumber : string;
  seatNumber : Js.str;
  eventId : string;
  orderId : string;
  attendeeName : option string;
  attendeeEmail : option string;
  status : TicketStatus.t;
  createdBy : string;
  paidAt : option Z;
  qrCodeUrl : option string;
  pdfUrl : option string;
  checkedIn : bool;
  checkedInAt : option Z;
  checkedInBy : option string;
  cancelledAt : option Z;
  notes : option string;
}.
Definition set_pdfUrl (u : string) (k : t) : t :=
  mk (id k) (ticketNumber k) (seatNumber k) (eventId k) (orderId k)
     (attendeeName k) (attendeeEmail k) (status k) (createdBy k) (paidAt k)
     (qrCodeUrl k) (Some u) (checkedIn k) (checkedInAt k) (checkedInBy k)
     (cancelledAt k) (notes k).
(** The four assignments of [checkInTicket]. *)
Definition check_in (at_ : Z) (by_ : string) (k : t) : t :=
  mk (id k) (ticketNumber k) (seatNumber k) (eventId k) (orderId k)
     (attendeeName k) (attendeeEmail k) TicketStatus.USED (createdBy k)
     (paidAt k) (qrCodeUrl k) (pdfUrl k) true (Some at_) (Some by_)
     (cancelledAt k) (notes k).
(** The partial update of [batchCancelTickets]. *)
Definition cancel (at_ : Z) (reason : string) (k : t) : t :=
  mk (id k) (ticketNumber k) (seatNumber k) (eventId k) (orderId k)
     (attendeeName k) (attendeeEmail k) TicketStatus.CANCELLED (createdBy k)
     (paidAt k) (qrCodeUrl k) (pdfUrl k) (checkedIn k) (checkedInAt k)
     (checkedInBy k) (Some at_) (Some reason).
(** The partial update of [regenerateTicket]. *)
Definition set_artifacts (qr pdf : string) (k : t) : t :=
  mk (id k) (ticketNumber k) (seatNumber k) (eventId k) (orderId k)
     (attendeeName k) (attendeeEmail k) (status k) (createdBy k) (paidAt k)
     (Some qr) (Some pdf) (checkedIn k) (checkedInAt k) (checkedInBy k)
     (cancelledAt k) (notes k).
End Ticket.

(** An e-mail handed to [MailService]: one value per call of a [send...]
    method, whether or not the transport then delivers it. *)
Inductive Mail :=
  | OrderCreatedEmail (to orderNumber : string)
  | OrderPaidEmail (to orderNumber : string) (ticketIds : list string)
  | OrderCancelledEmail (to orderNumber : string)
  | OrderExpiredEmail (to orderNumber : string).

(** ** The store and the environment *)

Record Store := mkStore {
  events : gmap string Event.t;
  users : gmap string User.t;
  orders : gmap string Order.t;
  payments : gmap string Payment.t;  (* keyed by the unique [orderId] *)
  tickets : list Ticket.t;
  uploads : list string;             (* names of the files written *)
  outbox : list Mail;
}.

Definition with_events (f : gmap string Event.t → gmap string Event.t) (s : Store) : Store :=
  mkStore (f (events s)) (users s) (orders s) (payments s) (tickets s) (uploads s) (outbox s).
Definition with_orders (f : gmap string Order.t → gmap string Order.t) (s : Store) : Store :=
  mkStore (events s) (users s) (f (orders s)) (payments s) (tickets s) (uploads s) (outbox s).
Definition with_payments (f : gmap string Payment.t → gmap string Payment.t) (s : Store) : Store :=
  mkStore (events s) (users s) (orders s) (f (payments s)) (tickets s) (uploads s) (outbox s).
Definition with_tickets (f : list Ticket.t → list Ticket.t) (s : Store) : Store :=
  mkStore (events s) (users s) (orders s) (payments s) (f (tickets s)) (uploads s) (outbox s).
Definition with_uploads (f : list string → list string) (s : Store) : Store :=
  mkStore (events s) (users s) (orders s) (payments s) (tickets s) (f (uploads s)) (outbox s).
Definition with_outbox (f : list Mail → list Mail) (s : Store) : Store :=
  mkStore (events s) (users s) (orders s) (payments s) (tickets s) (uploads s) (f (outbox s)).

(** The invoice the gateway adapter returns ([formatInvoiceResponse]),
    reduced to the fields [PaymentService.create] reads. *)
Record XenditInvoiceResponse := mkInvoice {
  invoice_id : string;
  invoice_url : option string;
  expiry_date : option Z;
}.

(** What one call of a service method takes from outside the store. *)
Record Env := mkEnv {
  now : Z;                              (* [new Date()], [Date.now()] *)
  newOrderId : string;                  (* primary key generated for a new order *)
  newOrderNumber : string;              (* [generateOrderNumber()] *)
  newInvoiceNumber : string;            (* [generateInvoiceNumber()] *)
  gateway : option XenditInvoiceResponse; (* [invoiceApi.createInvoice]; [None]: it throws *)
  uuidv4 : nat → string;                (* ticket id of iteration [i] *)
  newTicketNumber : nat → string;       (* [generateTicketNumber()] of iteration [i] *)
  qrOk : nat → bool;                    (* [QRCode.toFile] of iteration [i] succeeds *)
  pdfOk : nat → bool;                   (* the PDF of the [i]-th saved ticket is written *)
  hourLater : Z → Z;                    (* [d.setHours(d.getHours() + 1)] at the instant [d]:
                                           an hour later on the local wall clock *)
  times : Z → Z → Z;                    (* [a * b] as the engine computes it, on doubles *)
}.

(** ** Methods as state transformers that may throw *)

Inductive Exception :=
  | NotFoundException (msg : string)
  | BadRequestException (msg : string)
  | ForbiddenException (msg : string)
  | UnauthorizedException (msg : string)
  | Error (msg : string).

Inductive Result (A : Type) :=
  | Ok (a : A)
  | Throw (e : Exception).
Arguments Ok {A} a.
Arguments Throw {A} e.

Definition M (A : Type) : Type := Store → Result A * Store.

Definition ret {A} (a : A) : M A := λ s, (Ok a, s).
Definition throw {A} (e : Exception) : M A := λ s, (Throw e, s).
Definition bind {A B} (m : M A) (k : A → M B) : M B :=
  λ s, match m s with
       | (Ok a, s') => k a s'
       | (Throw e, s') => (Throw e, s')
       end.
(** [try { m } catch (e) { h e }]: the handler runs in the store the
    failed block left behind. *)
Definition catch {A} (m : M A) (h : Exception → M A) : M A :=
  λ s, match m s with
       | (Ok a, s') => (Ok a, s')
       | (Throw e, s') => h e s'
       end.
Definition get : M Store := λ s, (Ok s, s).
Definition modify (f : Store → Store) : M unit := λ s, (Ok tt, f s).
Definition when (b : bool) (m : M unit) : M unit := if b then m else ret tt.

Notation "x <- m ;; k" := (bind m (λ x, k))
  (at level 100, m at next level, right associativity, only parsing).
Notation "m >> k" := (bind m (λ _, k))
  (at level 100, k at level 200, right associativity, only parsing).


(** [for (const x of l) { await f(x) }], collecting the results; the
    first throw ends the loop. *)
Fixpoint forM {A B} (f : A → M B) (l : list A) : M (list B) :=
  match l with
  | [] => ret []
  | x :: l' => y <- f x ;; ys <- forM f l' ;; ret (y :: ys)
  end.

Definition sendMail (m : Mail) : M unit :=
  modify (with_outbox (λ o, o ++ [m])).

Definition writeFile (name : string) : M unit :=
  modify (with_uploads (λ u, u ++ [name])).

(** ** TicketsService *)
Module TicketsService.

(** [ticketRepository.find({ where: { orderId } })]. *)
Definition findByOrder (orderId : string) (tbl : list Ticket.t) : list Ticket.t :=
  filter (λ k, Ticket.orderId k = orderId) tbl.

(** [ticketRepository.findOne({ where: { id } })]. *)
Definition findOne (ticketId : string) (tbl : list Ticket.t) : option Ticket.t :=
  List.find (λ k, bool_decide (Ticket.id k = ticketId)) tbl.

(** [ticketRepository.save(ticket)]: the row with the ticket's primary
    key is replaced, and the ticket is inserted when there is none. *)
Definition saveRow (k : Ticket.t) (tbl : list Ticket.t) : list Ticket.t :=
  match findOne (Ticket.id k) tbl with
  | Some _ => (λ r, if decide (Ticket.id r = Ticket.id k) then k else r) <$> tbl
  | None => tbl ++ [k]
  end.

Definition save (ks : list Ticket.t) : M (list Ticket.t) :=
  modify (with_tickets (λ tbl, foldl (λ acc k, saveRow k acc) tbl ks)) >> ret ks.

Definition generateQRCode (env : Env) (i : nat) (ticketNumber : string) : M string :=
  let qrCodeFileName := "qr-" +:+ ticketNumber +:+ ".png" in
  if qrOk env i
  then writeFile qrCodeFileName >> ret qrCodeFileName
  else throw (Error "QRCode.toFile").

Definition pdfFileName (k : Ticket.t) : string :=
  "ticket-" +:+ Ticket.ticketNumber k +:+ ".pdf".

(** One promise of the [Promise.all] over the saved tickets: the file
    is written when the stream finishes, nothing is written when it
    fails. *)
Definition generatePDF (env : Env) (j : nat) (k : Ticket.t) : M unit :=
  when (pdfOk env j) (writeFile (pdfFileName k)).

(** The body of the [for] loop, iteration [i]. *)
Definition ticketData (env : Env) (orderId : string) (order : Order.t)
    (user : User.t) (i : nat) : M Ticket.t :=
  let ticketNumber := newTicketNumber env i in
  qrCodeFileName <- generateQRCode env i ticketNumber ;;
  let seatNumber := generateSeatNumber (Z.of_nat i) in
  ret (Ticket.mk (uuidv4 env i) ticketNumber seatNumber
         (Order.eventId order) orderId
         (if Js.truthy (User.name user) then User.name user else None)
         (if decide (User.email user = "") then None else Some (User.email user))
         TicketStatus.ACTIVE (Order.userId order) (Some (now env))
         (Some qrCodeFileName) None false None None None None).

Definition indices {A} (l : list A) : list nat := seq 0 (length l).

Definition generateTicketsForOrder (env : Env) (orderId : string)
    : M (list Ticket.t) :=
  s <- get ;;
  match orders s !! orderId with
  | None => throw (NotFoundException ("Order with ID '" +:+ orderId +:+ "' not found"))
  | Some order =>
    match users s !! Order.userId order, events s !! Order.eventId order with
    | Some user, Some _ =>
      let existingTickets := findByOrder orderId (tickets s) in
      if bool_decide (0 < length existingTickets)%nat then ret existingTickets
      else
        ticketsToCreate <-
          forM (ticketData env orderId order user)
            (seq 0 (Z.to_nat (Order.quantity order))) ;;
        savedTickets <- save ticketsToCreate ;;
        (* every PDF promise runs; [Promise.all] rejects when one did *)
        forM (λ jk, generatePDF env jk.1 jk.2) (zip (indices savedTickets) savedTickets) >>
        if forallb (pdfOk env) (indices savedTickets)
        then
          let ticketsWithPdf :=
            (λ k, Ticket.set_pdfUrl (pdfFileName k) k) <$> savedTickets in
          save ticketsWithPdf
        else throw (Error "generatePDF")
    | _, _ => throw (Error "Order data is incomplete")
    end
  end.

Record Validation := mkValidation { valid : bool; message : string }.

Definition validateTicket (ticketId : string) : M Validation :=
  s <- get ;;
  match findOne ticketId (tickets s) with
  | None => ret (mkValidation false "Ticket not found")
  | Some ticket =>
    if negb (bool_decide (Ticket.status ticket = TicketStatus.ACTIVE))
    then ret (mkValidation false ("Ticket is " +:+ TicketStatus.show (Ticket.status ticket)))
    else if Ticket.checkedIn ticket
    then ret (mkValidation false "Ticket has already been used")
    else ret (mkValidation true "Ticket is valid")
  end.

Definition checkInTicket (env : Env) (ticketId checkedInBy : string) : M Ticket.t :=
  validation <- validateTicket ticketId ;;
  if negb (valid validation) then throw (BadRequestException (message validation))
  else
    s <- get ;;
    match findOne ticketId (tickets s) with
    | None => throw (Error "Cannot set properties of null")
    | Some ticket =>
      let ticket := Ticket.check_in (now env) checkedInBy ticket in
      saved <- save [ticket] ;;
      ret ticket
    end.

(** [ticketRepository.update({ id: In(ticketIds) }, {...})]. *)
Definition batchCancelTickets (env : Env) (ticketIds : list string) (reason : string)
    : M unit :=
  match ticketIds with
  | [] => ret tt
  | _ =>
    modify (with_tickets (fmap (λ r,
      if bool_decide (Ticket.id r ∈ ticketIds)
      then Ticket.cancel (now env) reason r else r)))
  end.

(** [ticketRepository.update(id, partial)]: the partial entity is written
    over the rows with that primary key. *)
Definition updateRows (ticketId : string) (f : Ticket.t → Ticket.t) : M unit :=
  modify (with_tickets (fmap (λ r, if decide (Ticket.id r = ticketId) then f r else r))).

Definition getTicketsByOrderId (orderId : string) (userId : option string)
    : M (list Ticket.t) :=
  s <- get ;;
  match orders s !! orderId with
  | None => throw (NotFoundException ("Order with ID '" +:+ orderId +:+ "' not found"))
  | Some order =>
    if Js.truthy userId && negb (bool_decide (Some (Order.userId order) = userId))
    then throw (ForbiddenException "You do not have permission to view these tickets")
    else ret (findByOrder orderId (tickets s))
  end.

(** [ticket.order.userId] is read only when [userId] is truthy; with the
    order relation missing that read throws. *)
Definition getTicketById (ticketId : string) (userId : option string) : M Ticket.t :=
  s <- get ;;
  match findOne ticketId (tickets s) with
  | None => throw (NotFoundException ("Ticket with ID '" +:+ ticketId +:+ "' not found"))
  | Some ticket =>
    if Js.truthy userId
    then match orders s !! Ticket.orderId ticket with
         | None => throw (Error "Cannot read properties of null")
         | Some order =>
           if negb (bool_decide (Some (Order.userId order) = userId))
           then throw (ForbiddenException "You do not have permission to view this ticket")
           else ret ticket
         end
    else ret ticket
  end.

(** [await this.generatePDF(ticket, order)]: the name of the file written,
    or the rejection; reading [order.event] of a missing order rejects. *)
Definition generatePDFAwait (env : Env) (j : nat) (k : Ticket.t) (order : option Order.t)
    : M string :=
  match order with
  | None => throw (Error "Cannot read properties of null")
  | Some _ =>
    if pdfOk env j then writeFile (pdfFileName k) >> ret (pdfFileName k)
    else throw (Error "generatePDF")
  end.

Definition downloadTicket (env : Env) (ticketId userId : string) : M string :=
  ticket <- getTicketById ticketId (Some userId) ;;
  match (if Js.truthy (Ticket.pdfUrl ticket) then Ticket.pdfUrl ticket else None) with
  | None =>
    s <- get ;;
    let order := orders s !! Ticket.orderId ticket in
    pdfFileName <- generatePDFAwait env 0 ticket order ;;
    updateRows (Ticket.id ticket) (Ticket.set_pdfUrl pdfFileName) >>
    ret pdfFileName
  | Some pdfUrl => ret pdfUrl
  end.

Definition regenerateTicket (env : Env) (ticketId userId : string) : M Ticket.t :=
  ticket <- getTicketById ticketId (Some userId) ;;
  s <- get ;;
  let order := orders s !! Ticket.orderId ticket in
  qrCodeFileName <- generateQRCode env 0 (Ticket.ticketNumber ticket) ;;
  pdfFileName <- generatePDFAwait env 0 ticket order ;;
  updateRows (Ticket.id ticket) (Ticket.set_artifacts qrCodeFileName pdfFileName) >>
  ret (Ticket.set_artifacts qrCodeFileName pdfFileName ticket).

End TicketsService.

(** ** PaymentService, first part: creating the payment of an order *)
Module PaymentService.

(** [createInvoice]: the gateway's answer, or its error rethrown. *)
Definition createInvoice (env : Env) : M XenditInvoiceResponse :=
  match gateway env with
  | Some invoice => ret invoice
  | None => throw (Error "Failed to create Xendit invoice")
  end.

Definition create (env : Env) (orderId userId : string) : M Payment.t :=
  s <- get ;;
  match orders s !! orderId with
  | None => throw (NotFoundException ("Order with ID '" +:+ orderId +:+ "' not found"))
  | Some order =>
    match payments s !! orderId with
    | Some existingPayment => ret existingPayment
    | None =>
      xenditInvoice <- createInvoice env ;;
      let expiresAt :=
        match expiry_date xenditInvoice with
        | Some d => d
        | None => now env + 3600 * 1000
        end in
      let payment :=
        Payment.mk (invoice_id xenditInvoice)
          (Order.totalAmount order) PaymentStatus.PENDING
          (invoice_url xenditInvoice) expiresAt None None in
      modify (with_payments (insert orderId payment)) >>
      ret payment
    end
  end.

End PaymentService.

(** ** OrdersService *)
Module OrdersService.

Record CreateOrderDto := mkCreateOrderDto { eventId : string; quantity : Z }.

(** The fields of [paymentData] that [updateStatus] receives. *)
Record PaymentData := mkPaymentData {
  paymentMethod : option string;
  paidAt : option Z;
}.

(** [orderRepository.save] of a new row: the store assigns the primary
    key and refuses a key already in use. *)
Definition insertOrder (id : string) (order : Order.t) : M (string * Order.t) :=
  s <- get ;;
  match orders s !! id with
  | Some _ => throw (Error "duplicate key value violates unique constraint")
  | None => modify (with_orders (insert id order)) >> ret (id, order)
  end.

Definition saveEvent (eventId : string) (event : Event.t) : M unit :=
  modify (with_events (insert eventId event)).

Definition create (env : Env) (userId : string) (createOrderDto : CreateOrderDto)
    : M (string * Order.t * Payment.t) :=
  let eventId := eventId createOrderDto in
  let quantity := quantity createOrderDto in
  s <- get ;;
  match events s !! eventId with
  | None => throw (NotFoundException ("Event with ID '" +:+ eventId +:+ "' not found"))
  | Some event =>
    let eventStatus := Js.or_else (Event.status event) "published" in
    if negb (bool_decide (eventStatus = "published"))
    then throw (BadRequestException "Event is not available for booking")
    else if match Event.startTime event with
            | Some eventStartTime => bool_decide (eventStartTime < now env)
            | None => false
            end
    then throw (BadRequestException "Event has already passed")
    else
      let availableTickets := Event.quota event in
      if bool_decide (availableTickets < quantity)
      then throw (BadRequestException
                    ("Only " +:+ pretty availableTickets +:+ " tickets available"))
      else
        let unitPrice := Event.price event in
        let totalAmount := times env unitPrice quantity in
        let expiredAt := hourLater env (now env) in
        saved <- insertOrder (newOrderId env)
          (Order.mk (newOrderNumber env) (newInvoiceNumber env)
             userId eventId quantity unitPrice totalAmount
             OrderStatus.PENDING expiredAt) ;;
        let savedOrder_id := saved.1 in
        let savedOrder := saved.2 in
        (* reserve: the loaded entity is mutated and saved; a save does not
           throw, so the [catch] that would delete the order is not reached *)
        let event := Event.set_quota (Event.quota event - quantity) event in
        saveEvent eventId event >>
        paymentData <-
          catch (PaymentService.create env savedOrder_id userId)
            (λ paymentError,
               (* the same entity is mutated back and saved; the inner [try]
                  only logs a failing save *)
               let event := Event.set_quota (Event.quota event + quantity) event in
               saveEvent eventId event >>
               modify (with_orders (delete savedOrder_id)) >>
               throw (BadRequestException "Failed to create invoice/payment")) ;;
        s' <- get ;;
        match orders s' !! savedOrder_id ≫= (λ o, users s' !! Order.userId o) with
        | Some user =>
          sendMail (OrderCreatedEmail (User.email user) (Order.orderNumber savedOrder))
        | None => ret tt
        end >>
        ret (savedOrder_id, savedOrder, paymentData)
  end.

Definition restoresQuota (status oldStatus : OrderStatus.t) : bool :=
  (bool_decide (status = OrderStatus.CANCELLED) || bool_decide (status = OrderStatus.EXPIRED))
  && (bool_decide (oldStatus = OrderStatus.PENDING)
      || bool_decide (oldStatus = OrderStatus.AWAITING_PAYMENT)).

(** The block "Handle cancellation/expiration - restore quota" of
    [updateStatus]: the event is fetched again and saved with the
    quantity added back, then the tickets loaded with the order are
    cancelled in one batch. *)
Definition restoreQuota (env : Env) (order : Order.t) (status : OrderStatus.t)
    (order_tickets : list Ticket.t) : M unit :=
  s1 <- get ;;
  match events s1 !! Order.eventId order with
  | Some event =>
    saveEvent (Order.eventId order)
      (Event.set_quota (Event.quota event + Order.quantity order) event)
  | None => ret tt
  end >>
  when (bool_decide (0 < length order_tickets)%nat)
    (catch
       (TicketsService.batchCancelTickets env (Ticket.id <$> order_tickets)
          ("Order " +:+ OrderStatus.show status))
       (λ e, ret tt)).

(** The block "Handle PAID status - generate tickets and send email" of
    [updateStatus], with its enclosing [try]/[catch]. *)
Definition postPaid (env : Env) (id : string) (order : Order.t)
    (order_tickets : list Ticket.t) (order_user : option User.t)
    (order_event : option Event.t) : M unit :=
  catch
    (tickets <-
       match order_tickets with
       | [] => TicketsService.generateTicketsForOrder env id
       | _ => ret order_tickets
       end ;;
     match order_user, order_event with
     | Some user, Some _ =>
       catch
         (sendMail (OrderPaidEmail (User.email user) (Order.orderNumber order)
                      (Ticket.id <$> tickets)))
         (λ emailError, ret tt)
     | _, _ => ret tt
     end)
    (λ e, ret tt).

(** [paymentData] only feeds the text of the paid mail ([paidAt],
    [paymentMethod]), which the model does not keep. *)
Definition updateStatus (env : Env) (id : string) (status : OrderStatus.t)
    (paymentData : option PaymentData) : M Order.t :=
  s <- get ;;
  match orders s !! id with
  | None => throw (NotFoundException ("Order with ID '" +:+ id +:+ "' not found"))
  | Some order =>
    (* the relations loaded with the order *)
    let order_event := events s !! Order.eventId order in
    let order_user := users s !! Order.userId order in
    let order_tickets := TicketsService.findByOrder id (tickets s) in
    if bool_decide (Order.status order = status) then ret order
    else
      let oldStatus := Order.status order in
      let order := Order.set_status status order in
      when (restoresQuota status oldStatus)
        (restoreQuota env order status order_tickets) >>
      modify (with_orders (insert id order)) >>
      let savedOrder := order in
      when (bool_decide (status = OrderStatus.PAID)
            && negb (bool_decide (oldStatus = OrderStatus.PAID)))
        (postPaid env id order order_tickets order_user order_event) >>
      ret savedOrder
  end.

Definition cancel (env : Env) (id userId : string) : M string :=
  s <- get ;;
  match orders s !! id with
  | None => throw (NotFoundException ("Order with ID '" +:+ id +:+ "' not found"))
  | Some order =>
    if negb (bool_decide (Order.userId order = userId))
    then throw (ForbiddenException "You do not have permission to cancel this order")
    else if negb (bool_decide (Order.status order = OrderStatus.PENDING))
            && negb (bool_decide (Order.status order = OrderStatus.AWAITING_PAYMENT))
    then throw (BadRequestException
                  ("Cannot cancel order with status '"
                   +:+ OrderStatus.show (Order.status order) +:+ "'"))
    else if match payments s !! id with
            | Some payment => bool_decide (Payment.status payment = PaymentStatus.PAID)
            | None => false
            end
    then throw (BadRequestException "Cannot cancel a paid order")
    else
      updateStatus env id OrderStatus.CANCELLED None >>
      (* [order.user.email] and [order.event.title] throw inside the
         [try] when the relation is missing *)
      match users s !! Order.userId order, events s !! Order.eventId order with
      | Some user, Some _ =>
        sendMail (OrderCancelledEmail (User.email user) (Order.orderNumber order))
      | _, _ => ret tt
      end >>
      ret "Order cancelled successfully"
  end.

(** The rows [expireOrders] selects: pending and past their deadline. *)
Definition expiredOrders (env : Env) (s : Store) : list (string * Order.t) :=
  filter (λ io, Order.status io.2 = OrderStatus.PENDING ∧ Order.expiredAt io.2 < now env)
    (map_to_list (orders s)).

Definition expireOrders (env : Env) : M nat :=
  s <- get ;;
  let expiredOrders := expiredOrders env s in
  forM (λ '(order_id, order),
          catch
            (updateStatus env order_id OrderStatus.EXPIRED None >>
             match users s !! Order.userId order, events s !! Order.eventId order with
             | Some user, Some _ =>
               sendMail (OrderExpiredEmail (User.email user) (Order.orderNumber order))
             | _, _ => ret tt
             end)
            (λ e, ret tt))
       expiredOrders >>
  ret (length expiredOrders).

Definition createPaymentForOrder (env : Env) (orderId userId : string) : M Payment.t :=
  s <- get ;;
  match orders s !! orderId with
  | None => throw (NotFoundException ("Order with ID '" +:+ orderId +:+ "' not found"))
  | Some order =>
    if negb (bool_decide (Order.userId order = userId))
    then throw (ForbiddenException
                  "You do not have permission to create payment for this order")
    else if negb (bool_decide (Order.status order = OrderStatus.PENDING))
    then throw (BadRequestException "Order cannot be paid in current status")
    else match payments s !! orderId with
         | Some _ => throw (BadRequestException "Payment already exists for this order")
         | None =>
           paymentResult <- PaymentService.create env orderId userId ;;
           updateStatus env orderId OrderStatus.AWAITING_PAYMENT None >>
           ret paymentResult
         end
  end.

(** [String(n).padStart(len, '0')] on the decimal text of [n]. *)
Definition padStart (len : nat) (s : string) : string :=
  String.concat "" (replicate (len - String.length s) "0") +:+ s.

(** [generateOrderNumber] and [generateInvoiceNumber] after a prefix: the
    local date ([getFullYear()], [getMonth()], [getDate()]) and
    [Math.floor(Math.random() * 10000)] are the inputs. *)
Definition generateNumber (pref : string) (year month date random : Z) : string :=
  pref +:+ "-" +:+ pretty year +:+ padStart 2 (pretty (month + 1))
    +:+ padStart 2 (pretty date) +:+ "-" +:+ padStart 4 (pretty random).

Definition generateOrderNumber := generateNumber "ORD".
Definition generateInvoiceNumber := generateNumber "INV".

(** What [simulatePaymentComplete] returns: the reloaded order and its
    tickets. *)
Definition simulatePaymentComplete (env : Env) (orderId : string)
    : M (Order.t * list Ticket.t) :=
  s <- get ;;
  match orders s !! orderId with
  | None => throw (NotFoundException ("Order with ID '" +:+ orderId +:+ "' not found"))
  | Some order =>
    if bool_decide (Order.status order = OrderStatus.PAID)
    then throw (BadRequestException "Order is already paid")
    else if bool_decide (Order.status order = OrderStatus.CANCELLED)
            || bool_decide (Order.status order = OrderStatus.EXPIRED)
    then throw (BadRequestException
                  ("Cannot pay order with status '"
                   +:+ OrderStatus.show (Order.status order) +:+ "'"))
    else
      match payments s !! orderId with
      | Some payment =>
        modify (with_payments (insert orderId
          (Payment.set_paid (now env) "SIMULATED_TEST"
             (Payment.set_status PaymentStatus.PAID payment))))
      | None => ret tt
      end >>
      updateStatus env orderId OrderStatus.PAID
        (Some (mkPaymentData (Some "SIMULATED_TEST") (Some (now env)))) >>
      s' <- get ;;
      match orders s' !! orderId with
      | None => throw (Error "Cannot read properties of null")
      | Some finalOrder => ret (finalOrder, TicketsService.findByOrder orderId (tickets s'))
      end
  end.

End OrdersService.

(** ** PaymentService, second part: the provider's webhook

    [processWebhook] calls [OrdersService.updateStatus], which is why it
    sits after [OrdersService]. *)
Module PaymentWebhook.

Record PaymentWebhookDto := mkPaymentWebhookDto {
  id : string;
  external_id : string;
  status : string;
  payment_method : option string;
  paid_at : option Z;
}.

Definition isHexDigit (c : Ascii.ascii) : bool :=
  let n := Ascii.N_of_ascii c in
  ((48 <=? n) && (n <=? 57) || (97 <=? n) && (n <=? 102) || (65 <=? n) && (n <=? 70))%N.

(** [[0-9a-f]{n}], case-insensitively, at the head of [l]. *)
Fixpoint hexRun (n : nat) (l : list Ascii.ascii) : option (list Ascii.ascii) :=
  match n, l with
  | O, _ => Some l
  | S n', c :: l' => if isHexDigit c then hexRun n' l' else None
  | S _, [] => None
  end.

Definition dash (l : list Ascii.ascii) : option (list Ascii.ascii) :=
  match l with
  | c :: l' => if decide (c = Ascii.ascii_of_nat 45) then Some l' else None
  | [] => None
  end.

(** Groups of hexadecimal digits of the given lengths, separated by
    dashes, up to the end of the input. *)
Fixpoint hexGroups (groups : list nat) (l : list Ascii.ascii) : bool :=
  match groups with
  | [] => false
  | [n] => match hexRun n l with Some [] => true | _ => false end
  | n :: groups' =>
    match hexRun n l with
    | Some l1 => match dash l1 with Some l2 => hexGroups groups' l2 | None => false end
    | None => false
    end
  end.

(** [/^[0-9a-f]{8}-[0-9a-f]{4}-[0-9a-f]{4}-[0-9a-f]{4}-[0-9a-f]{12}$/i.test(s)] *)
Definition uuidRegex_test (s : string) : bool :=
  hexGroups [8; 4; 4; 4; 12]%nat (String.list_ascii_of_string s).

Definition mapPaymentStatusToOrderStatus (paymentStatus : PaymentStatus.t)
    : OrderStatus.t :=
  match paymentStatus with
  | PaymentStatus.PAID => OrderStatus.PAID
  | PaymentStatus.EXPIRED => OrderStatus.EXPIRED
  | PaymentStatus.FAILED => OrderStatus.CANCELLED
  | PaymentStatus.PENDING => OrderStatus.PENDING
  end.

(** The [switch] on [payload.status]; [None] is the [default] branch. *)
Definition newPaymentStatus (status : string) : option PaymentStatus.t :=
  if decide (status = XenditWebhookStatus.PAID) then Some PaymentStatus.PAID
  else if decide (status = XenditWebhookStatus.EXPIRED) then Some PaymentStatus.EXPIRED
  else if decide (status = XenditWebhookStatus.PENDING) then Some PaymentStatus.PENDING
  else None.

Section Configured.

(** [XENDIT_WEBHOOK_TOKEN] of the configuration. *)
Variable webhookToken : string.

Definition processWebhook (env : Env) (payload : PaymentWebhookDto)
    (callbackToken : string) : M unit :=
  if negb (bool_decide (callbackToken = webhookToken))
  then throw (UnauthorizedException "Invalid token")
  else if negb (uuidRegex_test (external_id payload)) then ret tt
  else
    match newPaymentStatus (status payload) with
    | None => ret tt
    | Some newPaymentStatus =>
      s <- get ;;
      match orders s !! external_id payload with
      | None => ret tt
      | Some order =>
        match payments s !! external_id payload with
        | Some payment =>
          let payment := Payment.set_status newPaymentStatus payment in
          let payment :=
            if bool_decide (newPaymentStatus = PaymentStatus.PAID)
            then Payment.set_paid (now env)
                   (Js.or_else (payment_method payload) "Unknown") payment
            else payment in
          modify (with_payments (insert (external_id payload) payment))
        | None => ret tt
        end >>
        let newOrderStatus := mapPaymentStatusToOrderStatus newPaymentStatus in
        OrdersService.updateStatus env (external_id payload) newOrderStatus
          (Some (OrdersService.mkPaymentData (payment_method payload) (paid_at payload))) >>
        when (bool_decide (newPaymentStatus = PaymentStatus.PAID))
          (catch
             (TicketsService.generateTicketsForOrder env (external_id payload) >> ret tt)
             (λ e, ret tt))
      end
    end.

End Configured.

End PaymentWebhook.

(** ** A concrete world for examples *)
Module Demo.

Definition alice : string := "aaaaaaaa-0000-4000-8000-000000000001".
Definition gala : string := "eeeeeeee-0000-4000-8000-000000000001".
Definition order1 : string := "11111111-1111-4111-8111-111111111111".
Definition token : string := "s3cret".

Definition store0 : Store :=
  mkStore
    {[ gala := Event.mk "Gala" (Some "Hall") (Some "published") (Some 5000) 100 10 ]}
    {[ alice := User.mk "alice@example.com" (Some "Alice") ]}
    ∅ ∅ [] [] [].

(** A runtime in a zone whose clock does not change, multiplying amounts
    small enough to be exact. *)
Definition env0 : Env :=
  mkEnv 1000 order1 "ORD-20250101-0001" "INV-20250101-0001"
    (Some (mkInvoice "inv-1" (Some "https://pay/inv-1") (Some 4600000)))
    (λ i, "t-" +:+ pretty i) (λ i, "TKT-" +:+ pretty i)
    (λ _, true) (λ _, true)
    (λ d, d + 3600 * 1000) Z.mul.

(** The same environment with the gateway down. *)
Definition env_down : Env :=
  mkEnv (now env0) (newOrderId env0) (newOrderNumber env0) (newInvoiceNumber env0)
    None (uuidv4 env0) (newTicketNumber env0) (qrOk env0) (pdfOk env0)
    (hourLater env0) (times env0).

Definition at_time (t : Z) (env : Env) : Env :=
  mkEnv t (newOrderId env) (newOrderNumber env) (newInvoiceNumber env)
    (gateway env) (uuidv4 env) (newTicketNumber env) (qrOk env) (pdfOk env)
    (hourLater env) (times env).

Definition webhook (status : string) : PaymentWebhook.PaymentWebhookDto :=
  PaymentWebhook.mkPaymentWebhookDto "evt-1" order1 status (Some "BANK_TRANSFER") None.

(** The store after [alice] ordered three tickets. *)
Definition store1 : Store :=
  (OrdersService.create env0 alice (OrdersService.mkCreateOrderDto gala 3) store0).2.

(** ... and after the provider reported the payment. *)
Definition store2 : Store :=
  (PaymentWebhook.processWebhook token (at_time 2000 env0)
     (webhook XenditWebhookStatus.PAID) token store1).2.

(** A store in which the order of [store1] awaits its payment. *)
Definition store_awaiting : Store :=
  with_orders (fmap (Order.set_status OrderStatus.AWAITING_PAYMENT)) store1.

End Demo.


(** * Vocabulary of the statements *)

(** A method keeps a part [proj] of the store when it returns or throws
    with that part as it found it. *)
Definition keeps {T} (proj : Store → T) {A} (m : M A) : Prop :=
  ∀ s, proj (m s).2 = proj s.

(** A method preserves a property of the store when the property holds
    of the store it returns or throws with. *)
Definition preserves (P : Store → Prop) {A} (m : M A) : Prop :=
  ∀ s, P s → P (m s).2.

(** The relational rows other than tickets. *)
Definition ledger (s : Store) :=
  (events s, users s, orders s, payments s).

(** The store after the quota-restoring block. *)
Definition restored (env : Env) (order : Order.t) (status : OrderStatus.t)
    (order_tickets : list Ticket.t) (s : Store) : Store :=
  let s1 :=
    match events s !! Order.eventId order with
    | Some event =>
      with_events (insert (Order.eventId order)
        (Event.set_quota (Event.quota event + Order.quantity order) event)) s
    | None => s
    end in
  match order_tickets with
  | [] => s1
  | _ =>
    with_tickets (fmap (λ r,
      if bool_decide (Ticket.id r ∈ Ticket.id <$> order_tickets)
      then Ticket.cancel (now env) ("Order " +:+ OrderStatus.show status) r else r)) s1
  end.

(** The payment row after the webhook refreshed it. *)
Definition refreshedPayment (env : Env) (payload : PaymentWebhook.PaymentWebhookDto)
    (ps : PaymentStatus.t) (payment : Payment.t) : Payment.t :=
  let payment := Payment.set_status ps payment in
  if bool_decide (ps = PaymentStatus.PAID)
  then Payment.set_paid (now env)
         (Js.or_else (PaymentWebhook.payment_method payload) "Unknown") payment
  else payment.

Definition refreshed (env : Env) (payload : PaymentWebhook.PaymentWebhookDto)
    (ps : PaymentStatus.t) (s : Store) : Store :=
  match payments s !! PaymentWebhook.external_id payload with
  | Some payment =>
    with_payments (insert (PaymentWebhook.external_id payload)
                     (refreshedPayment env payload ps payment)) s
  | None => s
  end.

Definition webhookPaymentData (payload : PaymentWebhook.PaymentWebhookDto) :=
  Some (OrdersService.mkPaymentData (PaymentWebhook.payment_method payload)
          (PaymentWebhook.paid_at payload)).

(** ** The tickets made for an order *)

Definition qrFileName (env : Env) (i : nat) : string := "qr-" +:+ newTicketNumber env i +:+ ".png".

(** The ticket the loop builds at iteration [i]. *)
Definition madeTicket (env : Env) (orderId : string) (order : Order.t) (user : User.t)
    (i : nat) : Ticket.t :=
  Ticket.mk (uuidv4 env i) (newTicketNumber env i) (generateSeatNumber (Z.of_nat i))
    (Order.eventId order) orderId
    (if Js.truthy (User.name user) then User.name user else None)
    (if decide (User.email user = "") then None else Some (User.email user))
    TicketStatus.ACTIVE (Order.userId order) (Some (now env))
    (Some (qrFileName env i)) None false None None None None.

Definition withPdf (k : Ticket.t) : Ticket.t :=
  Ticket.set_pdfUrl (TicketsService.pdfFileName k) k.

(** ** The quota ledger *)

(** An order holds quota while it is in a pre-payment status. *)
Definition prePayment (st : OrderStatus.t) : bool :=
  bool_decide (st = OrderStatus.PENDING) || bool_decide (st = OrderStatus.AWAITING_PAYMENT).

(** What the order [o] holds of the quota of event [e]. *)
Definition hold (e : string) (o : Order.t) : Z :=
  if decide (Order.eventId o = e)
  then if prePayment (Order.status o) then Order.quantity o else 0
  else 0.

(** The quota of [e] held by all orders. *)
Definition held (e : string) (os : gmap string Order.t) : Z :=
  map_fold (λ _ o acc, hold e o + acc) 0 os.

(** The invariant of the ledger of event [e] with original quota [Q]:
    the counter is not negative, the counter and the quantities held by
    open orders together do not exceed [Q], and no order on [e] has a
    negative quantity. *)
Definition quotaInv (e : string) (Q : Z) (s : Store) : Prop :=
  (∃ ev, events s !! e = Some ev
         ∧ 0 ≤ Event.quota ev
         ∧ Event.quota ev + held e (orders s) ≤ Q)
  ∧ ∀ id o, orders s !! id = Some o → Order.eventId o = e → 0 ≤ Order.quantity o.

(** The operations on orders. *)
Inductive Op :=
  | OpCreate (env : Env) (userId : string) (dto : OrdersService.CreateOrderDto)
  | OpCancel (env : Env) (id userId : string)
  | OpWebhook (env : Env) (payload : PaymentWebhook.PaymentWebhookDto)
      (callbackToken : string)
  | OpExpireOrders (env : Env).

Definition step (webhookToken : string) (s : Store) (op : Op) : Store :=
  match op with
  | OpCreate env userId dto => (OrdersService.create env userId dto s).2
  | OpCancel env id userId => (OrdersService.cancel env id userId s).2
  | OpWebhook env payload callbackToken =>
    (PaymentWebhook.processWebhook webhookToken env payload callbackToken s).2
  | OpExpireOrders env => (OrdersService.expireOrders env s).2
  end.

Definition run (webhookToken : string) (ops : list Op) (s : Store) : Store :=
  foldl (step webhookToken) s ops.

(** The operations the invariant is stated for: an order is created for a
    quantity that is not negative, and a webhook reports PAID, EXPIRED or
    a status the handler ignores. *)
Definition opOk (op : Op) : Prop :=
  match op with
  | OpCreate _ _ dto => 0 ≤ OrdersService.quantity dto
  | OpWebhook _ payload _ => PaymentWebhook.status payload ≠ XenditWebhookStatus.PENDING
  | _ => True
  end.

(** ** Paid orders *)

Definition isPaid (id : string) (s : Store) : Prop :=
  Order.status <$> orders s !! id = Some OrderStatus.PAID.

(** A run over the demo store: an order is created, cancelled, reported
    expired by the provider, and the sweeper passes; a second order is
    created and swept after its deadline. *)
Definition demoOps : list Op :=
  [ OpCreate Demo.env0 Demo.alice (OrdersService.mkCreateOrderDto Demo.gala 3);
    OpCancel Demo.env0 Demo.order1 Demo.alice;
    OpWebhook (Demo.at_time 2000 Demo.env0) (Demo.webhook XenditWebhookStatus.EXPIRED)
      Demo.token;
    OpExpireOrders (Demo.at_time 3000 Demo.env0);
    OpCreate
      (mkEnv 4000 "22222222-2222-4222-8222-222222222222" "ORD-20250101-0002"
         "INV-20250101-0002" (gateway Demo.env0) (uuidv4 Demo.env0)
         (newTicketNumber Demo.env0) (qrOk Demo.env0) (pdfOk Demo.env0)
         (hourLater Demo.env0) (times Demo.env0))
      Demo.alice (OrdersService.mkCreateOrderDto Demo.gala 4);
    OpExpireOrders (Demo.at_time 9000000 Demo.env0) ].


(** ** Deliveries of a PAID webhook when fabrication fails *)

(** The demo environment at time 2000 with no QR code written. *)
Definition demo_env_noqr : Env :=
  mkEnv 2000 (newOrderId Demo.env0) (newOrderNumber Demo.env0)
    (newInvoiceNumber Demo.env0) (gateway Demo.env0) (uuidv4 Demo.env0)
    (newTicketNumber Demo.env0) (λ _, false) (pdfOk Demo.env0)
    (hourLater Demo.env0) (times Demo.env0).

(** The demo store after the provider reported the payment of the order
    while no QR code could be written. *)
Definition demo_store_noqr : Store :=
  (PaymentWebhook.processWebhook Demo.token demo_env_noqr
     (Demo.webhook XenditWebhookStatus.PAID) Demo.token Demo.store1).2.

(** A second delivery of the PAID webhook, at time 2500, everything
    working. *)
Definition redelivered (s : Store) : Store :=
  (PaymentWebhook.processWebhook Demo.token (Demo.at_time 2500 Demo.env0)
     (Demo.webhook XenditWebhookStatus.PAID) Demo.token s).2.

(** ** The expiry sweep *)

(** A pending order past its deadline at the sweep's clock. *)
Definition overdue (env : Env) (o : Order.t) : Prop :=
  Order.status o = OrderStatus.PENDING ∧ Order.expiredAt o < now env.

(** The order after a sweep. *)
Definition sweepOrder (env : Env) (o : Order.t) : Order.t :=
  if decide (overdue env o) then Order.set_status OrderStatus.EXPIRED o else o.

(** ** Exact accounting of the quota *)

(** The quota of [e] is accounted for by [c]: the counter and the
    quantities held by open orders add up to [c]. *)
Definition accounted (e : string) (c : Z) (s : Store) : Prop :=
  ∃ ev, events s !! e = Some ev ∧ Event.quota ev + held e (orders s) = c.

(** Operations that sell nothing and reopen nothing: every operation but
    a webhook reporting PAID or PENDING. *)
Definition opNeutral (op : Op) : Prop :=
  match op with
  | OpWebhook _ payload _ =>
    PaymentWebhook.status payload ≠ XenditWebhookStatus.PAID
    ∧ PaymentWebhook.status payload ≠ XenditWebhookStatus.PENDING
  | _ => True
  end.

(** ** Cancelling an order *)

(** The store after the owner cancelled an open order. *)
Definition cancelled (env : Env) (id : string) (order : Order.t) (s : Store) : Store :=
  let order' := Order.set_status OrderStatus.CANCELLED order in
  let s2 :=
    with_orders (insert id order')
      (restored env order' OrderStatus.CANCELLED
         (TicketsService.findByOrder id (tickets s)) s) in
  match users s !! Order.userId order, events s !! Order.eventId order with
  | Some user, Some _ =>
    with_outbox (λ o, o ++ [OrderCancelledEmail (User.email user) (Order.orderNumber order)]) s2
  | _, _ => s2
  end.

(** ** Creating an order *)

(** What [create] checks of the event before it books. *)
Definition bookable (env : Env) (event : Event.t) (dto : OrdersService.CreateOrderDto)
    : Prop :=
  Js.or_else (Event.status event) "published" = "published"
  ∧ (∀ t, Event.startTime event = Some t → now env ≤ t)
  ∧ OrdersService.quantity dto ≤ Event.quota event.

(** The order [create] files: the unit price is the event's, the total is
    the engine's product of price and quantity, the deadline the instant
    [setHours(getHours() + 1)] gives for the time of the call. *)
Definition newOrder (env : Env) (userId : string) (dto : OrdersService.CreateOrderDto)
    (event : Event.t) : Order.t :=
  Order.mk (newOrderNumber env) (newInvoiceNumber env) userId
    (OrdersService.eventId dto) (OrdersService.quantity dto)
    (Event.price event) (times env (Event.price event) (OrdersService.quantity dto))
    OrderStatus.PENDING (hourLater env (now env)).

(** The payment [PaymentService.create] files for an invoice. *)
Definition newPayment (env : Env) (order : Order.t) (invoice : XenditInvoiceResponse)
    : Payment.t :=
  Payment.mk (invoice_id invoice) (Order.totalAmount order) PaymentStatus.PENDING
    (invoice_url invoice)
    (match expiry_date invoice with Some d => d | None => now env + 3600 * 1000 end)
    None None.

(** The store after a successful [create]. *)
Definition created (env : Env) (userId : string) (dto : OrdersService.CreateOrderDto)
    (event : Event.t) (invoice : XenditInvoiceResponse) (s : Store) : Store :=
  let order := newOrder env userId dto event in
  let s1 :=
    mkStore
      (<[OrdersService.eventId dto :=
           Event.set_quota (Event.quota event - OrdersService.quantity dto) event]>
         (events s))
      (users s)
      (<[newOrderId env := order]> (orders s))
      (<[newOrderId env := newPayment env order invoice]> (payments s))
      (tickets s) (uploads s) (outbox s) in
  match users s !! userId with
  | Some user =>
    with_outbox (λ o, o ++ [OrderCreatedEmail (User.email user) (newOrderNumber env)]) s1
  | None => s1
  end.

(** ** Simulated payments *)

(** The payment row after [simulatePaymentComplete] marked it. *)
Definition simulatedPayment (env : Env) (payment : Payment.t) : Payment.t :=
  Payment.set_paid (now env) "SIMULATED_TEST"
    (Payment.set_status PaymentStatus.PAID payment).

(** ** Cancelling tickets in a batch *)

(** The row [r] after the batch update for [ticketIds]. *)
Definition cancelIn (env : Env) (ticketIds : list string) (reason : string)
    (r : Ticket.t) : Ticket.t :=
  if bool_decide (Ticket.id r ∈ ticketIds) then Ticket.cancel (now env) reason r else r.

(** ** The files of a ticket *)

(** The row [r] after [ticketRepository.update(ticketId, partial)]. *)
Definition updatedRow (ticketId : string) (f : Ticket.t → Ticket.t) (r : Ticket.t)
    : Ticket.t :=
  if decide (Ticket.id r = ticketId) then f r else r.

(** The demo environment at time 2000 with no PDF written. *)
Definition demo_env_nopdf : Env :=
  mkEnv 2000 (newOrderId Demo.env0) (newOrderNumber Demo.env0)
    (newInvoiceNumber Demo.env0) (gateway Demo.env0) (uuidv4 Demo.env0)
    (newTicketNumber Demo.env0) (qrOk Demo.env0) (λ _, false)
    (hourLater Demo.env0) (times Demo.env0).

(** The demo store after the provider reported the payment of the order
    while no PDF could be written. *)
Definition demo_store_nopdf : Store :=
  (PaymentWebhook.processWebhook Demo.token demo_env_nopdf
     (Demo.webhook XenditWebhookStatus.PAID) Demo.token Demo.store1).2.

(** ** Seat labels that coincide *)

(** The part of a label after the section: row, dash, seat. *)
Definition rowSeat (row seat : Z) : Js.str :=
  Js.ofNumber row ++ Js.lit "-" ++ Js.ofNumber seat.

(** ** Calls that are rejected *)

(** A method is all-or-nothing when a call that throws leaves the store
    as it found it. *)
Definition atomic {A} (m : M A) : Prop :=
  ∀ s e s', m s = (Throw e, s') → s' = s.

(** ** Order and invoice numbers *)

(** The number a string of decimal digits writes. *)
Definition readDigits (s : string) : Z :=
  foldl (λ acc c, acc * 10 + (Z.of_N (Ascii.N_of_ascii c) - 48)) 0
    (String.list_ascii_of_string s).

(** The integers from [lo], [n] of them. *)
Definition zrange (lo n : Z) : list Z := (λ i, lo + Z.of_nat i) <$> seq 0 (Z.to_nat n).

(** A field of a number: [n] written on [width] digits. *)
Definition field (width : nat) (n : Z) : string :=
  OrdersService.padStart width (pretty n).

(** The inputs the clock and [Math.random] can give. *)
Definition numberInputs (year month date random : Z) : Prop :=
  1000 ≤ year ≤ 9999 ∧ 0 ≤ month ≤ 11 ∧ 1 ≤ date ≤ 31 ∧ 0 ≤ random ≤ 9999.

(** * Properties *)

Ltac unfold_monad :=
  unfold bind, ret, throw, catch, get, modify, when, sendMail, writeFile in *.

(** ** Seat labels *)

Lemma pretty_Z_to_N (z : Z) : 0 ≤ z → pretty z = pretty (Z.to_N z).
Proof. destruct z; [reflexivity | reflexivity | lia]. Qed.

(** C9.  For an index [i] of the generation loop the seat label is the
    section letter 'A' + i div 100, followed by the row (i mod 100) div 10 + 1,
    a dash and the seat i mod 10 + 1; rows and seats run from 1 to 10, and
    the indices 0, 1, 2 give A1-1, A1-2, A1-3.  The bound on [i] keeps
    'A' + i div 100 within one UTF-16 code unit. *)
Theorem generateSeatNumber_label (i : Z) :
  0 ≤ i < 6547100 →
  generateSeatNumber i = SeatSpec.label (Z.to_N i)
  ∧ (1 ≤ SeatSpec.row (Z.to_N i) ≤ 10)%N
  ∧ (1 ≤ SeatSpec.seat (Z.to_N i) ≤ 10)%N
  ∧ generateSeatNumber 0 = Js.lit "A1-1"
  ∧ generateSeatNumber 1 = Js.lit "A1-2"
  ∧ generateSeatNumber 2 = Js.lit "A1-3".
Proof.
  intros Hi. split; [|split; [|split]].
  - unfold generateSeatNumber, SeatSpec.label, Js.fromCharCode, Js.ofNumber,
      Js.floor_div, Js.rem, SeatSpec.section_code, SeatSpec.row, SeatSpec.seat.
    rewrite !Z.rem_mod_nonneg by lia.
    assert (Hsec : 0 ≤ i / 100 < 65471).
    { split; [apply Z.div_pos; lia | apply Z.div_lt_upper_bound; lia]. }
    rewrite Z.mod_small by lia.
    pose proof (Z.mod_pos_bound i 100 ltac:(lia)) as H100.
    pose proof (Z.mod_pos_bound i 10 ltac:(lia)) as H10.
    assert (0 ≤ i `mod` 100 / 10) by (apply Z.div_pos; lia).
    rewrite !pretty_Z_to_N by lia.
    repeat f_equal.
    + rewrite Z2N.inj_add, Z2N.inj_div by lia. reflexivity.
    + rewrite Z2N.inj_add, Z2N.inj_div, Z2N.inj_mod by lia. reflexivity.
    + rewrite Z2N.inj_add, Z2N.inj_mod by lia. reflexivity.
  - unfold SeatSpec.row.
    assert (Hrow : (Z.to_N i `mod` 100 / 10 < 10)%N).
    { apply N.Div0.div_lt_upper_bound. apply N.mod_upper_bound. discriminate. }
    revert Hrow. generalize (Z.to_N i `mod` 100 / 10)%N. intros; lia.
  - unfold SeatSpec.seat.
    pose proof (N.mod_upper_bound (Z.to_N i) 10 ltac:(discriminate)) as Hseat.
    revert Hseat. generalize (Z.to_N i `mod` 10)%N. intros; lia.
  - repeat split; vm_compute; reflexivity.
Qed.

Lemma generateSeatNumber_label_witness :
  0 ≤ 123 < 6547100
  ∧ generateSeatNumber 123 = SeatSpec.label 123
  ∧ SeatSpec.label 123 = Js.lit "B3-4".
Proof.
  split; [lia|]. split.
  - apply (generateSeatNumber_label 123). lia.
  - vm_compute. reflexivity.
Defined.

(** ** Webhook authentication *)

(** C6.  A webhook whose callback token differs from the configured token
    is rejected with Unauthorized and leaves the whole store as it was:
    no payment, order or ticket is touched, whatever the payload. *)
Theorem processWebhook_invalid_token webhookToken env payload callbackToken (s : Store) :
  callbackToken ≠ webhookToken →
  PaymentWebhook.processWebhook webhookToken env payload callbackToken s
  = (Throw (UnauthorizedException "Invalid token"), s).
Proof.
  intros Hne. unfold PaymentWebhook.processWebhook.
  rewrite bool_decide_eq_false_2 by done. reflexivity.
Qed.

Lemma processWebhook_invalid_token_witness :
  "guess" ≠ Demo.token
  ∧ PaymentWebhook.processWebhook Demo.token Demo.env0
      (Demo.webhook XenditWebhookStatus.PAID) "guess" Demo.store1
    = (Throw (UnauthorizedException "Invalid token"), Demo.store1).
Proof.
  assert (H : "guess" ≠ Demo.token) by (intros [=]).
  split; [exact H|].
  apply (processWebhook_invalid_token Demo.token Demo.env0
           (Demo.webhook XenditWebhookStatus.PAID) "guess" Demo.store1 H).
Defined.

(** ** Cancelling an order whose payment is paid *)

(** C7.  [cancel] on an order whose payment has status paid always fails
    and leaves the whole store as it was, so the order keeps its status,
    no quota is released and no ticket is cancelled.  For the owner of the
    order the failure is a BadRequest; any other caller is turned away
    with Forbidden before the order is looked at. *)
Theorem cancel_paid_rejected env id userId (s : Store) order payment :
  orders s !! id = Some order →
  payments s !! id = Some payment →
  Payment.status payment = PaymentStatus.PAID →
  ∃ e, OrdersService.cancel env id userId s = (Throw e, s)
       ∧ (Order.userId order = userId → ∃ msg, e = BadRequestException msg)
       ∧ (Order.userId order ≠ userId → ∃ msg, e = ForbiddenException msg).
Proof.
  intros Ho Hp Hpaid. unfold OrdersService.cancel. unfold_monad.
  rewrite Ho, Hp, Hpaid.
  destruct (decide (Order.userId order = userId)) as [Hu|Hu].
  - rewrite (bool_decide_eq_true_2 _ Hu). simpl.
    destruct (negb (bool_decide (Order.status order = OrderStatus.PENDING))
              && negb (bool_decide (Order.status order = OrderStatus.AWAITING_PAYMENT)));
      eexists; (split; [reflexivity|]); split; eauto; intros; done.
  - rewrite (bool_decide_eq_false_2 _ Hu). simpl.
    eexists; (split; [reflexivity|]); split; eauto; intros; done.
Qed.

Lemma cancel_paid_rejected_witness :
  ∃ e, OrdersService.cancel Demo.env0 Demo.order1 Demo.alice Demo.store2
       = (Throw e, Demo.store2)
       ∧ (Demo.alice = Demo.alice → ∃ msg, e = BadRequestException msg)
       ∧ (Demo.alice ≠ Demo.alice → ∃ msg, e = ForbiddenException msg).
Proof.
  eapply (cancel_paid_rejected Demo.env0 Demo.order1 Demo.alice Demo.store2
            (Order.mk "ORD-20250101-0001" "INV-20250101-0001" Demo.alice Demo.gala
               3 100 300 OrderStatus.PAID 3601000)
            (Payment.mk "inv-1" 300 PaymentStatus.PAID (Some "https://pay/inv-1")
               4600000 (Some 2000) (Some "BANK_TRANSFER")));
    vm_compute; reflexivity.
Defined.

(** ** Check-in *)

Lemma findOne_id ticketId tbl k :
  TicketsService.findOne ticketId tbl = Some k → Ticket.id k = ticketId.
Proof.
  unfold TicketsService.findOne. intros H.
  apply find_some in H as [_ H]. by apply bool_decide_eq_true in H.
Qed.

(** After [save(ticket)] the row found under the ticket's key is the
    ticket saved. *)
Lemma findOne_saveRow k tbl :
  TicketsService.findOne (Ticket.id k) (TicketsService.saveRow k tbl) = Some k.
Proof.
  unfold TicketsService.saveRow.
  destruct (TicketsService.findOne (Ticket.id k) tbl) as [k0|] eqn:Hf.
  - unfold TicketsService.findOne in *.
    induction tbl as [|r tbl IH]; [discriminate|].
    simpl in *. destruct (decide (Ticket.id r = Ticket.id k)) as [Heq|Hne].
    + simpl. by rewrite bool_decide_eq_true_2.
    + rewrite bool_decide_eq_false_2 in Hf |- * by done. auto.
  - unfold TicketsService.findOne in *.
    induction tbl as [|r tbl IH]; simpl in *.
    + by rewrite bool_decide_eq_true_2.
    + destruct (bool_decide (Ticket.id r = Ticket.id k)); [discriminate|auto].
Qed.

Lemma checkInTicket_ok env ticketId checkedInBy (s : Store) k :
  TicketsService.findOne ticketId (tickets s) = Some k →
  Ticket.status k = TicketStatus.ACTIVE →
  Ticket.checkedIn k = false →
  TicketsService.checkInTicket env ticketId checkedInBy s
  = (Ok (Ticket.check_in (now env) checkedInBy k),
     with_tickets (TicketsService.saveRow (Ticket.check_in (now env) checkedInBy k)) s).
Proof.
  intros Hf Hst Hci.
  unfold TicketsService.checkInTicket, TicketsService.validateTicket, TicketsService.save.
  unfold_monad. rewrite Hf, Hst, Hci. simpl. rewrite Hf. reflexivity.
Qed.

Lemma checkInTicket_refused env ticketId checkedInBy (s : Store) :
  match TicketsService.findOne ticketId (tickets s) with
  | Some k => Ticket.status k ≠ TicketStatus.ACTIVE ∨ Ticket.checkedIn k = true
  | None => True
  end →
  ∃ msg, TicketsService.checkInTicket env ticketId checkedInBy s
         = (Throw (BadRequestException msg), s).
Proof.
  unfold TicketsService.checkInTicket, TicketsService.validateTicket.
  unfold_monad.
  destruct (TicketsService.findOne ticketId (tickets s)) as [k|]; [|by eexists].
  intros [Hst|Hci].
  - rewrite bool_decide_eq_false_2 by done. by eexists.
  - destruct (bool_decide (Ticket.status k = TicketStatus.ACTIVE)); simpl;
      [rewrite Hci|]; by eexists.
Qed.

(** C10.  [checkInTicket] succeeds exactly on an active ticket that is not
    checked in; on success the stored ticket is checked in, carries the
    time and the actor, and is used; on a ticket that is checked in, used
    or cancelled it fails with BadRequest and leaves the store as it was.
    So after a successful check-in every further check-in of that ticket
    is refused: a ticket is checked in at most once. *)
Theorem checkInTicket_once env ticketId checkedInBy (s : Store) k :
  TicketsService.findOne ticketId (tickets s) = Some k →
  (* success exactly when active and not checked in *)
  ((∃ k' s', TicketsService.checkInTicket env ticketId checkedInBy s = (Ok k', s'))
   ↔ (Ticket.status k = TicketStatus.ACTIVE ∧ Ticket.checkedIn k = false))
  (* what success does *)
  ∧ (∀ k' s',
       TicketsService.checkInTicket env ticketId checkedInBy s = (Ok k', s') →
       TicketsService.findOne ticketId (tickets s') = Some k'
       ∧ Ticket.checkedIn k' = true
       ∧ Ticket.checkedInAt k' = Some (now env)
       ∧ Ticket.checkedInBy k' = Some checkedInBy
       ∧ Ticket.status k' = TicketStatus.USED
       ∧ k' = Ticket.check_in (now env) checkedInBy k
       (* at most once *)
       ∧ ∀ env2 by2, ∃ msg,
           TicketsService.checkInTicket env2 ticketId by2 s'
           = (Throw (BadRequestException msg), s'))
  (* refusal leaves the ticket alone *)
  ∧ (Ticket.checkedIn k = true ∨ Ticket.status k = TicketStatus.USED
     ∨ Ticket.status k = TicketStatus.CANCELLED →
     ∃ msg, TicketsService.checkInTicket env ticketId checkedInBy s
            = (Throw (BadRequestException msg), s)).
Proof.
  intros Hf.
  assert (Hdec : (Ticket.status k = TicketStatus.ACTIVE ∧ Ticket.checkedIn k = false)
                 ∨ (Ticket.status k ≠ TicketStatus.ACTIVE ∨ Ticket.checkedIn k = true)).
  { destruct (decide (Ticket.status k = TicketStatus.ACTIVE)), (Ticket.checkedIn k); auto. }
  assert (Hbad : Ticket.status k ≠ TicketStatus.ACTIVE ∨ Ticket.checkedIn k = true →
                 ∃ msg, TicketsService.checkInTicket env ticketId checkedInBy s
                        = (Throw (BadRequestException msg), s)).
  { intros H. apply checkInTicket_refused. by rewrite Hf. }
  split; [|split].
  - split.
    + intros (k' & s' & Hrun). destruct Hdec as [?|Hno]; [done|].
      destruct (Hbad Hno) as [msg Hthrow]. congruence.
    + intros [Hst Hci]. eauto using checkInTicket_ok.
  - intros k' s' Hrun. destruct Hdec as [[Hst Hci]|Hno].
    + rewrite (checkInTicket_ok _ _ _ _ _ Hf Hst Hci) in Hrun.
      injection Hrun as <- <-. simpl.
      assert (Hid : Ticket.id (Ticket.check_in (now env) checkedInBy k) = ticketId).
      { simpl. by eapply findOne_id. }
      assert (Hf' : TicketsService.findOne ticketId
                      (TicketsService.saveRow (Ticket.check_in (now env) checkedInBy k)
                         (tickets s))
                    = Some (Ticket.check_in (now env) checkedInBy k)).
      { rewrite <- Hid at 1. apply findOne_saveRow. }
      repeat split; try done.
      intros env2 by2. apply checkInTicket_refused. simpl. rewrite Hf'. simpl. auto.
    + destruct (Hbad Hno) as [msg Hthrow]. congruence.
  - intros H. apply Hbad. destruct H as [?|[H|H]]; [auto|left; rewrite H; done..].
Qed.

Lemma checkInTicket_once_witness :
  ∃ k' s', TicketsService.checkInTicket Demo.env0 "t-0" "staff-1" Demo.store2 = (Ok k', s').
Proof.
  destruct (TicketsService.findOne "t-0" (tickets Demo.store2)) as [k|] eqn:Hf;
    [|vm_compute in Hf; discriminate].
  destruct (checkInTicket_once Demo.env0 "t-0" "staff-1" Demo.store2 k Hf) as [Hiff _].
  apply Hiff. vm_compute in Hf. injection Hf as <-. split; reflexivity.
Defined.

(** ** Ticket generation is idempotent per order *)

Lemma generateTicketsForOrder_returns_existing env orderId (s : Store) order user event :
  orders s !! orderId = Some order →
  users s !! Order.userId order = Some user →
  events s !! Order.eventId order = Some event →
  TicketsService.findByOrder orderId (tickets s) ≠ [] →
  TicketsService.generateTicketsForOrder env orderId s
  = (Ok (TicketsService.findByOrder orderId (tickets s)), s).
Proof.
  intros Ho Hu He Hex.
  unfold TicketsService.generateTicketsForOrder. unfold_monad.
  rewrite Ho, Hu, He.
  rewrite bool_decide_eq_true_2; [reflexivity|].
  destruct (TicketsService.findByOrder orderId (tickets s)); [done|simpl; lia].
Qed.

(** C8.  For an order that already has tickets (and whose user and event
    relations resolve, which generation checks first),
    [generateTicketsForOrder] returns exactly the tickets stored for the
    order and leaves the whole store as it was: no ticket row, QR file or
    PDF file is added.  Invoking it again, under any environment, returns
    the same tickets. *)
Theorem generateTicketsForOrder_existing env orderId (s : Store) order user event :
  orders s !! orderId = Some order →
  users s !! Order.userId order = Some user →
  events s !! Order.eventId order = Some event →
  TicketsService.findByOrder orderId (tickets s) ≠ [] →
  TicketsService.generateTicketsForOrder env orderId s
  = (Ok (TicketsService.findByOrder orderId (tickets s)), s)
  ∧ ∀ env2,
      TicketsService.generateTicketsForOrder env2 orderId
        (TicketsService.generateTicketsForOrder env orderId s).2
      = TicketsService.generateTicketsForOrder env orderId s.
Proof.
  intros Ho Hu He Hex.
  pose proof (λ env', generateTicketsForOrder_returns_existing env' orderId s
                        order user event Ho Hu He Hex) as Hgen.
  split; [apply Hgen|].
  intros env2. rewrite (Hgen env). simpl. apply Hgen.
Qed.

Lemma generateTicketsForOrder_existing_witness :
  TicketsService.generateTicketsForOrder Demo.env0 Demo.order1 Demo.store2
  = (Ok (TicketsService.findByOrder Demo.order1 (tickets Demo.store2)), Demo.store2)
  ∧ ∀ env2,
      TicketsService.generateTicketsForOrder env2 Demo.order1
        (TicketsService.generateTicketsForOrder Demo.env0 Demo.order1 Demo.store2).2
      = TicketsService.generateTicketsForOrder Demo.env0 Demo.order1 Demo.store2.
Proof.
  eapply (generateTicketsForOrder_existing Demo.env0 Demo.order1 Demo.store2).
  - vm_compute. reflexivity.
  - vm_compute. reflexivity.
  - vm_compute. reflexivity.
  - vm_compute. discriminate.
Defined.

(** ** Order creation rolls back when the gateway fails *)

Lemma set_quota_back (event : Event.t) (n : Z) :
  Event.set_quota (Event.quota event - n + n)
    (Event.set_quota (Event.quota event - n) event) = event.
Proof. destruct event; unfold Event.set_quota; simpl. f_equal. lia. Qed.

Lemma store_eta (s : Store) :
  mkStore (events s) (users s) (orders s) (payments s) (tickets s) (uploads s) (outbox s) = s.
Proof. by destruct s. Qed.

(** C4.  When a [create] that passes its checks reaches the gateway and
    the gateway call fails, the caller gets a BadRequest, the order row
    does not exist afterwards and the event's quota is what it was before
    the call; indeed the whole store is as before. *)
Theorem create_gateway_failure env userId dto (s : Store) event :
  gateway env = None →
  events s !! OrdersService.eventId dto = Some event →
  Js.or_else (Event.status event) "published" = "published" →
  (∀ t, Event.startTime event = Some t → now env ≤ t) →
  OrdersService.quantity dto ≤ Event.quota event →
  orders s !! newOrderId env = None →
  payments s !! newOrderId env = None →
  ∃ s',
    OrdersService.create env userId dto s
    = (Throw (BadRequestException "Failed to create invoice/payment"), s')
    ∧ orders s' !! newOrderId env = None
    ∧ Event.quota <$> events s' !! OrdersService.eventId dto = Some (Event.quota event)
    ∧ s' = s.
Proof.
  intros Hgw Hev Hpub Hstart Hq Hfresh Hnopay.
  exists s.
  assert (Hrun : OrdersService.create env userId dto s
                 = (Throw (BadRequestException "Failed to create invoice/payment"), s)).
  { unfold OrdersService.create, OrdersService.insertOrder, OrdersService.saveEvent,
      PaymentService.create, PaymentService.createInvoice.
    unfold_monad. rewrite Hev, Hpub. simpl.
    replace (match Event.startTime event with
             | Some eventStartTime => bool_decide (eventStartTime < now env)
             | None => false
             end) with false.
    2:{ destruct (Event.startTime event) as [t|] eqn:Ht; [|done].
        symmetry. apply bool_decide_eq_false_2. specialize (Hstart t eq_refl). lia. }
    rewrite bool_decide_eq_false_2 by lia.
    rewrite Hfresh. simpl. rewrite lookup_insert_eq. rewrite Hnopay, Hgw. simpl.
    f_equal. unfold with_events, with_orders. simpl.
    rewrite insert_insert_eq, set_quota_back, (insert_id _ _ _ Hev).
    rewrite (delete_insert_id _ _ _ Hfresh). apply store_eta. }
  rewrite Hrun. repeat split; try done. by rewrite Hev.
Qed.

Lemma create_gateway_failure_witness :
  ∃ s',
    OrdersService.create Demo.env_down Demo.alice
      (OrdersService.mkCreateOrderDto Demo.gala 3) Demo.store0
    = (Throw (BadRequestException "Failed to create invoice/payment"), s')
    ∧ orders s' !! Demo.order1 = None
    ∧ Event.quota <$> events s' !! Demo.gala = Some 10
    ∧ s' = Demo.store0.
Proof.
  eapply (create_gateway_failure Demo.env_down Demo.alice
            (OrdersService.mkCreateOrderDto Demo.gala 3) Demo.store0
            (Event.mk "Gala" (Some "Hall") (Some "published") (Some 5000) 100 10)).
  - reflexivity.
  - vm_compute. reflexivity.
  - vm_compute. reflexivity.
  - simpl. intros t [= <-]. lia.
  - simpl. lia.
  - vm_compute. reflexivity.
  - vm_compute. reflexivity.
Defined.

(** ** Frames: the part of the store a method leaves alone *)

Section Frames.
Context {T : Type} (proj : Store → T).

Lemma keeps_ret {A} (a : A) : keeps proj (ret a).
Proof. by intros s. Qed.

Lemma keeps_throw {A} e : keeps proj (@throw A e).
Proof. by intros s. Qed.

Lemma keeps_get : keeps proj get.
Proof. by intros s. Qed.

Lemma keeps_modify f : (∀ s, proj (f s) = proj s) → keeps proj (modify f).
Proof. intros H s. apply H. Qed.

Lemma keeps_bind {A B} (m : M A) (k : A → M B) :
  keeps proj m → (∀ a, keeps proj (k a)) → keeps proj (bind m k).
Proof.
  intros Hm Hk s. unfold bind. specialize (Hm s).
  destruct (m s) as [[a|e] s1]; simpl in *; [|done].
  by rewrite Hk.
Qed.

Lemma keeps_catch {A} (m : M A) h :
  keeps proj m → (∀ e, keeps proj (h e)) → keeps proj (catch m h).
Proof.
  intros Hm Hh s. unfold catch. specialize (Hm s).
  destruct (m s) as [[a|e] s1]; simpl in *; [done|].
  by rewrite Hh.
Qed.

Lemma keeps_when b m : keeps proj m → keeps proj (when b m).
Proof. destruct b; [done|]. intros _. apply keeps_ret. Qed.

Lemma keeps_forM {A B} (f : A → M B) l : (∀ x, keeps proj (f x)) → keeps proj (forM f l).
Proof.
  intros Hf. induction l as [|x l IH]; simpl; [apply keeps_ret|].
  apply keeps_bind; [done|]. intros y.
  apply keeps_bind; [done|]. intros ys. apply keeps_ret.
Qed.

End Frames.

Create HintDb frame.
#[local] Hint Resolve keeps_ret keeps_throw keeps_get keeps_bind keeps_catch
  keeps_when keeps_forM : frame.

Lemma ledger_eq s s' :
  ledger s' = ledger s →
  events s' = events s ∧ users s' = users s ∧ orders s' = orders s
  ∧ payments s' = payments s.
Proof. unfold ledger. intros [= -> -> -> ->]. done. Qed.

Section TicketFrames.
Context {T : Type} (proj : Store → T).
Hypothesis proj_tickets : ∀ f s, proj (with_tickets f s) = proj s.
Hypothesis proj_uploads : ∀ f s, proj (with_uploads f s) = proj s.

Lemma keeps_save ks : keeps proj (TicketsService.save ks).
Proof.
  unfold TicketsService.save. apply keeps_bind; [|auto with frame].
  by apply keeps_modify.
Qed.

Lemma keeps_writeFile name : keeps proj (writeFile name).
Proof. by apply keeps_modify. Qed.

Lemma keeps_batchCancelTickets env ids reason :
  keeps proj (TicketsService.batchCancelTickets env ids reason).
Proof.
  unfold TicketsService.batchCancelTickets.
  destruct ids; [apply keeps_ret|]. by apply keeps_modify.
Qed.

(** Fabrication writes ticket rows and files, nothing else. *)
Lemma keeps_generateTicketsForOrder env orderId :
  keeps proj (TicketsService.generateTicketsForOrder env orderId).
Proof.
  unfold TicketsService.generateTicketsForOrder.
  apply keeps_bind; [apply keeps_get|]. intros s.
  destruct (orders s !! orderId) as [order|]; [|apply keeps_throw].
  destruct (users s !! Order.userId order) as [user|]; [|apply keeps_throw].
  destruct (events s !! Order.eventId order) as [event|]; [|apply keeps_throw].
  destruct (bool_decide _); [apply keeps_ret|].
  apply keeps_bind.
  { apply keeps_forM. intros i. unfold TicketsService.ticketData.
    apply keeps_bind; [|auto with frame].
    unfold TicketsService.generateQRCode. destruct (qrOk env i); [|apply keeps_throw].
    apply keeps_bind; [apply keeps_writeFile|auto with frame]. }
  intros ticketsToCreate. apply keeps_bind; [apply keeps_save|]. intros saved.
  apply keeps_bind.
  { apply keeps_forM. intros [j k]. unfold TicketsService.generatePDF.
    apply keeps_when, keeps_writeFile. }
  intros _. destruct (forallb _ _); [apply keeps_save|apply keeps_throw].
Qed.

End TicketFrames.

Lemma keeps_ledger_generateTicketsForOrder env orderId :
  keeps ledger (TicketsService.generateTicketsForOrder env orderId).
Proof. by apply keeps_generateTicketsForOrder. Qed.

Lemma keeps_outbox_generateTicketsForOrder env orderId :
  keeps outbox (TicketsService.generateTicketsForOrder env orderId).
Proof. by apply keeps_generateTicketsForOrder. Qed.

(** A block whose [catch] swallows every error completes. *)
Lemma catch_swallow (m : M unit) (s : Store) :
  (catch m (λ _, ret tt) s).1 = Ok tt.
Proof. unfold catch, ret. by destruct (m s) as [[[]|e] s1]. Qed.

Lemma postPaid_completes env id order order_tickets order_user order_event s :
  (OrdersService.postPaid env id order order_tickets order_user order_event s).1 = Ok tt.
Proof. apply catch_swallow. Qed.

Lemma keeps_ledger_postPaid env id order order_tickets order_user order_event :
  keeps ledger (OrdersService.postPaid env id order order_tickets order_user order_event).
Proof.
  unfold OrdersService.postPaid.
  apply keeps_catch; [|auto with frame].
  apply keeps_bind.
  { destruct order_tickets; [apply keeps_ledger_generateTicketsForOrder|apply keeps_ret]. }
  intros tickets. destruct order_user, order_event; auto with frame.
  apply keeps_catch; [|auto with frame]. by apply keeps_modify.
Qed.

Lemma restoreQuota_run env order status order_tickets s :
  OrdersService.restoreQuota env order status order_tickets s
  = (Ok tt, restored env order status order_tickets s).
Proof.
  unfold OrdersService.restoreQuota, restored, OrdersService.saveEvent,
    TicketsService.batchCancelTickets.
  unfold_monad.
  destruct (events s !! Order.eventId order) as [event|];
    destruct order_tickets as [|k ks]; reflexivity.
Qed.

(** [updateStatus] when the target differs from the current status: the
    quota block (for a cancellation or expiry of a pre-payment order), the
    status write, and the paid block (for a transition to paid). *)
Lemma updateStatus_changed env id status paymentData (s : Store) order :
  orders s !! id = Some order →
  Order.status order ≠ status →
  let order' := Order.set_status status order in
  let order_tickets := TicketsService.findByOrder id (tickets s) in
  let s1 :=
    if OrdersService.restoresQuota status (Order.status order)
    then restored env order' status order_tickets s else s in
  let s2 := with_orders (insert id order') s1 in
  let s3 :=
    if bool_decide (status = OrderStatus.PAID)
    then (OrdersService.postPaid env id order' order_tickets
            (users s !! Order.userId order) (events s !! Order.eventId order) s2).2
    else s2 in
  OrdersService.updateStatus env id status paymentData s = (Ok order', s3).
Proof.
  intros Ho Hne. simpl.
  unfold OrdersService.updateStatus.
  unfold bind at 1. unfold get at 1. rewrite Ho.
  rewrite bool_decide_eq_false_2 by done.
  unfold bind at 1.
  destruct (OrdersService.restoresQuota status (Order.status order)) eqn:Hr.
  - unfold when at 1. rewrite restoreQuota_run.
    unfold bind at 1. unfold modify at 1.
    destruct (decide (status = OrderStatus.PAID)) as [->|Hp].
    + rewrite bool_decide_eq_true_2 by done.
      rewrite (bool_decide_eq_false_2 (Order.status order = OrderStatus.PAID)) by done.
      simpl. unfold bind at 1.
      pose proof (postPaid_completes env id (Order.set_status OrderStatus.PAID order)
        (TicketsService.findByOrder id (tickets s))
        (users s !! Order.userId order) (events s !! Order.eventId order)) as Hc.
      match goal with |- context [OrdersService.postPaid ?a ?b ?c ?d ?e ?f ?g] =>
        specialize (Hc g); destruct (OrdersService.postPaid a b c d e f g) as [r s'] end.
      simpl in Hc. subst r. reflexivity.
    + rewrite (bool_decide_eq_false_2 (status = OrderStatus.PAID)) by done. reflexivity.
  - unfold when at 1. unfold ret at 1.
    unfold bind at 1. unfold modify at 1.
    destruct (decide (status = OrderStatus.PAID)) as [->|Hp].
    + rewrite bool_decide_eq_true_2 by done.
      rewrite (bool_decide_eq_false_2 (Order.status order = OrderStatus.PAID)) by done.
      simpl. unfold bind at 1.
      pose proof (postPaid_completes env id (Order.set_status OrderStatus.PAID order)
        (TicketsService.findByOrder id (tickets s))
        (users s !! Order.userId order) (events s !! Order.eventId order)) as Hc.
      match goal with |- context [OrdersService.postPaid ?a ?b ?c ?d ?e ?f ?g] =>
        specialize (Hc g); destruct (OrdersService.postPaid a b c d e f g) as [r s'] end.
      simpl in Hc. subst r. reflexivity.
    + rewrite (bool_decide_eq_false_2 (status = OrderStatus.PAID)) by done. reflexivity.
Qed.

Lemma updateStatus_same env id paymentData (s : Store) order :
  orders s !! id = Some order →
  OrdersService.updateStatus env id (Order.status order) paymentData s = (Ok order, s).
Proof.
  intros Ho. unfold OrdersService.updateStatus. unfold_monad.
  rewrite Ho. by rewrite bool_decide_eq_true_2.
Qed.

Lemma updateStatus_not_found env id status paymentData (s : Store) :
  orders s !! id = None →
  ∃ e, OrdersService.updateStatus env id status paymentData s = (Throw e, s).
Proof.
  intros Ho. unfold OrdersService.updateStatus. unfold_monad. rewrite Ho. by eexists.
Qed.

(** ** The webhook, once accepted *)

(** With the right token, a well-formed order id, a handled status and an
    order on file, [processWebhook] refreshes the payment, calls
    [updateStatus] with the mapped status and, for PAID, calls ticket
    generation once more, swallowing its error. *)
Lemma processWebhook_accepted token env payload (s : Store) ps order :
  PaymentWebhook.uuidRegex_test (PaymentWebhook.external_id payload) = true →
  PaymentWebhook.newPaymentStatus (PaymentWebhook.status payload) = Some ps →
  orders s !! PaymentWebhook.external_id payload = Some order →
  PaymentWebhook.processWebhook token env payload token s
  = let id := PaymentWebhook.external_id payload in
    match OrdersService.updateStatus env id
            (PaymentWebhook.mapPaymentStatusToOrderStatus ps)
            (webhookPaymentData payload) (refreshed env payload ps s) with
    | (Ok _, s2) =>
      if bool_decide (ps = PaymentStatus.PAID)
      then (Ok tt,
            (catch (TicketsService.generateTicketsForOrder env id >> ret tt)
               (λ e, ret tt) s2).2)
      else (Ok tt, s2)
    | (Throw e, s2) => (Throw e, s2)
    end.
Proof.
  intros Huuid Hps Ho. unfold PaymentWebhook.processWebhook.
  rewrite bool_decide_eq_true_2 by done. rewrite Huuid, Hps. simpl.
  unfold bind at 1. unfold get at 1. rewrite Ho.
  unfold bind at 1.
  assert (Hrefresh :
    match payments s !! PaymentWebhook.external_id payload with
    | Some payment =>
      modify (with_payments (insert (PaymentWebhook.external_id payload)
        (if bool_decide (ps = PaymentStatus.PAID)
         then Payment.set_paid (now env)
                (Js.or_else (PaymentWebhook.payment_method payload) "Unknown")
                (Payment.set_status ps payment)
         else Payment.set_status ps payment)))
    | None => ret tt
    end s = (Ok tt, refreshed env payload ps s)).
  { unfold refreshed, refreshedPayment.
    destruct (payments s !! PaymentWebhook.external_id payload); reflexivity. }
  rewrite Hrefresh. unfold bind at 1. unfold webhookPaymentData.
  destruct (OrdersService.updateStatus _ _ _ _ _) as [[o|e] s2]; [|reflexivity].
  destruct (bool_decide (ps = PaymentStatus.PAID)); simpl.
  - pose proof (catch_swallow
      (TicketsService.generateTicketsForOrder env (PaymentWebhook.external_id payload)
         >> ret tt) s2) as Hc.
    destruct (catch _ _ s2) as [r s3]. simpl in Hc. by subst r.
  - reflexivity.
Qed.

(** ** A PENDING webhook on an order that is not yet paid *)

(** C5, as stated, fails: an order in awaiting_payment does not keep its
    status under a PENDING webhook; it is set to pending. *)
Lemma webhook_pending_resets_awaiting_payment :
  Order.status <$> orders Demo.store_awaiting !! Demo.order1
  = Some OrderStatus.AWAITING_PAYMENT
  ∧ Order.status <$>
      orders (PaymentWebhook.processWebhook Demo.token (Demo.at_time 2000 Demo.env0)
                (Demo.webhook XenditWebhookStatus.PENDING) Demo.token
                Demo.store_awaiting).2 !! Demo.order1
    = Some OrderStatus.PENDING.
Proof. split; vm_compute; reflexivity. Qed.

(** C5, amended.  A PENDING webhook for an order in pending or
    awaiting_payment completes and leaves the order with status pending:
    a pending order is not written at all, an awaiting_payment order is
    written back with status pending and no other column changed.  Besides
    that, only the status of the order's payment (when there is one) is
    set to pending; events and their quotas, users, tickets, files and
    mails are as before. *)
Theorem webhook_pending_effect token env payload (s : Store) order :
  PaymentWebhook.status payload = XenditWebhookStatus.PENDING →
  PaymentWebhook.uuidRegex_test (PaymentWebhook.external_id payload) = true →
  orders s !! PaymentWebhook.external_id payload = Some order →
  Order.status order = OrderStatus.PENDING
  ∨ Order.status order = OrderStatus.AWAITING_PAYMENT →
  ∃ s',
    PaymentWebhook.processWebhook token env payload token s = (Ok tt, s')
    ∧ orders s' = <[PaymentWebhook.external_id payload :=
                     Order.set_status OrderStatus.PENDING order]> (orders s)
    ∧ (Order.status order = OrderStatus.PENDING → orders s' = orders s)
    ∧ payments s'
      = match payments s !! PaymentWebhook.external_id payload with
        | Some payment =>
          <[PaymentWebhook.external_id payload :=
              Payment.set_status PaymentStatus.PENDING payment]> (payments s)
        | None => payments s
        end
    ∧ events s' = events s ∧ users s' = users s ∧ tickets s' = tickets s
    ∧ uploads s' = uploads s ∧ outbox s' = outbox s.
Proof.
  intros Hst Huuid Ho Hpre.
  assert (Hps : PaymentWebhook.newPaymentStatus (PaymentWebhook.status payload)
                = Some PaymentStatus.PENDING) by (rewrite Hst; reflexivity).
  rewrite (processWebhook_accepted token env payload s _ order Huuid Hps Ho).
  simpl.
  assert (Ho' : orders (refreshed env payload PaymentStatus.PENDING s)
                !! PaymentWebhook.external_id payload = Some order).
  { unfold refreshed. by destruct (payments s !! _). }
  assert (Hfr : ∀ {T} (f : Store → T),
             (∀ g x, f (with_payments g x) = f x) →
             f (refreshed env payload PaymentStatus.PENDING s) = f s).
  { intros T f Hf. unfold refreshed. destruct (payments s !! _); [apply Hf|done]. }
  assert (Hpay : payments (refreshed env payload PaymentStatus.PENDING s)
                 = match payments s !! PaymentWebhook.external_id payload with
                   | Some payment =>
                     <[PaymentWebhook.external_id payload :=
                         Payment.set_status PaymentStatus.PENDING payment]> (payments s)
                   | None => payments s
                   end).
  { unfold refreshed. by destruct (payments s !! _). }
  destruct (decide (Order.status order = OrderStatus.PENDING)) as [Hp|Hp].
  - pose proof (updateStatus_same env (PaymentWebhook.external_id payload)
                  (webhookPaymentData payload) _ order Ho') as Hrun.
    rewrite Hp in Hrun. rewrite Hrun. eexists. split; [reflexivity|].
    rewrite Hpay, !Hfr by done.
    repeat split; try done.
    symmetry. apply insert_id. rewrite Ho. f_equal.
    destruct order; unfold Order.set_status; simpl in *. by rewrite Hp.
  - destruct Hpre as [?|Haw]; [done|].
    pose proof (updateStatus_changed env (PaymentWebhook.external_id payload)
                  OrderStatus.PENDING (webhookPaymentData payload) _ order Ho' Hp) as Hrun.
    simpl in Hrun. rewrite Hrun.
    eexists. split; [reflexivity|]. simpl.
    rewrite Hpay, !Hfr by done. repeat split; done.
Qed.

Lemma webhook_pending_effect_witness :
  ∃ s',
    PaymentWebhook.processWebhook Demo.token (Demo.at_time 2000 Demo.env0)
      (Demo.webhook XenditWebhookStatus.PENDING) Demo.token Demo.store_awaiting
    = (Ok tt, s')
    ∧ Order.status <$> orders s' !! Demo.order1 = Some OrderStatus.PENDING.
Proof.
  destruct (orders Demo.store_awaiting !! Demo.order1) as [order|] eqn:Ho;
    [|vm_compute in Ho; discriminate].
  destruct (webhook_pending_effect Demo.token (Demo.at_time 2000 Demo.env0)
              (Demo.webhook XenditWebhookStatus.PENDING) Demo.store_awaiting order)
    as (s' & Hrun & Hord & _).
  - reflexivity.
  - vm_compute. reflexivity.
  - exact Ho.
  - right. vm_compute in Ho. injection Ho as <-. reflexivity.
  - exists s'. split; [exact Hrun|].
    rewrite Hord. simpl. rewrite lookup_insert_eq. reflexivity.
Defined.

(** ** A paid order and later webhooks *)

(** C3.  The code at a paid order: a webhook with status EXPIRED sets the
    order to expired and a webhook with status PENDING sets it to pending,
    so paid is not absorbing under webhooks. *)
Theorem webhook_overwrites_paid :
  Order.status <$> orders Demo.store2 !! Demo.order1 = Some OrderStatus.PAID
  ∧ Order.status <$>
      orders (PaymentWebhook.processWebhook Demo.token (Demo.at_time 3000 Demo.env0)
                (Demo.webhook XenditWebhookStatus.EXPIRED) Demo.token Demo.store2).2
        !! Demo.order1
    = Some OrderStatus.EXPIRED
  ∧ Order.status <$>
      orders (PaymentWebhook.processWebhook Demo.token (Demo.at_time 3000 Demo.env0)
                (Demo.webhook XenditWebhookStatus.PENDING) Demo.token Demo.store2).2
        !! Demo.order1
    = Some OrderStatus.PENDING.
Proof. repeat split; vm_compute; reflexivity. Qed.

(** ** Fabrication of the tickets of an order *)

Section Fabrication.
Variables (env : Env) (orderId : string) (order : Order.t) (user : User.t).

Lemma withPdf_id k : Ticket.id (withPdf k) = Ticket.id k.
Proof. reflexivity. Qed.

Lemma forM_ticketData (l : list nat) (s : Store) :
  (∀ i, i ∈ l → qrOk env i = true) →
  forM (TicketsService.ticketData env orderId order user) l s
  = (Ok (madeTicket env orderId order user <$> l),
     mkStore (events s) (users s) (orders s) (payments s) (tickets s)
       (uploads s ++ (qrFileName env <$> l)) (outbox s)).
Proof.
  revert s. induction l as [|i l IH]; intros s Hok.
  - simpl. unfold ret. rewrite app_nil_r. by destruct s.
  - simpl. unfold bind at 1.
    unfold TicketsService.ticketData, TicketsService.generateQRCode.
    rewrite (Hok i) by (left; done).
    unfold_monad. simpl.
    rewrite IH by (intros j Hj; apply Hok; by right).
    simpl. rewrite <- app_assoc. reflexivity.
Qed.

Lemma forM_generatePDF (l : list (nat * Ticket.t)) (s : Store) :
  (∀ jk, jk ∈ l → pdfOk env jk.1 = true) →
  ∃ r, forM (λ jk, TicketsService.generatePDF env jk.1 jk.2) l s
       = (Ok r,
          mkStore (events s) (users s) (orders s) (payments s) (tickets s)
            (uploads s ++ (TicketsService.pdfFileName <$> l.*2)) (outbox s)).
Proof.
  revert s. induction l as [|[j k] l IH]; intros s Hok.
  - eexists. simpl. unfold ret. rewrite app_nil_r. by destruct s.
  - simpl. unfold bind at 1. unfold TicketsService.generatePDF at 1.
    pose proof (Hok (j, k) ltac:(left)) as Hhead. simpl in Hhead. simpl.
    rewrite Hhead. unfold when, writeFile, modify.
    destruct (IH (with_uploads (λ u, u ++ [TicketsService.pdfFileName k]) s))
      as [r Hr]; [intros jk Hjk; apply Hok; by right|].
    unfold bind at 1. rewrite Hr. unfold ret.
    eexists. simpl. rewrite <- app_assoc. reflexivity.
Qed.

End Fabrication.

Lemma findOne_None ticketId (tbl : list Ticket.t) :
  ticketId ∉ Ticket.id <$> tbl → TicketsService.findOne ticketId tbl = None.
Proof.
  unfold TicketsService.findOne. induction tbl as [|r tbl IH]; [done|].
  simpl. intros Hn. rewrite not_elem_of_cons in Hn. destruct Hn as [Hne Hn].
  rewrite bool_decide_eq_false_2 by done. auto.
Qed.

Lemma findOne_is_Some ticketId (tbl : list Ticket.t) :
  ticketId ∈ Ticket.id <$> tbl → is_Some (TicketsService.findOne ticketId tbl).
Proof.
  unfold TicketsService.findOne. induction tbl as [|r tbl IH]; simpl.
  - intros H. by apply elem_of_nil in H.
  - intros H. destruct (decide (Ticket.id r = ticketId)) as [He|Hne].
    + rewrite bool_decide_eq_true_2 by done. eauto.
    + rewrite bool_decide_eq_false_2 by done. apply IH.
      apply elem_of_cons in H as [?|?]; [congruence|done].
Qed.

(** Replacing the rows with a key that no row has changes nothing. *)
Lemma replace_absent (k : Ticket.t) (tbl : list Ticket.t) :
  Ticket.id k ∉ Ticket.id <$> tbl →
  (λ r, if decide (Ticket.id r = Ticket.id k) then k else r) <$> tbl = tbl.
Proof.
  induction tbl as [|r tbl IH]; [done|].
  intros Hn. rewrite fmap_cons, not_elem_of_cons in Hn. destruct Hn as [Hne Hn].
  rewrite fmap_cons. rewrite decide_False by done. by rewrite IH.
Qed.

Lemma saveRow_new k (tbl : list Ticket.t) :
  Ticket.id k ∉ Ticket.id <$> tbl → TicketsService.saveRow k tbl = tbl ++ [k].
Proof. intros Hn. unfold TicketsService.saveRow. by rewrite findOne_None. Qed.

Lemma saveRow_replace k k' (pre post : list Ticket.t) :
  Ticket.id k' = Ticket.id k →
  Ticket.id k ∉ Ticket.id <$> pre →
  Ticket.id k ∉ Ticket.id <$> post →
  TicketsService.saveRow k' (pre ++ k :: post) = pre ++ k' :: post.
Proof.
  intros Hid Hpre Hpost. unfold TicketsService.saveRow.
  destruct (findOne_is_Some (Ticket.id k') (pre ++ k :: post)) as [k0 ->].
  { rewrite Hid, fmap_app. apply elem_of_app. right. simpl. left. }
  rewrite fmap_app, fmap_cons. rewrite decide_True by done.
  rewrite <- Hid in Hpre, Hpost. by rewrite !replace_absent.
Qed.

Lemma foldl_saveRow_new (new tbl : list Ticket.t) :
  NoDup (Ticket.id <$> new) →
  (∀ k, k ∈ new → Ticket.id k ∉ Ticket.id <$> tbl) →
  foldl (λ acc k, TicketsService.saveRow k acc) tbl new = tbl ++ new.
Proof.
  revert tbl. induction new as [|k new IH]; intros tbl Hnd Hfresh; simpl.
  { by rewrite app_nil_r. }
  simpl in Hnd. apply NoDup_cons in Hnd as [Hk Hnd].
  rewrite saveRow_new by (apply Hfresh; left).
  rewrite IH; [by rewrite <- app_assoc|done|].
  intros k' Hk'. rewrite fmap_app. simpl. intros Hin.
  apply elem_of_app in Hin as [Hin|Hin].
  - by eapply Hfresh; [right|].
  - apply list_elem_of_singleton in Hin. apply Hk. rewrite <- Hin.
    by apply list_elem_of_fmap_2.
Qed.

Lemma foldl_saveRow_update (f : Ticket.t → Ticket.t) (rest pre : list Ticket.t) :
  (∀ k, Ticket.id (f k) = Ticket.id k) →
  NoDup (Ticket.id <$> rest) →
  (∀ k, k ∈ rest → Ticket.id k ∉ Ticket.id <$> pre) →
  foldl (λ acc k, TicketsService.saveRow k acc) (pre ++ rest) (f <$> rest)
  = pre ++ (f <$> rest).
Proof.
  intros Hf. revert pre. induction rest as [|k rest IH]; intros pre Hnd Hfresh; simpl.
  { done. }
  simpl in Hnd. apply NoDup_cons in Hnd as [Hk Hnd].
  rewrite saveRow_replace; [|apply Hf|apply Hfresh; left|done].
  replace (pre ++ f k :: rest) with ((pre ++ [f k]) ++ rest) by (by rewrite <- app_assoc).
  rewrite IH; [by rewrite <- app_assoc|done|].
  intros k' Hk'. rewrite fmap_app. simpl. intros Hin.
  apply elem_of_app in Hin as [Hin|Hin].
  - by eapply Hfresh; [right|].
  - apply list_elem_of_singleton in Hin. rewrite Hf in Hin. apply Hk. rewrite <- Hin.
    by apply list_elem_of_fmap_2.
Qed.

Lemma made_ids env orderId order user (l : list nat) :
  Ticket.id <$> (madeTicket env orderId order user <$> l) = uuidv4 env <$> l.
Proof. rewrite <- list_fmap_compose. by apply list_fmap_ext. Qed.

Lemma findByOrder_made env orderId order user (l : list nat) :
  TicketsService.findByOrder orderId (withPdf <$> (madeTicket env orderId order user <$> l))
  = withPdf <$> (madeTicket env orderId order user <$> l).
Proof.
  unfold TicketsService.findByOrder. induction l as [|i l IH]; [done|].
  rewrite !fmap_cons, filter_cons_True by done. by rewrite IH.
Qed.

Lemma indices_zip (ks : list Ticket.t) :
  (zip (TicketsService.indices ks) ks).*2 = ks
  ∧ ∀ jk, jk ∈ zip (TicketsService.indices ks) ks → (jk.1 < length ks)%nat.
Proof.
  unfold TicketsService.indices. split.
  - apply snd_zip. by rewrite length_seq.
  - intros [j k] Hin. apply elem_of_zip_l in Hin. simpl.
    apply elem_of_seq in Hin. lia.
Qed.

(** The first generation for an order: every file is written, the
    tickets are inserted and then saved again with their PDF names. *)
Lemma generateTicketsForOrder_first env orderId (s : Store) order user event :
  orders s !! orderId = Some order →
  users s !! Order.userId order = Some user →
  events s !! Order.eventId order = Some event →
  TicketsService.findByOrder orderId (tickets s) = [] →
  let n := Z.to_nat (Order.quantity order) in
  (∀ i, (i < n)%nat → qrOk env i = true) →
  (∀ i, (i < n)%nat → pdfOk env i = true) →
  (∀ i, (i < n)%nat → uuidv4 env i ∉ Ticket.id <$> tickets s) →
  (∀ i j, (i < n)%nat → (j < n)%nat → uuidv4 env i = uuidv4 env j → i = j) →
  let made := madeTicket env orderId order user <$> seq 0 n in
  TicketsService.generateTicketsForOrder env orderId s
  = (Ok (withPdf <$> made),
     mkStore (events s) (users s) (orders s) (payments s)
       (tickets s ++ (withPdf <$> made))
       ((uploads s ++ (qrFileName env <$> seq 0 n))
          ++ (TicketsService.pdfFileName <$> made))
       (outbox s)).
Proof.
  intros Ho Hu He Hnone n Hqr Hpdf Hfresh Hinj made.
  assert (Hnd : NoDup (Ticket.id <$> made)).
  { unfold made. rewrite made_ids. apply NoDup_fmap_2_strong; [|apply NoDup_seq].
    intros i j Hi Hj. apply elem_of_seq in Hi, Hj. apply Hinj; lia. }
  assert (Hnew : ∀ k, k ∈ made → Ticket.id k ∉ Ticket.id <$> tickets s).
  { intros k Hk. unfold made in Hk. apply list_elem_of_fmap in Hk as (i & -> & Hi).
    apply elem_of_seq in Hi. simpl. apply Hfresh. lia. }
  unfold TicketsService.generateTicketsForOrder.
  unfold bind at 1. unfold get at 1. rewrite Ho, Hu, He, Hnone.
  rewrite bool_decide_eq_false_2 by (simpl; lia).
  unfold bind at 1.
  rewrite forM_ticketData by (intros i Hi; apply elem_of_seq in Hi; apply Hqr; lia).
  fold n. fold made.
  unfold bind at 1. unfold TicketsService.save at 1. unfold bind at 1, modify at 1.
  unfold ret at 1. unfold with_tickets at 1. simpl.
  rewrite (foldl_saveRow_new made (tickets s) Hnd Hnew).
  destruct (indices_zip made) as [Hsnd Hidx].
  assert (Hlen : length made = n) by (unfold made; by rewrite length_fmap, length_seq).
  unfold bind at 1.
  match goal with |- context [forM ?f (zip ?a ?b) ?s0] =>
    destruct (forM_generatePDF env (zip a b) s0) as [r Hr] end.
  { intros jk Hjk. apply Hpdf. rewrite <- Hlen. by apply Hidx. }
  rewrite Hr. rewrite Hsnd. simpl.
  replace (forallb (pdfOk env) (TicketsService.indices made)) with true.
  2:{ symmetry. apply forallb_forall. intros j Hj.
      unfold TicketsService.indices in Hj. apply in_seq in Hj. apply Hpdf. lia. }
  unfold TicketsService.save, bind, modify, ret, with_tickets. simpl.
  change (λ k, Ticket.set_pdfUrl (TicketsService.pdfFileName k) k) with withPdf.
  rewrite (foldl_saveRow_update withPdf made (tickets s)); done.
Qed.

(** Once the order has as many tickets as its quantity, generation
    changes nothing, under any environment. *)
Lemma generateTicketsForOrder_settled env orderId (s : Store) order user event :
  orders s !! orderId = Some order →
  users s !! Order.userId order = Some user →
  events s !! Order.eventId order = Some event →
  length (TicketsService.findByOrder orderId (tickets s))
  = Z.to_nat (Order.quantity order) →
  TicketsService.generateTicketsForOrder env orderId s
  = (Ok (TicketsService.findByOrder orderId (tickets s)), s).
Proof.
  intros Ho Hu He Hlen.
  destruct (TicketsService.findByOrder orderId (tickets s)) as [|k ks] eqn:Hex.
  - unfold TicketsService.generateTicketsForOrder.
    unfold bind at 1. unfold get at 1. rewrite Ho, Hu, He, Hex.
    simpl in Hlen. rewrite <- Hlen. simpl.
    unfold TicketsService.save. unfold_monad. simpl. by destruct s.
  - rewrite <- Hex.
    apply (generateTicketsForOrder_returns_existing env orderId s order user event);
      try done.
    by rewrite Hex.
Qed.

(** ** Delivering the PAID webhook *)

Lemma refreshed_frame {T} (f : Store → T) env payload ps (s : Store) :
  (∀ g x, f (with_payments g x) = f x) →
  f (refreshed env payload ps s) = f s.
Proof. intros Hf. unfold refreshed. destruct (payments s !! _); [apply Hf|done]. Qed.

Lemma newPaymentStatus_PAID payload :
  PaymentWebhook.status payload = XenditWebhookStatus.PAID →
  PaymentWebhook.newPaymentStatus (PaymentWebhook.status payload) = Some PaymentStatus.PAID.
Proof. by intros ->. Qed.

(** A PAID webhook for an order that is already paid and has its tickets:
    [updateStatus] returns at its guard, and the delivery as a whole only
    rewrites the payment row. *)
Lemma webhook_paid_again token env payload (s : Store) order user event :
  PaymentWebhook.uuidRegex_test (PaymentWebhook.external_id payload) = true →
  PaymentWebhook.status payload = XenditWebhookStatus.PAID →
  orders s !! PaymentWebhook.external_id payload = Some order →
  Order.status order = OrderStatus.PAID →
  users s !! Order.userId order = Some user →
  events s !! Order.eventId order = Some event →
  length (TicketsService.findByOrder (PaymentWebhook.external_id payload) (tickets s))
  = Z.to_nat (Order.quantity order) →
  OrdersService.updateStatus env (PaymentWebhook.external_id payload) OrderStatus.PAID
    (webhookPaymentData payload) (refreshed env payload PaymentStatus.PAID s)
  = (Ok order, refreshed env payload PaymentStatus.PAID s)
  ∧ PaymentWebhook.processWebhook token env payload token s
    = (Ok tt, refreshed env payload PaymentStatus.PAID s).
Proof.
  intros Huuid Hst Ho Hpaid Hu He Hlen.
  set (sr := refreshed env payload PaymentStatus.PAID s).
  assert (Ho' : orders sr !! PaymentWebhook.external_id payload = Some order).
  { unfold sr. by rewrite (refreshed_frame orders). }
  assert (Hguard : OrdersService.updateStatus env (PaymentWebhook.external_id payload)
                     OrderStatus.PAID (webhookPaymentData payload) sr = (Ok order, sr)).
  { rewrite <- Hpaid. by apply updateStatus_same. }
  split; [exact Hguard|].
  rewrite (processWebhook_accepted token env payload s _ order Huuid
             (newPaymentStatus_PAID _ Hst) Ho).
  simpl. fold sr. rewrite Hguard. simpl. f_equal.
  unfold catch, bind.
  rewrite (generateTicketsForOrder_settled env _ sr order user event); try done.
  - unfold sr. by rewrite (refreshed_frame users).
  - unfold sr. by rewrite (refreshed_frame events).
  - unfold sr. by rewrite (refreshed_frame tickets).
Qed.

(** The first PAID webhook for an order that is not yet paid and has no
    tickets, when fabrication works and the generated ticket ids are new. *)
Lemma webhook_paid_first token env payload (s : Store) order user event :
  PaymentWebhook.uuidRegex_test (PaymentWebhook.external_id payload) = true →
  PaymentWebhook.status payload = XenditWebhookStatus.PAID →
  orders s !! PaymentWebhook.external_id payload = Some order →
  Order.status order ≠ OrderStatus.PAID →
  users s !! Order.userId order = Some user →
  events s !! Order.eventId order = Some event →
  TicketsService.findByOrder (PaymentWebhook.external_id payload) (tickets s) = [] →
  let id := PaymentWebhook.external_id payload in
  let n := Z.to_nat (Order.quantity order) in
  (∀ i, (i < n)%nat → qrOk env i = true) →
  (∀ i, (i < n)%nat → pdfOk env i = true) →
  (∀ i, (i < n)%nat → uuidv4 env i ∉ Ticket.id <$> tickets s) →
  (∀ i j, (i < n)%nat → (j < n)%nat → uuidv4 env i = uuidv4 env j → i = j) →
  let order' := Order.set_status OrderStatus.PAID order in
  let made := madeTicket env id order' user <$> seq 0 n in
  PaymentWebhook.processWebhook token env payload token s
  = (Ok tt,
     mkStore (events s) (users s) (<[id := order']> (orders s))
       (payments (refreshed env payload PaymentStatus.PAID s))
       (tickets s ++ (withPdf <$> made))
       ((uploads s ++ (qrFileName env <$> seq 0 n))
          ++ (TicketsService.pdfFileName <$> made))
       (outbox s ++ [OrderPaidEmail (User.email user) (Order.orderNumber order)
                       (Ticket.id <$> (withPdf <$> made))])).
Proof.
  intros Huuid Hst Ho Hnp Hu He Hnone id n Hqr Hpdf Hfresh Hinj order' made.
  rewrite (processWebhook_accepted token env payload s _ order Huuid
             (newPaymentStatus_PAID _ Hst) Ho).
  simpl. fold id.
  set (sr := refreshed env payload PaymentStatus.PAID s).
  assert (Ho' : orders sr !! id = Some order).
  { unfold sr. by rewrite (refreshed_frame orders). }
  rewrite (updateStatus_changed env id OrderStatus.PAID (webhookPaymentData payload)
             sr order Ho' Hnp).
  assert (Hnr : OrdersService.restoresQuota OrderStatus.PAID (Order.status order) = false)
    by reflexivity.
  rewrite Hnr. simpl. fold order'.
  assert (Htk : tickets sr = tickets s) by (unfold sr; by rewrite (refreshed_frame tickets)).
  assert (Hus : users sr = users s) by (unfold sr; by rewrite (refreshed_frame users)).
  assert (Hes : events sr = events s) by (unfold sr; by rewrite (refreshed_frame events)).
  assert (Hos : orders sr = orders s) by (unfold sr; by rewrite (refreshed_frame orders)).
  assert (Hup : uploads sr = uploads s) by (unfold sr; by rewrite (refreshed_frame uploads)).
  assert (Hob : outbox sr = outbox s) by (unfold sr; by rewrite (refreshed_frame outbox)).
  rewrite Htk, Hus, Hes. fold id in Hnone. rewrite Hnone, Hu, He.
  set (s2 := with_orders (insert id order') sr).
  assert (Hgen : TicketsService.generateTicketsForOrder env id s2
                 = (Ok (withPdf <$> made),
                    mkStore (events s2) (users s2) (orders s2) (payments s2)
                      (tickets s2 ++ (withPdf <$> made))
                      ((uploads s2 ++ (qrFileName env <$> seq 0 n))
                         ++ (TicketsService.pdfFileName <$> made))
                      (outbox s2))).
  { apply (generateTicketsForOrder_first env id s2 order' user event).
    - unfold s2. simpl. apply lookup_insert_eq.
    - unfold s2. simpl. by rewrite Hus.
    - unfold s2. simpl. by rewrite Hes.
    - unfold s2. simpl. by rewrite Htk.
    - done.
    - done.
    - unfold s2. simpl. by rewrite Htk.
    - done. }
  set (s3 := mkStore (events s2) (users s2) (orders s2) (payments s2)
               (tickets s2 ++ (withPdf <$> made))
               ((uploads s2 ++ (qrFileName env <$> seq 0 n))
                  ++ (TicketsService.pdfFileName <$> made))
               (outbox s2 ++ [OrderPaidEmail (User.email user) (Order.orderNumber order')
                                (Ticket.id <$> (withPdf <$> made))])).
  assert (Hpost : OrdersService.postPaid env id order' [] (Some user) (Some event) s2
                  = (Ok tt, s3)).
  { unfold OrdersService.postPaid, catch, bind. rewrite Hgen. reflexivity. }
  rewrite Hpost. simpl.
  unfold catch, bind.
  rewrite (generateTicketsForOrder_settled env id s3 order' user event).
  - simpl. f_equal. unfold s3. simpl. by rewrite Htk, Hus, Hes, Hos, Hup, Hob.
  - unfold s3, s2. simpl. apply lookup_insert_eq.
  - unfold s3. simpl. by rewrite Hus.
  - unfold s3. simpl. by rewrite Hes.
  - unfold s3. simpl. rewrite Htk.
    unfold TicketsService.findByOrder in *. rewrite filter_app, Hnone. simpl.
    pose proof (findByOrder_made env id order' user (seq 0 n)) as Hm.
    unfold TicketsService.findByOrder in Hm. fold made in Hm. rewrite Hm.
    unfold made. by rewrite !length_fmap, length_seq.
Qed.

(** The claim C2 as it is worded fails in two ways.  With fabrication
    working, the second delivery does write: [processWebhook] saves the
    payment row before [updateStatus] is called, so the time of payment
    moves from the first delivery to the second.  With no QR code written
    at the first delivery, that delivery leaves the order paid without a
    ticket and without a mail; the second delivery, past the guard, makes
    the three tickets and their six files, and no paid mail is ever handed
    over. *)
Lemma webhook_paid_second_delivery_writes :
  (Payment.paidAt <$> payments Demo.store2 !! Demo.order1 = Some (Some 2000)
   ∧ Payment.paidAt <$> payments (redelivered Demo.store2) !! Demo.order1
     = Some (Some 2500))
  ∧ (Order.status <$> orders demo_store_noqr !! Demo.order1 = Some OrderStatus.PAID
     ∧ tickets demo_store_noqr = []
     ∧ outbox demo_store_noqr = outbox Demo.store1
     ∧ length (tickets (redelivered demo_store_noqr)) = 3%nat
     ∧ length (uploads (redelivered demo_store_noqr)) = 6%nat
     ∧ outbox (redelivered demo_store_noqr) = outbox Demo.store1).
Proof. repeat split; vm_compute; reflexivity. Qed.

(** C2, amended.  Delivering the same PAID webhook twice for an order that
    was not yet paid, when the first delivery fabricates the tickets (user
    and event on file, every QR code and PDF written, generated ticket ids
    new): both deliveries complete; after the first the order has exactly
    as many tickets as its quantity and one paid-confirmation mail has
    been handed to the mailer; in the second, [updateStatus] finds the
    target status equal to the current one, returns the stored order and
    changes nothing, and the delivery as a whole adds no ticket, no file
    and no mail and leaves orders, events and users as they were.  The
    store after the second delivery is given exactly: it differs from the
    store before it in the payment row that [processWebhook] saves ahead
    of [updateStatus]. *)
Theorem webhook_paid_twice token env1 env2 payload (s : Store) order user event :
  PaymentWebhook.uuidRegex_test (PaymentWebhook.external_id payload) = true →
  PaymentWebhook.status payload = XenditWebhookStatus.PAID →
  orders s !! PaymentWebhook.external_id payload = Some order →
  Order.status order ≠ OrderStatus.PAID →
  users s !! Order.userId order = Some user →
  events s !! Order.eventId order = Some event →
  TicketsService.findByOrder (PaymentWebhook.external_id payload) (tickets s) = [] →
  let id := PaymentWebhook.external_id payload in
  let n := Z.to_nat (Order.quantity order) in
  (∀ i, (i < n)%nat → qrOk env1 i = true) →
  (∀ i, (i < n)%nat → pdfOk env1 i = true) →
  (∀ i, (i < n)%nat → uuidv4 env1 i ∉ Ticket.id <$> tickets s) →
  (∀ i j, (i < n)%nat → (j < n)%nat → uuidv4 env1 i = uuidv4 env1 j → i = j) →
  ∃ s1 s2 ts,
    PaymentWebhook.processWebhook token env1 payload token s = (Ok tt, s1)
    ∧ PaymentWebhook.processWebhook token env2 payload token s1 = (Ok tt, s2)
    (* one set of tickets *)
    ∧ TicketsService.findByOrder id (tickets s1) = ts
    ∧ length ts = n
    ∧ TicketsService.findByOrder id (tickets s2) = ts
    (* one paid-confirmation mail *)
    ∧ outbox s1 = outbox s ++ [OrderPaidEmail (User.email user) (Order.orderNumber order)
                                 (Ticket.id <$> ts)]
    ∧ outbox s2 = outbox s1
    (* the second delivery stops at the guard of [updateStatus] *)
    ∧ OrdersService.updateStatus env2 id OrderStatus.PAID (webhookPaymentData payload)
        (refreshed env2 payload PaymentStatus.PAID s1)
      = (Ok (Order.set_status OrderStatus.PAID order),
         refreshed env2 payload PaymentStatus.PAID s1)
    (* and writes nothing but the payment row *)
    ∧ s2 = refreshed env2 payload PaymentStatus.PAID s1
    ∧ tickets s2 = tickets s1 ∧ uploads s2 = uploads s1
    ∧ orders s2 = orders s1 ∧ events s2 = events s1 ∧ users s2 = users s1.
Proof.
  intros Huuid Hst Ho Hnp Hu He Hnone id n Hqr Hpdf Hfresh Hinj.
  pose proof (webhook_paid_first token env1 payload s order user event
                Huuid Hst Ho Hnp Hu He Hnone Hqr Hpdf Hfresh Hinj) as H1.
  simpl in H1. fold id n in H1.
  set (order' := Order.set_status OrderStatus.PAID order) in *.
  set (made := madeTicket env1 id order' user <$> seq 0 n) in *.
  set (s1 := mkStore _ _ _ _ _ _ _) in H1.
  assert (Hts : TicketsService.findByOrder id (tickets s1) = withPdf <$> made).
  { unfold s1. simpl. unfold TicketsService.findByOrder in *.
    rewrite filter_app. fold id in Hnone. rewrite Hnone. simpl.
    apply (findByOrder_made env1 id order' user (seq 0 n)). }
  assert (Hlen : length (withPdf <$> made) = n).
  { unfold made. by rewrite !length_fmap, length_seq. }
  destruct (webhook_paid_again token env2 payload s1 order' user event) as [Hguard H2];
    try done.
  { unfold s1. simpl. apply lookup_insert_eq. }
  { fold id. by rewrite Hts, Hlen. }
  exists s1, (refreshed env2 payload PaymentStatus.PAID s1), (withPdf <$> made).
  rewrite !(refreshed_frame tickets), !(refreshed_frame uploads),
    !(refreshed_frame orders), !(refreshed_frame events), !(refreshed_frame users),
    !(refreshed_frame outbox) by done.
  repeat split; done.
Qed.

Lemma webhook_paid_twice_witness :
  ∃ s1 s2 ts,
    PaymentWebhook.processWebhook Demo.token (Demo.at_time 2000 Demo.env0)
      (Demo.webhook XenditWebhookStatus.PAID) Demo.token Demo.store1 = (Ok tt, s1)
    ∧ PaymentWebhook.processWebhook Demo.token (Demo.at_time 2500 Demo.env0)
        (Demo.webhook XenditWebhookStatus.PAID) Demo.token s1 = (Ok tt, s2)
    ∧ length ts = 3%nat
    ∧ TicketsService.findByOrder Demo.order1 (tickets s2) = ts
    ∧ outbox s2
      = outbox Demo.store1
          ++ [OrderPaidEmail "alice@example.com" "ORD-20250101-0001" (Ticket.id <$> ts)].
Proof.
  destruct (orders Demo.store1 !! Demo.order1) as [order|] eqn:Ho;
    [|vm_compute in Ho; discriminate].
  assert (Hord : order = Order.mk "ORD-20250101-0001" "INV-20250101-0001" Demo.alice
                           Demo.gala 3 100 300 OrderStatus.PENDING 3601000).
  { vm_compute in Ho. by injection Ho as <-. }
  destruct (webhook_paid_twice Demo.token (Demo.at_time 2000 Demo.env0)
              (Demo.at_time 2500 Demo.env0) (Demo.webhook XenditWebhookStatus.PAID)
              Demo.store1 order (User.mk "alice@example.com" (Some "Alice"))
              (Event.mk "Gala" (Some "Hall") (Some "published") (Some 5000) 100 7))
    as (s1 & s2 & ts & H1 & H2 & Hts1 & Hlen & Hts2 & Hob1 & Hob2 & _).
  - vm_compute. reflexivity.
  - reflexivity.
  - exact Ho.
  - subst order. discriminate.
  - subst order. vm_compute. reflexivity.
  - subst order. vm_compute. reflexivity.
  - vm_compute. reflexivity.
  - reflexivity.
  - reflexivity.
  - intros i _. vm_compute. apply not_elem_of_nil.
  - subst order. simpl. intros i j Hi Hj Heq.
    destruct i as [|[|[|i]]], j as [|[|[|j]]]; try lia; vm_compute in Heq; discriminate.
  - exists s1, s2, ts. subst order. simpl in *.
    repeat split; try done. by rewrite Hob2, Hob1.
Defined.


(** ** The quota ledger *)

Lemma held_insert_new e (os : gmap string Order.t) id o :
  os !! id = None → held e (<[id := o]> os) = hold e o + held e os.
Proof.
  intros Hn. unfold held.
  rewrite (map_fold_insert_L (λ _ o acc, hold e o + acc)); [done| |done].
  intros. lia.
Qed.

Lemma held_delete e (os : gmap string Order.t) id o :
  os !! id = Some o → held e os = hold e o + held e (delete id os).
Proof.
  intros Hs. unfold held.
  rewrite (map_fold_delete_L (λ _ o acc, hold e o + acc) 0 id o os); [done| |done].
  intros. lia.
Qed.

Lemma held_insert_over e (os : gmap string Order.t) id o o' :
  os !! id = Some o → held e (<[id := o']> os) = held e os - hold e o + hold e o'.
Proof.
  intros Hs. rewrite <- insert_delete_eq.
  rewrite held_insert_new by apply lookup_delete_eq.
  rewrite (held_delete e os id o Hs). lia.
Qed.

Lemma held_nonneg e (os : gmap string Order.t) :
  (∀ id o, os !! id = Some o → Order.eventId o = e → 0 ≤ Order.quantity o) →
  0 ≤ held e os.
Proof.
  unfold held.
  apply (map_fold_weak_ind
    (λ r (m : gmap string Order.t),
       (∀ id o, m !! id = Some o → Order.eventId o = e → 0 ≤ Order.quantity o) → 0 ≤ r)).
  - intros _. lia.
  - intros id o m r Hn IH Hq.
    assert (0 ≤ r).
    { apply IH. intros id' o' Ho'. apply (Hq id').
      rewrite lookup_insert_ne; [done|]. intros ->. congruence. }
    assert (0 ≤ hold e o); [|lia].
    unfold hold. destruct (decide (Order.eventId o = e)); [|lia].
    destruct (prePayment _); [|lia].
    apply (Hq id); [apply lookup_insert_eq|done].
Qed.

Lemma held_none e (os : gmap string Order.t) :
  (∀ id o, os !! id = Some o → Order.eventId o ≠ e) → held e os = 0.
Proof.
  unfold held.
  apply (map_fold_weak_ind
    (λ r (m : gmap string Order.t),
       (∀ id o, m !! id = Some o → Order.eventId o ≠ e) → r = 0)).
  - done.
  - intros id o m r Hn IH Hq.
    rewrite IH.
    + unfold hold. rewrite decide_False; [lia|]. apply (Hq id), lookup_insert_eq.
    + intros id' o' Ho'. apply (Hq id').
      rewrite lookup_insert_ne; [done|]. intros ->. congruence.
Qed.

Lemma hold_nonneg e o : (Order.eventId o = e → 0 ≤ Order.quantity o) → 0 ≤ hold e o.
Proof.
  intros H. unfold hold. destruct (decide _); [|lia]. destruct (prePayment _); auto; lia.
Qed.

(** The invariant only reads events and orders. *)
Lemma quotaInv_ledger e Q (s s' : Store) :
  events s' = events s → orders s' = orders s → quotaInv e Q s → quotaInv e Q s'.
Proof. unfold quotaInv. by intros -> ->. Qed.

(** ** Methods that preserve a property of the store *)

Section Preservation.
Context (P : Store → Prop).

Lemma preserves_ret {A} (a : A) : preserves P (ret a).
Proof. by intros s. Qed.

Lemma preserves_throw {A} e : preserves P (@throw A e).
Proof. by intros s. Qed.

Lemma preserves_get : preserves P get.
Proof. by intros s. Qed.

Lemma preserves_bind {A B} (m : M A) (k : A → M B) :
  preserves P m → (∀ a, preserves P (k a)) → preserves P (bind m k).
Proof.
  intros Hm Hk s Hs. unfold bind. specialize (Hm s Hs).
  destruct (m s) as [[a|e] s1]; simpl in *; [|done].
  by apply Hk.
Qed.

Lemma preserves_catch {A} (m : M A) h :
  preserves P m → (∀ e, preserves P (h e)) → preserves P (catch m h).
Proof.
  intros Hm Hh s Hs. unfold catch. specialize (Hm s Hs).
  destruct (m s) as [[a|e] s1]; simpl in *; [done|].
  by apply Hh.
Qed.

Lemma preserves_when b m : preserves P m → preserves P (when b m).
Proof. destruct b; [done|]. intros _. apply preserves_ret. Qed.

Lemma preserves_forM {A B} (f : A → M B) l : (∀ x, preserves P (f x)) → preserves P (forM f l).
Proof.
  intros Hf. induction l as [|x l IH]; simpl; [apply preserves_ret|].
  apply preserves_bind; [done|]. intros y.
  apply preserves_bind; [done|]. intros ys. apply preserves_ret.
Qed.

End Preservation.

(** A method that keeps events and orders preserves the invariant. *)
Lemma keeps_preserves_quotaInv e Q {A} (m : M A) :
  keeps (λ s, (events s, orders s)) m → preserves (quotaInv e Q) m.
Proof.
  intros Hk s Hs. specialize (Hk s). injection Hk as He Ho.
  by apply (quotaInv_ledger e Q s).
Qed.

Lemma sendMail_preserves_quotaInv e Q m : preserves (quotaInv e Q) (sendMail m).
Proof. apply keeps_preserves_quotaInv. by apply keeps_modify. Qed.

Lemma restored_ledger env order status order_tickets (s : Store) :
  orders (restored env order status order_tickets s) = orders s
  ∧ events (restored env order status order_tickets s)
    = match events s !! Order.eventId order with
      | Some event =>
        <[Order.eventId order :=
            Event.set_quota (Event.quota event + Order.quantity order) event]> (events s)
      | None => events s
      end.
Proof.
  unfold restored.
  destruct (events s !! Order.eventId order), order_tickets; done.
Qed.

(** What [updateStatus] does to orders and events when it changes the
    status. *)
Lemma updateStatus_ledger env id status paymentData (s : Store) order :
  orders s !! id = Some order →
  Order.status order ≠ status →
  let s' := (OrdersService.updateStatus env id status paymentData s).2 in
  orders s' = <[id := Order.set_status status order]> (orders s)
  ∧ events s'
    = if OrdersService.restoresQuota status (Order.status order)
      then match events s !! Order.eventId order with
           | Some event =>
             <[Order.eventId order :=
                 Event.set_quota (Event.quota event + Order.quantity order) event]>
               (events s)
           | None => events s
           end
      else events s.
Proof.
  intros Ho Hne.
  rewrite (updateStatus_changed env id status paymentData s order Ho Hne). simpl.
  set (s1 := if OrdersService.restoresQuota status (Order.status order) then _ else s).
  assert (H1 : orders s1 = orders s
               ∧ events s1 = if OrdersService.restoresQuota status (Order.status order)
                             then match events s !! Order.eventId order with
                                  | Some event =>
                                    <[Order.eventId order :=
                                        Event.set_quota
                                          (Event.quota event + Order.quantity order) event]>
                                      (events s)
                                  | None => events s
                                  end
                             else events s).
  { unfold s1. destruct (OrdersService.restoresQuota _ _); [|done].
    apply (restored_ledger env (Order.set_status status order)). }
  destruct H1 as [Hos Hes].
  destruct (bool_decide (status = OrderStatus.PAID)).
  - pose proof (keeps_ledger_postPaid env id (Order.set_status status order)
                  (TicketsService.findByOrder id (tickets s))
                  (users s !! Order.userId order) (events s !! Order.eventId order)
                  (with_orders (insert id (Order.set_status status order)) s1)) as Hk.
    apply ledger_eq in Hk as (He & _ & Hoo & _).
    rewrite He, Hoo. simpl. by rewrite Hos, Hes.
  - simpl. by rewrite Hos, Hes.
Qed.

(** [updateStatus] to a status that holds no quota (paid, cancelled,
    expired) preserves the invariant. *)
Lemma updateStatus_preserves_quotaInv e Q env id status paymentData :
  prePayment status = false →
  preserves (quotaInv e Q) (OrdersService.updateStatus env id status paymentData).
Proof.
  intros Hpost s Hinv.
  destruct (orders s !! id) as [order|] eqn:Ho.
  2:{ destruct (updateStatus_not_found env id status paymentData s Ho) as [ex ->]. done. }
  destruct (decide (Order.status order = status)) as [<-|Hne].
  { by rewrite (updateStatus_same env id paymentData s order Ho). }
  destruct (updateStatus_ledger env id status paymentData s order Ho Hne) as [Hos Hes].
  set (s' := (OrdersService.updateStatus env id status paymentData s).2) in *.
  destruct Hinv as [(ev & Hev & Hq0 & Hsum) Hqty].
  assert (Hqo : Order.eventId order = e → 0 ≤ Order.quantity order) by (apply (Hqty id), Ho).
  assert (Hheld : held e (orders s') = held e (orders s) - hold e order).
  { rewrite Hos, (held_insert_over e (orders s) id order _ Ho).
    assert (Hz : hold e (Order.set_status status order) = 0); [|lia].
    unfold hold. change (Order.status (Order.set_status status order)) with status.
    rewrite Hpost. by destruct (decide _). }
  split.
  - rewrite Hes, Hheld.
    destruct (OrdersService.restoresQuota status (Order.status order)) eqn:Hr.
    + assert (Hpre : prePayment (Order.status order) = true).
      { unfold OrdersService.restoresQuota in Hr. apply andb_true_iff in Hr as [_ Hr].
        exact Hr. }
      destruct (decide (Order.eventId order = e)) as [Heq|Hneq].
      * rewrite Heq, Hev. eexists. split; [apply lookup_insert_eq|]. simpl.
        unfold hold. rewrite decide_True, Hpre by done.
        specialize (Hqo Heq). lia.
      * exists ev. split.
        { destruct (events s !! Order.eventId order); [|done].
          by rewrite lookup_insert_ne. }
        unfold hold. rewrite decide_False by done. lia.
    + exists ev. split; [done|].
      pose proof (hold_nonneg e order Hqo). lia.
  - intros id' o'. rewrite Hos. intros Hl.
    apply lookup_insert_Some in Hl as [[<- <-]|[_ Hl]].
    + simpl. exact Hqo.
    + by apply (Hqty id').
Qed.

Ltac preserve_step :=
  first
    [ apply updateStatus_preserves_quotaInv; reflexivity
    | apply preserves_ret | apply preserves_throw | apply preserves_get
    | apply sendMail_preserves_quotaInv
    | apply preserves_when
    | apply preserves_bind; [|intros ?]
    | apply preserves_catch; [|intros ?]
    | match goal with
      | |- preserves _ (match ?x with _ => _ end) => destruct x
      end ].

Lemma cancel_preserves_quotaInv e Q env id userId :
  preserves (quotaInv e Q) (OrdersService.cancel env id userId).
Proof.
  unfold OrdersService.cancel.
  repeat preserve_step.
Qed.

Lemma expireOrders_preserves_quotaInv e Q env :
  preserves (quotaInv e Q) (OrdersService.expireOrders env).
Proof.
  unfold OrdersService.expireOrders.
  apply preserves_bind; [apply preserves_get|]. intros s0.
  apply preserves_bind; [|intros; apply preserves_ret].
  apply preserves_forM. intros [order_id order].
  repeat preserve_step.
Qed.

Lemma processWebhook_preserves_quotaInv e Q token env payload callbackToken :
  PaymentWebhook.status payload ≠ XenditWebhookStatus.PENDING →
  preserves (quotaInv e Q) (PaymentWebhook.processWebhook token env payload callbackToken).
Proof.
  intros Hst. unfold PaymentWebhook.processWebhook.
  destruct (negb (bool_decide (callbackToken = token))); [apply preserves_throw|].
  destruct (negb (PaymentWebhook.uuidRegex_test _)); [apply preserves_ret|].
  destruct (PaymentWebhook.newPaymentStatus (PaymentWebhook.status payload)) as [ps|] eqn:Hps;
    [|apply preserves_ret].
  assert (Hpost : prePayment (PaymentWebhook.mapPaymentStatusToOrderStatus ps) = false).
  { unfold PaymentWebhook.newPaymentStatus in Hps.
    repeat case_decide; simplify_eq; done. }
  apply preserves_bind; [apply preserves_get|]. intros s0.
  destruct (orders s0 !! PaymentWebhook.external_id payload); [|apply preserves_ret].
  apply preserves_bind.
  { destruct (payments s0 !! PaymentWebhook.external_id payload); [|apply preserves_ret].
    apply keeps_preserves_quotaInv. by apply keeps_modify. }
  intros _. apply preserves_bind; [by apply updateStatus_preserves_quotaInv|].
  intros _. apply preserves_when, preserves_catch; [|intros; apply preserves_ret].
  apply preserves_bind; [|intros; apply preserves_ret].
  apply keeps_preserves_quotaInv. by apply keeps_generateTicketsForOrder.
Qed.

Lemma keeps_PaymentService_create {T} (proj : Store → T) env orderId userId :
  (∀ f s, proj (with_payments f s) = proj s) →
  keeps proj (PaymentService.create env orderId userId).
Proof.
  intros Hp. unfold PaymentService.create, PaymentService.createInvoice.
  apply keeps_bind; [apply keeps_get|]. intros s0.
  destruct (orders s0 !! orderId); [|apply keeps_throw].
  destruct (payments s0 !! orderId); [apply keeps_ret|].
  apply keeps_bind.
  { destruct (gateway env); [apply keeps_ret|apply keeps_throw]. }
  intros inv. apply keeps_bind; [by apply keeps_modify|]. intros _. apply keeps_ret.
Qed.

(** What [create] does to events and orders: nothing (a check failed, or
    the gateway failed and the reservation was rolled back), or the new
    pending order is on file and its quantity is off the event's quota. *)
Lemma create_ledger env userId dto (s : Store) :
  let s' := (OrdersService.create env userId dto s).2 in
  (events s' = events s ∧ orders s' = orders s)
  ∨ ∃ event,
      events s !! OrdersService.eventId dto = Some event
      ∧ OrdersService.quantity dto ≤ Event.quota event
      ∧ orders s !! newOrderId env = None
      ∧ events s'
        = <[OrdersService.eventId dto :=
              Event.set_quota (Event.quota event - OrdersService.quantity dto) event]>
            (events s)
      ∧ orders s'
        = <[newOrderId env :=
              Order.mk (newOrderNumber env) (newInvoiceNumber env) userId
                (OrdersService.eventId dto) (OrdersService.quantity dto)
                (Event.price event)
                (times env (Event.price event) (OrdersService.quantity dto))
                OrderStatus.PENDING (hourLater env (now env))]> (orders s).
Proof.
  simpl. remember (OrdersService.create env userId dto s) as r eqn:Hr.
  unfold OrdersService.create in Hr.
  unfold bind at 1 in Hr. unfold get at 1 in Hr.
  destruct (events s !! OrdersService.eventId dto) as [event|] eqn:Hev;
    [|subst r; left; split; reflexivity].
  destruct (negb (bool_decide (Js.or_else (Event.status event) "published" = "published")));
    [subst r; left; split; reflexivity|].
  destruct (match Event.startTime event with
            | Some t => bool_decide (t < now env)
            | None => false
            end); [subst r; left; split; reflexivity|].
  destruct (bool_decide (Event.quota event < OrdersService.quantity dto)) eqn:Hq;
    [subst r; left; split; reflexivity|].
  apply bool_decide_eq_false in Hq.
  unfold bind at 1 in Hr. unfold OrdersService.insertOrder in Hr.
  unfold bind at 1 in Hr. unfold get at 1 in Hr.
  destruct (orders s !! newOrderId env) as [?|] eqn:Hfresh;
    [subst r; left; split; reflexivity|].
  unfold bind at 1 in Hr. unfold modify at 1 in Hr. unfold ret at 1 in Hr. simpl in Hr.
  unfold bind at 1 in Hr. unfold OrdersService.saveEvent at 1, modify at 1 in Hr.
  set (event' := Event.set_quota (Event.quota event - OrdersService.quantity dto) event) in *.
  set (order := Order.mk _ _ _ _ _ _ _ _ _) in *.
  set (sa := with_events (insert (OrdersService.eventId dto) event')
               (with_orders (insert (newOrderId env) order) s)) in *.
  unfold bind at 1 in Hr. unfold catch at 1 in Hr.
  pose proof (keeps_PaymentService_create (λ s, (events s, orders s)) env
                (newOrderId env) userId ltac:(done) sa) as Hk.
  destruct (PaymentService.create env (newOrderId env) userId sa) as [[pd|ex] sb].
  - simpl in Hk. injection Hk as Heb Hob.
    right. exists event.
    assert (Hfin : events r.2 = events sb ∧ orders r.2 = orders sb).
    { subst r. unfold bind, get, sendMail, modify, ret.
      destruct (orders sb !! newOrderId env ≫= _); done. }
    destruct Hfin as [-> ->]. rewrite Heb, Hob.
    repeat split; try done. lia.
  - simpl in Hk. injection Hk as Heb Hob.
    left. subst r. unfold OrdersService.saveEvent, bind, modify, throw. simpl.
    rewrite Heb, Hob. unfold sa. simpl.
    rewrite insert_insert_eq. unfold event'. rewrite set_quota_back.
    split; [by apply insert_id|by apply delete_insert_id].
Qed.

Lemma create_preserves_quotaInv e Q env userId dto :
  0 ≤ OrdersService.quantity dto →
  preserves (quotaInv e Q) (OrdersService.create env userId dto).
Proof.
  intros Hn s Hinv.
  destruct (create_ledger env userId dto s) as [[He Ho]|(event & Hev & Hq & Hfresh & He & Ho)].
  { by apply (quotaInv_ledger e Q s). }
  set (s' := (OrdersService.create env userId dto s).2) in *.
  destruct Hinv as [(ev & Hlook & Hq0 & Hsum) Hqty].
  split.
  - rewrite He, Ho, held_insert_new by done.
    unfold hold. simpl.
    destruct (decide (OrdersService.eventId dto = e)) as [Heq|Hneq].
    + rewrite Heq in Hev. rewrite Heq.
      assert (event = ev) as -> by congruence.
      eexists. split; [apply lookup_insert_eq|]. simpl. lia.
    + exists ev. split; [by rewrite lookup_insert_ne|]. lia.
  - intros id' o'. rewrite Ho. intros Hl.
    apply lookup_insert_Some in Hl as [[<- <-]|[_ Hl]]; [done|].
    by apply (Hqty id').
Qed.

Lemma step_preserves_quotaInv e Q token op :
  opOk op → ∀ s, quotaInv e Q s → quotaInv e Q (step token s op).
Proof.
  destruct op as [env userId dto|env id userId|env payload callbackToken|env]; simpl;
    intros Hok s Hinv.
  - by apply create_preserves_quotaInv.
  - by apply cancel_preserves_quotaInv.
  - by apply processWebhook_preserves_quotaInv.
  - by apply expireOrders_preserves_quotaInv.
Qed.

Lemma run_preserves_quotaInv e Q token ops :
  Forall opOk ops → ∀ s, quotaInv e Q s → quotaInv e Q (run token ops s).
Proof.
  unfold run. induction ops as [|op ops IH]; intros Hok s Hinv; simpl; [done|].
  apply Forall_cons in Hok as [Hop Hok].
  apply IH; [done|]. by apply step_preserves_quotaInv.
Qed.

Lemma quotaInv_bounds e Q (s : Store) :
  quotaInv e Q s → ∃ event, events s !! e = Some event ∧ 0 ≤ Event.quota event ≤ Q.
Proof.
  intros [(ev & Hev & Hq0 & Hsum) Hqty]. exists ev. split; [done|].
  pose proof (held_nonneg e (orders s) Hqty). lia.
Qed.

(** C1.  Take an event with its original quota, before any order on it,
    and run any sequence of creations (for quantities that are not
    negative), cancellations, webhooks reporting EXPIRED (or PAID, or a
    status the handler ignores) and expiry sweeps, on this and other
    events: afterwards, and so after every prefix, the event's quota
    counter is at least 0 and at most the original quota.  The reasons are
    part of the statement: [create] either leaves events and orders alone
    or, the quota being at least the quantity, takes the quantity off the
    quota and files a pending order; [updateStatus], when it changes a
    status, adds the order's quantity back exactly when the new status is
    cancelled or expired and the old one was pending or
    awaiting_payment. *)
Theorem quota_invariant token e event0 (s0 : Store) ops :
  events s0 !! e = Some event0 →
  0 ≤ Event.quota event0 →
  (∀ id o, orders s0 !! id = Some o → Order.eventId o ≠ e) →
  Forall opOk ops →
  (∃ event, events (run token ops s0) !! e = Some event
            ∧ 0 ≤ Event.quota event ≤ Event.quota event0)
  ∧ (∀ env userId dto (s : Store),
       let s' := (OrdersService.create env userId dto s).2 in
       (events s' = events s ∧ orders s' = orders s)
       ∨ ∃ event,
           events s !! OrdersService.eventId dto = Some event
           ∧ OrdersService.quantity dto ≤ Event.quota event
           ∧ events s'
             = <[OrdersService.eventId dto :=
                   Event.set_quota (Event.quota event - OrdersService.quantity dto) event]>
                 (events s)
           ∧ Order.status <$> orders s' !! newOrderId env = Some OrderStatus.PENDING)
  ∧ (∀ env id status paymentData (s : Store) order event,
       orders s !! id = Some order →
       Order.status order ≠ status →
       events s !! Order.eventId order = Some event →
       events (OrdersService.updateStatus env id status paymentData s).2
       = if (bool_decide (status = OrderStatus.CANCELLED)
             || bool_decide (status = OrderStatus.EXPIRED))
            && prePayment (Order.status order)
         then <[Order.eventId order :=
                  Event.set_quota (Event.quota event + Order.quantity order) event]>
                (events s)
         else events s).
Proof.
  intros Hev Hq0 Hnone Hok. split; [|split].
  - apply (quotaInv_bounds e (Event.quota event0)).
    apply run_preserves_quotaInv; [done|].
    split.
    + exists event0. repeat split; try done. rewrite (held_none e (orders s0) Hnone). lia.
    + intros id o Ho Heq. by destruct (Hnone id o Ho).
  - intros env userId dto s.
    destruct (create_ledger env userId dto s)
      as [?|(event & Hlook & Hq & Hfresh & He & Ho)]; [by left|].
    right. exists event. repeat split; try done.
    rewrite Ho, lookup_insert_eq. reflexivity.
  - intros env id status paymentData s order event Ho Hne Hlook.
    destruct (updateStatus_ledger env id status paymentData s order Ho Hne) as [_ ->].
    unfold OrdersService.restoresQuota, prePayment. by rewrite Hlook.
Qed.

Lemma quota_invariant_witness :
  ∃ event, events (run Demo.token demoOps Demo.store0) !! Demo.gala = Some event
           ∧ 0 ≤ Event.quota event ≤ 10.
Proof.
  apply (quota_invariant Demo.token Demo.gala
           (Event.mk "Gala" (Some "Hall") (Some "published") (Some 5000) 100 10)
           Demo.store0 demoOps).
  - vm_compute. reflexivity.
  - simpl. lia.
  - intros id o Ho. simpl in Ho. by rewrite lookup_empty in Ho.
  - unfold demoOps. repeat constructor; simpl; try lia. discriminate.
Defined.

(** Outside the operations of C1: a PENDING webhook writes pending over a
    cancelled order, and cancelling that order again releases its quantity
    a second time. *)
Example pending_webhook_reopens_cancelled_order :
  Event.quota <$>
    events (run Demo.token
              [ OpCreate Demo.env0 Demo.alice (OrdersService.mkCreateOrderDto Demo.gala 3);
                OpCancel Demo.env0 Demo.order1 Demo.alice;
                OpWebhook Demo.env0 (Demo.webhook XenditWebhookStatus.PENDING) Demo.token;
                OpCancel Demo.env0 Demo.order1 Demo.alice ]
              Demo.store0) !! Demo.gala
  = Some 13.
Proof. vm_compute. reflexivity. Qed.

(** ** What does keep a paid order paid *)

Lemma isPaid_ledger id (s s' : Store) : orders s' = orders s → isPaid id s → isPaid id s'.
Proof. unfold isPaid. by intros ->. Qed.

Lemma keeps_preserves_isPaid id {A} (m : M A) : keeps orders m → preserves (isPaid id) m.
Proof. intros Hk s Hs. apply (isPaid_ledger id s); [apply Hk|done]. Qed.

(** [updateStatus] leaves a paid order paid when it is called for another
    order, or with the target paid. *)
Lemma updateStatus_preserves_isPaid id env id' status paymentData :
  id' ≠ id ∨ status = OrderStatus.PAID →
  preserves (isPaid id) (OrdersService.updateStatus env id' status paymentData).
Proof.
  intros Hcase s Hpaid.
  destruct (orders s !! id') as [order|] eqn:Ho.
  2:{ destruct (updateStatus_not_found env id' status paymentData s Ho) as [ex ->]. done. }
  destruct (decide (Order.status order = status)) as [<-|Hne].
  { by rewrite (updateStatus_same env id' paymentData s order Ho). }
  destruct (updateStatus_ledger env id' status paymentData s order Ho Hne) as [Hos _].
  unfold isPaid in *. rewrite Hos.
  destruct (decide (id' = id)) as [->|Hid].
  - destruct Hcase as [? | ->]; [done|].
    rewrite Ho in Hpaid. simpl in Hpaid. congruence.
  - by rewrite lookup_insert_ne.
Qed.

Lemma preserves_forM_elem (P : Store → Prop) {A B} (f : A → M B) (l : list A) :
  (∀ x, x ∈ l → preserves P (f x)) → preserves P (forM f l).
Proof.
  induction l as [|x l IH]; intros Hf; simpl; [apply preserves_ret|].
  apply preserves_bind; [apply Hf; left|]. intros y.
  apply preserves_bind; [apply IH; intros; apply Hf; by right|].
  intros ys. apply preserves_ret.
Qed.

(** A paid order stays paid under a user's cancel (of this or any other
    order), under the expiry sweep and under a webhook reporting PAID. *)
Lemma paid_kept_by_cancel_sweep_and_paid_webhook id token (s : Store) op :
  isPaid id s →
  match op with
  | OpCancel _ _ _ | OpExpireOrders _ => True
  | OpWebhook _ payload _ => PaymentWebhook.status payload = XenditWebhookStatus.PAID
  | OpCreate _ _ _ => False
  end →
  isPaid id (step token s op).
Proof.
  intros Hpaid Hop.
  destruct op as [env userId dto|env id' userId|env payload callbackToken|env]; simpl;
    [done|..].
  - (* cancel *)
    unfold OrdersService.cancel.
    unfold bind at 1. unfold get at 1.
    destruct (orders s !! id') as [order|] eqn:Ho; [|done].
    destruct (negb (bool_decide (Order.userId order = userId))); [done|].
    destruct (negb (bool_decide (Order.status order = OrderStatus.PENDING))
              && negb (bool_decide (Order.status order = OrderStatus.AWAITING_PAYMENT)))
      eqn:Hst; [done|].
    destruct (match payments s !! id' with
              | Some payment => bool_decide (Payment.status payment = PaymentStatus.PAID)
              | None => false
              end); [done|].
    assert (Hne : id' ≠ id).
    { intros ->. unfold isPaid in Hpaid. rewrite Ho in Hpaid. simpl in Hpaid.
      injection Hpaid as Hp. rewrite Hp in Hst. discriminate. }
    match goal with |- isPaid id (?m s).2 =>
      assert (Hm : preserves (isPaid id) m); [|by apply Hm] end.
    apply preserves_bind.
    + apply updateStatus_preserves_isPaid. by left.
    + intros _. apply preserves_bind; [|intros; apply preserves_ret].
      destruct (users s !! Order.userId order), (events s !! Order.eventId order);
        first [apply preserves_ret
              |apply (keeps_preserves_isPaid id); by apply keeps_modify].
  - (* webhook PAID *)
    unfold PaymentWebhook.processWebhook.
    destruct (negb (bool_decide (callbackToken = token))); [done|].
    destruct (negb (PaymentWebhook.uuidRegex_test _)); [done|].
    rewrite Hop. simpl.
    match goal with |- isPaid id (?m s).2 =>
      assert (Hm : preserves (isPaid id) m); [|by apply Hm] end.
    apply preserves_bind; [apply preserves_get|]. intros s0.
    destruct (orders s0 !! PaymentWebhook.external_id payload); [|apply preserves_ret].
    apply preserves_bind.
    { destruct (payments s0 !! PaymentWebhook.external_id payload); [|apply preserves_ret].
      apply keeps_preserves_isPaid. by apply keeps_modify. }
    intros _. apply preserves_bind.
    { apply updateStatus_preserves_isPaid. by right. }
    intros _. apply preserves_catch; [|intros; apply preserves_ret].
    apply preserves_bind; [|intros; apply preserves_ret].
    apply keeps_preserves_isPaid. by apply keeps_generateTicketsForOrder.
  - (* sweep *)
    unfold OrdersService.expireOrders.
    unfold bind at 1. unfold get at 1.
    assert (Hsel : ∀ io, io ∈ OrdersService.expiredOrders env s → io.1 ≠ id).
    { intros [id' o] Hin Heq. simpl in Heq. subst id'.
      unfold OrdersService.expiredOrders in Hin.
      apply list_elem_of_filter in Hin as [[Hp _] Hin]. simpl in Hp.
      apply elem_of_map_to_list in Hin.
      unfold isPaid in Hpaid. rewrite Hin in Hpaid. simpl in Hpaid. congruence. }
    match goal with |- isPaid id (?m s).2 =>
      assert (Hm : preserves (isPaid id) m); [|by apply Hm] end.
    apply preserves_bind; [|intros; apply preserves_ret].
    apply preserves_forM_elem. intros [id' o] Hin.
    apply preserves_catch; [|intros; apply preserves_ret].
    apply preserves_bind.
    + apply updateStatus_preserves_isPaid. left. apply (Hsel _ Hin).
    + intros _. destruct (users s !! Order.userId o), (events s !! Order.eventId o);
        first [apply preserves_ret
              |apply (keeps_preserves_isPaid id); by apply keeps_modify].
Qed.

(** * Further properties of the services *)

(** ** Webhooks that are acknowledged and ignored *)

(** X1.  With the right token, a webhook is acknowledged without touching
    the store when its [external_id] is not a UUID (the provider's test
    ping), when its status is none of PAID, EXPIRED, PENDING, or when no
    order has that id; in the last case not even a payment stored under
    that id is refreshed. *)
Theorem processWebhook_ignored token env payload (s : Store) :
  PaymentWebhook.uuidRegex_test (PaymentWebhook.external_id payload) = false
  ∨ PaymentWebhook.newPaymentStatus (PaymentWebhook.status payload) = None
  ∨ orders s !! PaymentWebhook.external_id payload = None →
  PaymentWebhook.processWebhook token env payload token s = (Ok tt, s).
Proof.
  intros Hcase. unfold PaymentWebhook.processWebhook.
  rewrite bool_decide_eq_true_2 by done. simpl.
  destruct (PaymentWebhook.uuidRegex_test _) eqn:Hu; [|reflexivity]. simpl.
  destruct (PaymentWebhook.newPaymentStatus _) as [ps|] eqn:Hps; [|reflexivity].
  destruct Hcase as [?|[?|Ho]]; [done..|].
  unfold bind, get. by rewrite Ho.
Qed.

Lemma processWebhook_ignored_witness :
  PaymentWebhook.processWebhook Demo.token Demo.env0
    (PaymentWebhook.mkPaymentWebhookDto "evt-0" "xendit-test-ping" "PAID" None None)
    Demo.token Demo.store1
  = (Ok tt, Demo.store1).
Proof.
  apply (processWebhook_ignored Demo.token Demo.env0
           (PaymentWebhook.mkPaymentWebhookDto "evt-0" "xendit-test-ping" "PAID" None None)
           Demo.store1).
  left. vm_compute. reflexivity.
Defined.

(** ** The UUID test of the webhook *)

Lemma string_length_list (s : string) :
  String.length s = length (String.list_ascii_of_string s).
Proof. induction s as [|c s IH]; simpl; [done|by rewrite IH]. Qed.

Lemma hexRun_spec n (l l' : list Ascii.ascii) :
  PaymentWebhook.hexRun n l = Some l'
  ↔ ∃ g, l = g ++ l' ∧ length g = n ∧ Forall (λ c, PaymentWebhook.isHexDigit c = true) g.
Proof.
  revert l. induction n as [|n IH]; intros l; simpl.
  - split.
    + intros [= ->]. exists []. by repeat split.
    + intros (g & -> & Hlen & _). destruct g; [done|discriminate].
  - destruct l as [|c l].
    + split; [done|]. intros (g & Heq & Hlen & _). destruct g; discriminate.
    + destruct (PaymentWebhook.isHexDigit c) eqn:Hc.
      * rewrite IH. split.
        -- intros (g & -> & Hlen & Hall). exists (c :: g). repeat split; simpl; auto.
        -- intros (g & Heq & Hlen & Hall). destruct g as [|c' g]; [discriminate|].
           injection Heq as <- ->. injection Hlen as Hlen.
           apply Forall_cons in Hall as [_ Hall]. by exists g.
      * split; [done|]. intros (g & Heq & Hlen & Hall).
        destruct g as [|c' g]; [discriminate|]. injection Heq as <- ->.
        apply Forall_cons in Hall as [Hc' _]. congruence.
Qed.

Lemma dash_spec (l l' : list Ascii.ascii) :
  PaymentWebhook.dash l = Some l' ↔ l = Ascii.ascii_of_nat 45 :: l'.
Proof.
  unfold PaymentWebhook.dash. destruct l as [|c l]; [done|].
  destruct (decide (c = Ascii.ascii_of_nat 45)) as [->|Hne].
  - split; [by intros [= ->]|by intros [= ->]].
  - split; [done|]. intros [= -> _]. done.
Qed.

Lemma hexGroup_dash_spec n (l l' : list Ascii.ascii) :
  (∃ l1, PaymentWebhook.hexRun n l = Some l1 ∧ PaymentWebhook.dash l1 = Some l')
  ↔ ∃ g, l = g ++ Ascii.ascii_of_nat 45 :: l' ∧ length g = n
         ∧ Forall (λ c, PaymentWebhook.isHexDigit c = true) g.
Proof.
  split.
  - intros (l1 & Hr & Hd). apply hexRun_spec in Hr as (g & -> & Hlen & Hall).
    apply dash_spec in Hd as ->. by exists g.
  - intros (g & -> & Hlen & Hall). eexists. split; [|by apply dash_spec].
    apply hexRun_spec. by exists g.
Qed.

(** X2.  The test of [external_id] accepts exactly the texts made of five
    groups of 8, 4, 4, 4 and 12 hexadecimal digits, of either case, with a
    dash between the groups and nothing before or after; such a text has
    36 characters. *)
Theorem uuidRegex_test_spec (s : string) :
  (PaymentWebhook.uuidRegex_test s = true
   ↔ ∃ g1 g2 g3 g4 g5,
       let d := Ascii.ascii_of_nat 45 in
       String.list_ascii_of_string s = g1 ++ d :: g2 ++ d :: g3 ++ d :: g4 ++ d :: g5
       ∧ length g1 = 8%nat ∧ length g2 = 4%nat ∧ length g3 = 4%nat
       ∧ length g4 = 4%nat ∧ length g5 = 12%nat
       ∧ Forall (λ c, PaymentWebhook.isHexDigit c = true) (g1 ++ g2 ++ g3 ++ g4 ++ g5))
  ∧ (PaymentWebhook.uuidRegex_test s = true → String.length s = 36%nat).
Proof.
  assert (Hiff : PaymentWebhook.uuidRegex_test s = true
   ↔ ∃ g1 g2 g3 g4 g5,
       let d := Ascii.ascii_of_nat 45 in
       String.list_ascii_of_string s = g1 ++ d :: g2 ++ d :: g3 ++ d :: g4 ++ d :: g5
       ∧ length g1 = 8%nat ∧ length g2 = 4%nat ∧ length g3 = 4%nat
       ∧ length g4 = 4%nat ∧ length g5 = 12%nat
       ∧ Forall (λ c, PaymentWebhook.isHexDigit c = true) (g1 ++ g2 ++ g3 ++ g4 ++ g5)).
  { unfold PaymentWebhook.uuidRegex_test.
    generalize (String.list_ascii_of_string s). intros l.
    cbn [PaymentWebhook.hexGroups]. split.
    - intros H.
      destruct (PaymentWebhook.hexRun 8 l) as [a1|] eqn:H1; [|done].
      destruct (PaymentWebhook.dash a1) as [l1|] eqn:D1; [|done].
      destruct (PaymentWebhook.hexRun 4 l1) as [a2|] eqn:H2; [|done].
      destruct (PaymentWebhook.dash a2) as [l2|] eqn:D2; [|done].
      destruct (PaymentWebhook.hexRun 4 l2) as [a3|] eqn:H3; [|done].
      destruct (PaymentWebhook.dash a3) as [l3|] eqn:D3; [|done].
      destruct (PaymentWebhook.hexRun 4 l3) as [a4|] eqn:H4; [|done].
      destruct (PaymentWebhook.dash a4) as [l4|] eqn:D4; [|done].
      destruct (PaymentWebhook.hexRun 12 l4) as [[|? ?]|] eqn:H5; [|done..].
      apply hexRun_spec in H1 as (g1 & -> & L1 & F1).
      apply hexRun_spec in H2 as (g2 & -> & L2 & F2).
      apply hexRun_spec in H3 as (g3 & -> & L3 & F3).
      apply hexRun_spec in H4 as (g4 & -> & L4 & F4).
      apply hexRun_spec in H5 as (g5 & -> & L5 & F5).
      apply dash_spec in D1 as ->. apply dash_spec in D2 as ->.
      apply dash_spec in D3 as ->. apply dash_spec in D4 as ->.
      exists g1, g2, g3, g4, g5. simpl. rewrite app_nil_r.
      repeat split; try done. by repeat apply Forall_app_2.
    - intros (g1 & g2 & g3 & g4 & g5 & Heq & L1 & L2 & L3 & L4 & L5 & Hall).
      simpl in Heq. subst l.
      rewrite !Forall_app in Hall. destruct Hall as (F1 & F2 & F3 & F4 & F5).
      rewrite (proj2 (hexRun_spec 8 _ _) (ex_intro _ g1 (conj eq_refl (conj L1 F1)))).
      cbn [PaymentWebhook.dash]. rewrite decide_True by done.
      rewrite (proj2 (hexRun_spec 4 _ _) (ex_intro _ g2 (conj eq_refl (conj L2 F2)))).
      cbn [PaymentWebhook.dash]. rewrite decide_True by done.
      rewrite (proj2 (hexRun_spec 4 _ _) (ex_intro _ g3 (conj eq_refl (conj L3 F3)))).
      cbn [PaymentWebhook.dash]. rewrite decide_True by done.
      rewrite (proj2 (hexRun_spec 4 _ _) (ex_intro _ g4 (conj eq_refl (conj L4 F4)))).
      cbn [PaymentWebhook.dash]. rewrite decide_True by done.
      assert (H5 : PaymentWebhook.hexRun 12 g5 = Some []).
      { apply hexRun_spec. exists g5. by rewrite app_nil_r. }
      by rewrite H5. }
  split; [exact Hiff|].
  intros Ht. apply Hiff in Ht as (g1 & g2 & g3 & g4 & g5 & Heq & L1 & L2 & L3 & L4 & L5 & _).
  simpl in Heq.
  rewrite string_length_list, Heq.
  rewrite !length_app; simpl; rewrite !length_app; simpl;
    rewrite !length_app; simpl; rewrite !length_app; simpl. lia.
Qed.

(** ** What a status update and a webhook leave alone *)

Lemma keeps_restoreQuota {T} (proj : Store → T) env order status order_tickets :
  (∀ f s, proj (with_events f s) = proj s) →
  (∀ f s, proj (with_tickets f s) = proj s) →
  keeps proj (OrdersService.restoreQuota env order status order_tickets).
Proof.
  intros He Ht. unfold OrdersService.restoreQuota, OrdersService.saveEvent.
  apply keeps_bind; [apply keeps_get|]. intros s1.
  apply keeps_bind.
  { destruct (events s1 !! Order.eventId order); [by apply keeps_modify|apply keeps_ret]. }
  intros _. apply keeps_when, keeps_catch; [|intros; apply keeps_ret].
  by apply keeps_batchCancelTickets.
Qed.

Lemma keeps_postPaid {T} (proj : Store → T) env id order order_tickets order_user order_event :
  (∀ f s, proj (with_tickets f s) = proj s) →
  (∀ f s, proj (with_uploads f s) = proj s) →
  (∀ f s, proj (with_outbox f s) = proj s) →
  keeps proj (OrdersService.postPaid env id order order_tickets order_user order_event).
Proof.
  intros Ht Hu Ho. unfold OrdersService.postPaid.
  apply keeps_catch; [|intros; apply keeps_ret].
  apply keeps_bind.
  { destruct order_tickets; [by apply keeps_generateTicketsForOrder|apply keeps_ret]. }
  intros tickets. destruct order_user, order_event; try apply keeps_ret.
  apply keeps_catch; [|intros; apply keeps_ret]. by apply keeps_modify.
Qed.

(** [updateStatus] writes events, orders, tickets, files and mails; users
    and payments are out of its reach. *)
Lemma keeps_updateStatus {T} (proj : Store → T) env id status paymentData :
  (∀ f s, proj (with_events f s) = proj s) →
  (∀ f s, proj (with_orders f s) = proj s) →
  (∀ f s, proj (with_tickets f s) = proj s) →
  (∀ f s, proj (with_uploads f s) = proj s) →
  (∀ f s, proj (with_outbox f s) = proj s) →
  keeps proj (OrdersService.updateStatus env id status paymentData).
Proof.
  intros He Ho Ht Hu Hm. unfold OrdersService.updateStatus.
  apply keeps_bind; [apply keeps_get|]. intros s0.
  destruct (orders s0 !! id) as [order|]; [|apply keeps_throw].
  destruct (bool_decide (Order.status order = status)); [apply keeps_ret|].
  apply keeps_bind; [by apply keeps_when, keeps_restoreQuota|]. intros _.
  apply keeps_bind; [by apply keeps_modify|]. intros _.
  apply keeps_bind; [by apply keeps_when, keeps_postPaid|]. intros _.
  apply keeps_ret.
Qed.

(** The orders and events after [updateStatus], whatever it does: only
    the row of the addressed order can differ, and only the event of that
    order. *)
Lemma updateStatus_elsewhere env id status paymentData (s : Store) :
  let s' := (OrdersService.updateStatus env id status paymentData s).2 in
  (∀ id', id' ≠ id → orders s' !! id' = orders s !! id')
  ∧ (∀ e, (∀ o, orders s !! id = Some o → Order.eventId o ≠ e) →
          events s' !! e = events s !! e).
Proof.
  simpl.
  destruct (orders s !! id) as [order|] eqn:Ho.
  2:{ destruct (updateStatus_not_found env id status paymentData s Ho) as [ex ->].
      by split. }
  destruct (decide (Order.status order = status)) as [<-|Hne].
  { rewrite (updateStatus_same env id paymentData s order Ho). by split. }
  destruct (updateStatus_ledger env id status paymentData s order Ho Hne) as [-> ->].
  split.
  - intros id' Hid. by rewrite lookup_insert_ne.
  - intros e Hev. specialize (Hev order eq_refl).
    destruct (OrdersService.restoresQuota _ _); [|done].
    destruct (events s !! Order.eventId order); [|done].
    by rewrite lookup_insert_ne.
Qed.

(** X3.  Whatever its payload and token, a webhook changes no order other
    than the one its [external_id] names, no payment other than that
    order's, no event other than that order's event, and no user. *)
Theorem processWebhook_elsewhere token env payload callbackToken (s : Store) :
  let id := PaymentWebhook.external_id payload in
  let s' := (PaymentWebhook.processWebhook token env payload callbackToken s).2 in
  (∀ id', id' ≠ id → orders s' !! id' = orders s !! id'
                     ∧ payments s' !! id' = payments s !! id')
  ∧ (∀ e, (∀ o, orders s !! id = Some o → Order.eventId o ≠ e) →
          events s' !! e = events s !! e)
  ∧ users s' = users s.
Proof.
  simpl.
  remember (PaymentWebhook.processWebhook token env payload callbackToken s) as r eqn:Hr.
  assert (Hsame : r.2 = s → 
    (∀ id', id' ≠ PaymentWebhook.external_id payload →
            orders r.2 !! id' = orders s !! id' ∧ payments r.2 !! id' = payments s !! id')
    ∧ (∀ e, (∀ o, orders s !! PaymentWebhook.external_id payload = Some o →
                  Order.eventId o ≠ e) → events r.2 !! e = events s !! e)
    ∧ users r.2 = users s).
  { by intros ->. }
  unfold PaymentWebhook.processWebhook in Hr.
  destruct (negb (bool_decide (callbackToken = token))); [apply Hsame; by subst r|].
  destruct (negb (PaymentWebhook.uuidRegex_test _)); [apply Hsame; by subst r|].
  destruct (PaymentWebhook.newPaymentStatus _) as [ps|]; [|apply Hsame; by subst r].
  unfold bind at 1 in Hr. unfold get at 1 in Hr.
  destruct (orders s !! PaymentWebhook.external_id payload) as [order|] eqn:Ho;
    [|apply Hsame; by subst r].
  clear Hsame. unfold bind at 1 in Hr.
  set (sr := match payments s !! PaymentWebhook.external_id payload with
             | Some payment => _
             | None => ret tt
             end s) in Hr.
  assert (Hsr : sr.1 = Ok tt ∧ orders sr.2 = orders s ∧ events sr.2 = events s
                ∧ users sr.2 = users s
                ∧ ∀ id', id' ≠ PaymentWebhook.external_id payload →
                         payments sr.2 !! id' = payments s !! id').
  { unfold sr. destruct (payments s !! PaymentWebhook.external_id payload); [|done].
    simpl. repeat split; try done. intros id' Hid. by rewrite lookup_insert_ne. }
  destruct sr as [r1 s1]. simpl in Hsr. destruct Hsr as (-> & Ho1 & He1 & Hu1 & Hp1).
  unfold bind at 1 in Hr.
  pose proof (updateStatus_elsewhere env (PaymentWebhook.external_id payload)
                (PaymentWebhook.mapPaymentStatusToOrderStatus ps)
                (Some (OrdersService.mkPaymentData (PaymentWebhook.payment_method payload)
                         (PaymentWebhook.paid_at payload))) s1) as [Hou Heu].
  pose proof (keeps_updateStatus (λ s, (users s, payments s)) env
                (PaymentWebhook.external_id payload)
                (PaymentWebhook.mapPaymentStatusToOrderStatus ps)
                (Some (OrdersService.mkPaymentData (PaymentWebhook.payment_method payload)
                         (PaymentWebhook.paid_at payload)))
                ltac:(done) ltac:(done) ltac:(done) ltac:(done) ltac:(done) s1) as Hk.
  destruct (OrdersService.updateStatus _ _ _ _ s1) as [[o|ex] s2]; simpl in *.
  - injection Hk as Hu2 Hp2.
    pose proof (keeps_when (λ s, (events s, users s, orders s, payments s))
                  (bool_decide (ps = PaymentStatus.PAID))
                  (catch (TicketsService.generateTicketsForOrder env
                            (PaymentWebhook.external_id payload) >> ret tt)
                     (λ e, ret tt))) as Hg.
    specialize (Hg ltac:(apply keeps_catch; [|intros; apply keeps_ret];
                         apply keeps_bind; [|intros; apply keeps_ret];
                         by apply keeps_generateTicketsForOrder) s2).
    rewrite <- Hr in Hg. simpl in Hg.
    injection Hg as He3 Hu3 Ho3 Hp3.
    rewrite He3, Hu3, Ho3, Hp3, Hu2, Hp2.
    repeat split.
    + rewrite Hou by done. by rewrite Ho1.
    + by apply Hp1.
    + intros e Hev. rewrite Heu, He1; [done|]. rewrite Ho1, Ho. exact Hev.
    + done.
  - subst r. simpl. injection Hk as Hu2 Hp2. rewrite Hu2, Hp2.
    repeat split.
    + rewrite Hou by done. by rewrite Ho1.
    + by apply Hp1.
    + intros e Hev. rewrite Heu, He1; [done|]. rewrite Ho1, Ho. exact Hev.
    + done.
Qed.

(** ** The expiry sweep *)

Lemma NoDup_fst_filter {A B} (P : A * B → Prop) `{∀ x, Decision (P x)} (l : list (A * B)) :
  NoDup l.*1 → NoDup (filter P l).*1.
Proof.
  induction l as [|x l IH]; [done|].
  rewrite fmap_cons, NoDup_cons. intros [Hx Hnd].
  destruct (decide (P x)).
  - rewrite filter_cons_True by done. rewrite fmap_cons, NoDup_cons. split; [|auto].
    intros Hin. apply Hx. apply list_elem_of_fmap in Hin as (y & -> & Hy).
    apply list_elem_of_filter in Hy as [_ Hy]. by apply list_elem_of_fmap_2.
  - rewrite filter_cons_False by done. auto.
Qed.

(** One turn of the sweeper's loop on an order that is still pending. *)
Lemma expire_one env (s0 sc : Store) id order :
  orders sc !! id = Some order →
  Order.status order = OrderStatus.PENDING →
  ∃ s1,
    catch
      (OrdersService.updateStatus env id OrderStatus.EXPIRED None >>
       match users s0 !! Order.userId order, events s0 !! Order.eventId order with
       | Some user, Some _ =>
         sendMail (OrderExpiredEmail (User.email user) (Order.orderNumber order))
       | _, _ => ret tt
       end)
      (λ e, ret tt) sc
    = (Ok tt, s1)
    ∧ orders s1 = <[id := Order.set_status OrderStatus.EXPIRED order]> (orders sc).
Proof.
  intros Ho Hp.
  assert (Hne : Order.status order ≠ OrderStatus.EXPIRED) by (by rewrite Hp).
  pose proof (updateStatus_changed env id OrderStatus.EXPIRED None sc order Ho Hne) as Hrun.
  pose proof (updateStatus_ledger env id OrderStatus.EXPIRED None sc order Ho Hne) as [Hos _].
  simpl in Hrun. rewrite Hrun in Hos. simpl in Hos.
  unfold catch, bind. rewrite Hrun.
  destruct (users s0 !! Order.userId order), (events s0 !! Order.eventId order);
    eexists; (split; [reflexivity|]); simpl; exact Hos.
Qed.

Lemma expire_all env (s0 : Store) (l : list (string * Order.t)) :
  ∀ sc,
    NoDup l.*1 →
    (∀ id o, (id, o) ∈ l → orders sc !! id = Some o ∧ Order.status o = OrderStatus.PENDING) →
    ∃ r s',
      forM (λ '(order_id, order),
              catch
                (OrdersService.updateStatus env order_id OrderStatus.EXPIRED None >>
                 match users s0 !! Order.userId order, events s0 !! Order.eventId order with
                 | Some user, Some _ =>
                   sendMail (OrderExpiredEmail (User.email user) (Order.orderNumber order))
                 | _, _ => ret tt
                 end)
                (λ e, ret tt)) l sc
      = (Ok r, s')
      ∧ ∀ id', orders s' !! id'
               = if decide (id' ∈ l.*1)
                 then Order.set_status OrderStatus.EXPIRED <$> orders sc !! id'
                 else orders sc !! id'.
Proof.
  induction l as [|[id o] l IH]; intros sc Hnd Hin.
  - exists [], sc. split; [reflexivity|]. intros id'. rewrite decide_False; [done|].
    apply not_elem_of_nil.
  - rewrite fmap_cons, NoDup_cons in Hnd. destruct Hnd as [Hid Hnd]. simpl in Hid.
    destruct (Hin id o ltac:(left)) as [Ho Hp].
    destruct (expire_one env s0 sc id o Ho Hp) as (s1 & Hrun & Hos).
    destruct (IH s1 Hnd) as (r & s' & Hrest & Hlook).
    { intros id2 o2 Hin2. destruct (Hin id2 o2 ltac:(by right)) as [Ho2 Hp2].
      split; [|done]. rewrite Hos, lookup_insert_ne; [done|].
      intros ->. apply Hid. by apply (list_elem_of_fmap_2 fst _ (id2, o2)). }
    exists (tt :: r), s'. split.
    { cbn [forM]. unfold bind at 1. rewrite Hrun. unfold bind at 1. rewrite Hrest.
      reflexivity. }
    intros id'. rewrite Hlook, Hos. rewrite fmap_cons. simpl.
    destruct (decide (id' = id)) as [->|Hne].
    + rewrite decide_False by done. rewrite decide_True by left.
      by rewrite lookup_insert_eq, Ho.
    + rewrite lookup_insert_ne by done.
      destruct (decide (id' ∈ l.*1)).
      * rewrite decide_True by (by right). done.
      * rewrite decide_False; [done|]. intros Hc. apply elem_of_cons in Hc as [?|?]; done.
Qed.

(** X4.  The sweep completes and reports how many orders it selected;
    afterwards every order that was pending with its deadline before the
    sweep's clock is expired, with no other column changed, and every
    other order is as it was.  A second sweep at the same clock selects
    nothing and changes nothing. *)
Theorem expireOrders_effect env (s : Store) :
  ∃ s',
    OrdersService.expireOrders env s
    = (Ok (length (OrdersService.expiredOrders env s)), s')
    ∧ (∀ id, orders s' !! id = sweepOrder env <$> orders s !! id)
    ∧ OrdersService.expireOrders env s' = (Ok 0%nat, s').
Proof.
  destruct (expire_all env s (OrdersService.expiredOrders env s) s) as (r & s' & Hrun & Hlook).
  { unfold OrdersService.expiredOrders. apply NoDup_fst_filter, NoDup_fst_map_to_list. }
  { intros id o Hin. unfold OrdersService.expiredOrders in Hin.
    apply list_elem_of_filter in Hin as [[Hp _] Hin]. simpl in Hp.
    by apply elem_of_map_to_list in Hin. }
  assert (Hsweep : ∀ id, orders s' !! id = sweepOrder env <$> orders s !! id).
  { intros id. rewrite Hlook. unfold sweepOrder.
    destruct (orders s !! id) as [o|] eqn:Ho.
    - simpl. destruct (decide (overdue env o)) as [Hov|Hnov].
      + rewrite decide_True; [done|].
        apply (list_elem_of_fmap_2 fst _ (id, o)).
        unfold OrdersService.expiredOrders. apply list_elem_of_filter. split; [exact Hov|].
        by apply elem_of_map_to_list.
      + rewrite decide_False; [done|]. intros Hin.
        apply list_elem_of_fmap in Hin as ([id2 o2] & Heq & Hin). simpl in Heq. subst id2.
        unfold OrdersService.expiredOrders in Hin.
        apply list_elem_of_filter in Hin as [Hov Hin].
        apply elem_of_map_to_list in Hin. simpl in Hov.
        assert (o2 = o) as -> by congruence. done.
    - simpl. by destruct (decide _). }
  exists s'. split; [|split; [exact Hsweep|]].
  - unfold OrdersService.expireOrders. unfold bind at 1. unfold get at 1.
    unfold bind at 1. rewrite Hrun. reflexivity.
  - assert (Hnone : OrdersService.expiredOrders env s' = []).
    { destruct (OrdersService.expiredOrders env s') as [|[id o'] l] eqn:Hl; [done|].
      assert (Hin : (id, o') ∈ OrdersService.expiredOrders env s') by (rewrite Hl; left).
      unfold OrdersService.expiredOrders in Hin.
      apply list_elem_of_filter in Hin as [[Hp Hd] Hin]. simpl in Hp, Hd.
      apply elem_of_map_to_list in Hin. rewrite Hsweep in Hin.
      destruct (orders s !! id) as [o|]; [|discriminate]. simpl in Hin.
      injection Hin as <-. unfold sweepOrder in Hp, Hd.
      destruct (decide (overdue env o)) as [Hov|Hnov]; [discriminate|].
      exfalso. by apply Hnov. }
    unfold OrdersService.expireOrders. unfold bind at 1. unfold get at 1.
    rewrite Hnone. reflexivity.
Qed.

(** ** Exact accounting of the quota *)

Lemma keeps_preserves_accounted e c {A} (m : M A) :
  keeps (λ s, (events s, orders s)) m → preserves (accounted e c) m.
Proof.
  intros Hk s Hs. specialize (Hk s). injection Hk as He Ho.
  unfold accounted in *. by rewrite He, Ho.
Qed.

(** Cancelling or expiring an order moves its quantity from the held part
    to the counter, or moves nothing. *)
Lemma updateStatus_preserves_accounted e c env id status paymentData :
  status = OrderStatus.CANCELLED ∨ status = OrderStatus.EXPIRED →
  preserves (accounted e c) (OrdersService.updateStatus env id status paymentData).
Proof.
  intros Hst s (ev & Hev & Hsum).
  destruct (orders s !! id) as [order|] eqn:Ho.
  2:{ destruct (updateStatus_not_found env id status paymentData s Ho) as [ex ->].
      by exists ev. }
  destruct (decide (Order.status order = status)) as [<-|Hne].
  { rewrite (updateStatus_same env id paymentData s order Ho). by exists ev. }
  destruct (updateStatus_ledger env id status paymentData s order Ho Hne) as [Hos Hes].
  unfold accounted. rewrite Hos, Hes, (held_insert_over e (orders s) id order _ Ho).
  assert (Hz : hold e (Order.set_status status order) = 0).
  { unfold hold. change (Order.status (Order.set_status status order)) with status.
    destruct (decide _); [|done]. by destruct Hst as [-> | ->]. }
  rewrite Hz.
  assert (Hr : OrdersService.restoresQuota status (Order.status order)
               = prePayment (Order.status order)).
  { unfold OrdersService.restoresQuota, prePayment. by destruct Hst as [-> | ->]. }
  rewrite Hr. unfold hold.
  destruct (decide (Order.eventId order = e)) as [Heq|Hneq].
  - destruct (prePayment (Order.status order)).
    + rewrite Heq, Hev. eexists. split; [apply lookup_insert_eq|]. simpl. lia.
    + exists ev. split; [done|lia].
  - exists ev. split; [|lia].
    destruct (prePayment (Order.status order)); [|done].
    destruct (events s !! Order.eventId order); [|done]. by rewrite lookup_insert_ne.
Qed.

Ltac account_step :=
  first
    [ apply updateStatus_preserves_accounted; auto
    | apply preserves_ret | apply preserves_throw | apply preserves_get
    | apply keeps_preserves_accounted; by apply keeps_modify
    | apply preserves_when
    | apply preserves_bind; [|intros ?]
    | apply preserves_catch; [|intros ?]
    | match goal with
      | |- preserves _ (match ?x with _ => _ end) => destruct x
      end ].

Lemma step_preserves_accounted e c token op :
  opNeutral op → preserves (accounted e c) (λ s, (Ok tt, step token s op)).
Proof.
  intros Hop s Hacc. simpl.
  destruct op as [env userId dto|env id userId|env payload callbackToken|env]; simpl.
  - (* create: the quantity moves from the counter to the held part *)
    destruct (create_ledger env userId dto s)
      as [[He Ho]|(event & Hev & Hq & Hfresh & He & Ho)].
    { unfold accounted in *. by rewrite He, Ho. }
    destruct Hacc as (ev & Hlook & Hsum). unfold accounted.
    rewrite He, Ho, held_insert_new by done. unfold hold. simpl.
    destruct (decide (OrdersService.eventId dto = e)) as [Heq|Hneq].
    + rewrite Heq in Hev. rewrite Heq. assert (event = ev) as -> by congruence.
      eexists. split; [apply lookup_insert_eq|]. simpl. lia.
    + exists ev. split; [by rewrite lookup_insert_ne|lia].
  - revert s Hacc. unfold OrdersService.cancel. repeat account_step.
  - revert s Hacc. unfold PaymentWebhook.processWebhook.
    destruct (negb (bool_decide (callbackToken = token))); [apply preserves_throw|].
    destruct (negb (PaymentWebhook.uuidRegex_test _)); [apply preserves_ret|].
    destruct (PaymentWebhook.newPaymentStatus (PaymentWebhook.status payload))
      as [ps|] eqn:Hps; [|apply preserves_ret].
    assert (ps = PaymentStatus.EXPIRED) as ->.
    { unfold PaymentWebhook.newPaymentStatus in Hps. destruct Hop.
      repeat case_decide; simplify_eq; done. }
    apply preserves_bind; [apply preserves_get|]. intros s0.
    destruct (orders s0 !! PaymentWebhook.external_id payload); [|apply preserves_ret].
    apply preserves_bind.
    { destruct (payments s0 !! PaymentWebhook.external_id payload); [|apply preserves_ret].
      apply keeps_preserves_accounted. by apply keeps_modify. }
    intros _. apply preserves_bind.
    { apply updateStatus_preserves_accounted. by right. }
    intros _. apply preserves_ret.
  - revert s Hacc. unfold OrdersService.expireOrders.
    apply preserves_bind; [apply preserves_get|]. intros s0.
    apply preserves_bind; [|intros; apply preserves_ret].
    apply preserves_forM. intros [order_id order]. repeat account_step.
Qed.

(** X5.  Over any sequence of creations, cancellations, expiry sweeps and
    webhooks other than PAID and PENDING, the quota of an event is
    accounted for exactly: the counter plus the quantities held by the
    event's pending and awaiting_payment orders stays what it was.  What a
    creation takes from the counter is held by its order, and what a
    cancellation or expiry releases goes back to the counter in full. *)
Theorem quota_accounted token e event0 (s0 : Store) ops :
  events s0 !! e = Some event0 →
  Forall opNeutral ops →
  ∃ event,
    events (run token ops s0) !! e = Some event
    ∧ Event.quota event + held e (orders (run token ops s0))
      = Event.quota event0 + held e (orders s0).
Proof.
  intros Hev Hops.
  assert (Hgen : ∀ s, accounted e (Event.quota event0 + held e (orders s0)) s →
                      accounted e (Event.quota event0 + held e (orders s0))
                        (run token ops s)).
  { unfold run. induction ops as [|op ops IH]; intros s Hacc; simpl; [done|].
    apply Forall_cons in Hops as [Hop Hops]. apply IH; [done|].
    by apply (step_preserves_accounted e _ token op Hop s). }
  apply Hgen. by exists event0.
Qed.

Lemma quota_accounted_witness :
  ∃ event,
    events (run Demo.token demoOps Demo.store0) !! Demo.gala = Some event
    ∧ Event.quota event + held Demo.gala (orders (run Demo.token demoOps Demo.store0))
      = 10 + held Demo.gala (orders Demo.store0).
Proof.
  apply (quota_accounted Demo.token Demo.gala
           (Event.mk "Gala" (Some "Hall") (Some "published") (Some 5000) 100 10)
           Demo.store0 demoOps).
  - vm_compute. reflexivity.
  - unfold demoOps. repeat constructor; simpl; discriminate.
Defined.

(** ** What the operations on orders leave of an order *)

(** The operations other than [create] touch the events and the orders
    through [updateStatus] only. *)
Section OrderSteps.
Context (P : Store → Prop).
Hypothesis P_ledger :
  ∀ s s', events s' = events s → orders s' = orders s → P s → P s'.
Hypothesis P_updateStatus :
  ∀ env id status paymentData,
    preserves P (OrdersService.updateStatus env id status paymentData).

Lemma keeps_preserves {A} (m : M A) :
  keeps (λ s, (events s, orders s)) m → preserves P m.
Proof.
  intros Hk s Hs. specialize (Hk s). injection Hk as He Ho.
  by apply (P_ledger s).
Qed.

Ltac order_step :=
  first
    [ apply P_updateStatus
    | apply preserves_ret | apply preserves_throw | apply preserves_get
    | apply keeps_preserves; by apply keeps_modify
    | apply preserves_when
    | apply preserves_bind; [|intros ?]
    | apply preserves_catch; [|intros ?]
    | match goal with
      | |- preserves _ (match ?x with _ => _ end) => destruct x
      end ].

Lemma cancel_preserves env id userId :
  preserves P (OrdersService.cancel env id userId).
Proof. unfold OrdersService.cancel. repeat order_step. Qed.

Lemma expireOrders_preserves env :
  preserves P (OrdersService.expireOrders env).
Proof.
  unfold OrdersService.expireOrders.
  apply preserves_bind; [apply preserves_get|]. intros s0.
  apply preserves_bind; [|intros; apply preserves_ret].
  apply preserves_forM. intros [order_id order]. repeat order_step.
Qed.

Lemma processWebhook_preserves token env payload callbackToken :
  preserves P (PaymentWebhook.processWebhook token env payload callbackToken).
Proof.
  unfold PaymentWebhook.processWebhook.
  destruct (negb (bool_decide (callbackToken = token))); [apply preserves_throw|].
  destruct (negb (PaymentWebhook.uuidRegex_test _)); [apply preserves_ret|].
  destruct (PaymentWebhook.newPaymentStatus (PaymentWebhook.status payload)) as [ps|];
    [|apply preserves_ret].
  apply preserves_bind; [apply preserves_get|]. intros s0.
  destruct (orders s0 !! PaymentWebhook.external_id payload); [|apply preserves_ret].
  apply preserves_bind.
  { destruct (payments s0 !! PaymentWebhook.external_id payload); [|apply preserves_ret].
    apply keeps_preserves. by apply keeps_modify. }
  intros _. apply preserves_bind; [apply P_updateStatus|].
  intros _. apply preserves_when, preserves_catch; [|intros; apply preserves_ret].
  apply preserves_bind; [|intros; apply preserves_ret].
  apply keeps_preserves. by apply keeps_generateTicketsForOrder.
Qed.

End OrderSteps.

Lemma set_status_twice st st' (o : Order.t) :
  Order.set_status st' (Order.set_status st o) = Order.set_status st' o.
Proof. reflexivity. Qed.

(** [updateStatus] rewrites the status of one order and nothing else of
    any order. *)
Lemma updateStatus_keeps_order id order env id' status paymentData :
  preserves (λ s, ∃ st, orders s !! id = Some (Order.set_status st order))
    (OrdersService.updateStatus env id' status paymentData).
Proof.
  intros s [st Hs].
  destruct (orders s !! id') as [o'|] eqn:Ho'.
  2:{ destruct (updateStatus_not_found env id' status paymentData s Ho') as [ex ->].
      by exists st. }
  destruct (decide (Order.status o' = status)) as [<-|Hne].
  { rewrite (updateStatus_same env id' paymentData s o' Ho'). by exists st. }
  destruct (updateStatus_ledger env id' status paymentData s o' Ho' Hne) as [-> _].
  destruct (decide (id' = id)) as [->|Hid].
  - rewrite lookup_insert_eq. exists status.
    assert (o' = Order.set_status st order) as -> by congruence. reflexivity.
  - rewrite lookup_insert_ne by done. by exists st.
Qed.

(** X6.  No operation on orders deletes an order or rewrites anything of
    it but its status: after any sequence of creations, cancellations,
    webhooks and expiry sweeps, an order of the initial store is still
    filed under its id, with the order number, invoice number, owner,
    event, quantity, prices and deadline it had. *)
Theorem orders_persist token (s0 : Store) ops id order :
  orders s0 !! id = Some order →
  ∃ status,
    orders (run token ops s0) !! id = Some (Order.set_status status order).
Proof.
  intros Ho.
  set (P := λ s : Store, ∃ st, orders s !! id = Some (Order.set_status st order)).
  assert (HP : ∀ s s', events s' = events s → orders s' = orders s → P s → P s').
  { intros s s' _ Hos [st Hs]. exists st. by rewrite Hos. }
  assert (Hstep : ∀ op s, P s → P (step token s op)).
  { intros [env userId dto|env id' userId|env payload callbackToken|env] s Hs; simpl.
    - destruct (create_ledger env userId dto s)
        as [[He Hos]|(event & _ & _ & Hfresh & _ & Hos)].
      + by apply (HP s).
      + destruct Hs as [st Hs]. exists st. rewrite Hos.
        rewrite lookup_insert_ne; [done|]. intros <-. by rewrite Hfresh in Hs.
    - apply (cancel_preserves P HP); [|done].
      intros. apply updateStatus_keeps_order.
    - apply (processWebhook_preserves P HP); [|done].
      intros. apply updateStatus_keeps_order.
    - apply (expireOrders_preserves P HP); [|done].
      intros. apply updateStatus_keeps_order. }
  assert (Hrun : ∀ s, P s → P (run token ops s)).
  { unfold run. induction ops as [|op ops IH]; intros s Hs; simpl; [done|].
    by apply IH, Hstep. }
  apply Hrun. exists (Order.status order). rewrite Ho. by destruct order.
Qed.

Lemma orders_persist_witness :
  ∃ status,
    orders (run Demo.token demoOps Demo.store1) !! Demo.order1
    = Some (Order.set_status status
              (Order.mk "ORD-20250101-0001" "INV-20250101-0001" Demo.alice Demo.gala 3
                 100 300 OrderStatus.PENDING 3601000)).
Proof.
  apply (orders_persist Demo.token Demo.store1 demoOps Demo.order1).
  vm_compute. reflexivity.
Defined.

(** ** Cancelling an order *)

Lemma cancel_run env id (s : Store) order :
  orders s !! id = Some order →
  prePayment (Order.status order) = true →
  Payment.status <$> payments s !! id ≠ Some PaymentStatus.PAID →
  OrdersService.cancel env id (Order.userId order) s
  = (Ok "Order cancelled successfully", cancelled env id order s).
Proof.
  intros Ho Hpre Hpay.
  assert (Hne : Order.status order ≠ OrderStatus.CANCELLED).
  { intros H. by rewrite H in Hpre. }
  pose proof (updateStatus_changed env id OrderStatus.CANCELLED None s order Ho Hne) as Hupd.
  cbv zeta in Hupd.
  assert (Hr : OrdersService.restoresQuota OrderStatus.CANCELLED (Order.status order) = true).
  { exact Hpre. }
  rewrite Hr in Hupd.
  rewrite (bool_decide_eq_false_2 (OrderStatus.CANCELLED = OrderStatus.PAID)) in Hupd by done.
  unfold OrdersService.cancel. unfold bind at 1, get at 1. rewrite Ho.
  rewrite (bool_decide_eq_true_2 (Order.userId order = Order.userId order)) by done.
  change (negb true) with false. cbv iota.
  assert (Hc : negb (bool_decide (Order.status order = OrderStatus.PENDING))
               && negb (bool_decide (Order.status order = OrderStatus.AWAITING_PAYMENT))
               = false).
  { unfold prePayment in Hpre. destruct (bool_decide (_ = OrderStatus.PENDING)); [done|].
    simpl in *. by rewrite Hpre. }
  rewrite Hc.
  assert (Hp : match payments s !! id with
               | Some payment => bool_decide (Payment.status payment = PaymentStatus.PAID)
               | None => false
               end = false).
  { destruct (payments s !! id) as [p|]; [|done].
    apply bool_decide_eq_false_2. intros H. apply Hpay. simpl. by rewrite H. }
  rewrite Hp. unfold bind at 1. rewrite Hupd. unfold cancelled.
  destruct (users s !! Order.userId order), (events s !! Order.eventId order); reflexivity.
Qed.

Lemma restored_tickets env order status (s : Store) id :
  Forall (λ k, Ticket.orderId k = id → Ticket.status k = TicketStatus.CANCELLED)
    (tickets (restored env order status (TicketsService.findByOrder id (tickets s)) s)).
Proof.
  unfold restored.
  assert (Hin : ∀ k : Ticket.t, k ∈ tickets s → Ticket.orderId k = id →
                  k ∈ TicketsService.findByOrder id (tickets s)).
  { intros k Hk Hid. unfold TicketsService.findByOrder. by apply list_elem_of_filter. }
  apply Forall_forall. intros k Hk Hid.
  destruct (TicketsService.findByOrder id (tickets s)) as [|k0 l] eqn:Hf.
  - assert (Hk' : k ∈ tickets s) by (by destruct (events s !! Order.eventId order)).
    specialize (Hin k Hk' Hid). by apply elem_of_nil in Hin.
  - assert (Hk' : k ∈ (λ r, if bool_decide (Ticket.id r ∈ Ticket.id <$> k0 :: l)
                            then Ticket.cancel (now env) ("Order " +:+ OrderStatus.show status) r
                            else r) <$> tickets s)
      by (by destruct (events s !! Order.eventId order)).
    apply list_elem_of_fmap in Hk' as (r & -> & Hr).
    case_bool_decide as Hmem; [done|].
    destruct Hmem. apply list_elem_of_fmap. exists r. split; [done|]. by apply Hin.
Qed.

(** X7.  The owner cancels an order that is pending or awaiting payment
    and whose payment, if any, is not paid: the call succeeds, the order
    is filed as cancelled, its quantity is added back to the quota of its
    event, the payment row stays as it is, every ticket of the order is
    cancelled, and a second cancellation by the owner is refused with the
    store unchanged. *)
Theorem cancel_effect env id (s : Store) order :
  orders s !! id = Some order →
  prePayment (Order.status order) = true →
  Payment.status <$> payments s !! id ≠ Some PaymentStatus.PAID →
  ∃ s',
    OrdersService.cancel env id (Order.userId order) s
    = (Ok "Order cancelled successfully", s')
    ∧ orders s' = <[id := Order.set_status OrderStatus.CANCELLED order]> (orders s)
    ∧ events s'
      = match events s !! Order.eventId order with
        | Some event =>
          <[Order.eventId order :=
              Event.set_quota (Event.quota event + Order.quantity order) event]> (events s)
        | None => events s
        end
    ∧ payments s' = payments s
    ∧ Forall (λ k, Ticket.orderId k = id → Ticket.status k = TicketStatus.CANCELLED)
        (tickets s')
    ∧ ∀ env2,
        OrdersService.cancel env2 id (Order.userId order) s'
        = (Throw (BadRequestException "Cannot cancel order with status 'cancelled'"), s').
Proof.
  intros Ho Hpre Hpay. exists (cancelled env id order s).
  split; [by apply cancel_run|].
  set (order' := Order.set_status OrderStatus.CANCELLED order).
  set (tk := TicketsService.findByOrder id (tickets s)).
  destruct (restored_ledger env order' OrderStatus.CANCELLED tk s) as [Hro Hre].
  assert (Hrp : payments (restored env order' OrderStatus.CANCELLED tk s) = payments s).
  { unfold restored. by destruct (events s !! Order.eventId order'), tk. }
  pose proof (restored_tickets env order' OrderStatus.CANCELLED s id) as Hrt.
  assert (Hproj :
    orders (cancelled env id order s) = <[id := order']> (orders s)
    ∧ events (cancelled env id order s)
      = events (restored env order' OrderStatus.CANCELLED tk s)
    ∧ payments (cancelled env id order s) = payments s
    ∧ tickets (cancelled env id order s)
      = tickets (restored env order' OrderStatus.CANCELLED tk s)).
  { unfold cancelled. fold order' tk.
    destruct (users s !! Order.userId order), (events s !! Order.eventId order);
      simpl; rewrite ?Hro, ?Hrp; done. }
  destruct Hproj as (Hos & Hes & Hps & Hts).
  split; [done|]. split; [by rewrite Hes, Hre|]. split; [done|].
  split; [by rewrite Hts|].
  intros env2. unfold OrdersService.cancel. unfold bind at 1, get at 1.
  rewrite Hos, lookup_insert_eq.
  change (Order.userId order') with (Order.userId order).
  rewrite (bool_decide_eq_true_2 (Order.userId order = Order.userId order)) by done.
  reflexivity.
Qed.

Lemma cancel_effect_witness :
  ∃ s',
    OrdersService.cancel Demo.env0 Demo.order1 Demo.alice Demo.store1
    = (Ok "Order cancelled successfully", s')
    ∧ Order.status <$> orders s' !! Demo.order1 = Some OrderStatus.CANCELLED
    ∧ Event.quota <$> events s' !! Demo.gala = Some 10.
Proof.
  destruct (cancel_effect Demo.env0 Demo.order1 Demo.store1
              (Order.mk "ORD-20250101-0001" "INV-20250101-0001" Demo.alice Demo.gala 3
                 100 300 OrderStatus.PENDING 3601000))
    as (s' & Hrun & Hos & Hes & _); [vm_compute; reflexivity..| |].
  - vm_compute. discriminate.
  - exists s'. split; [exact Hrun|]. split.
    + rewrite Hos, lookup_insert_eq. reflexivity.
    + rewrite Hes. vm_compute. reflexivity.
Defined.

(** ** Creating an order *)

Lemma PaymentService_create_new env orderId userId (s : Store) order invoice :
  orders s !! orderId = Some order →
  payments s !! orderId = None →
  gateway env = Some invoice →
  PaymentService.create env orderId userId s
  = (Ok (newPayment env order invoice),
     with_payments (insert orderId (newPayment env order invoice)) s).
Proof.
  intros Ho Hp Hg. unfold PaymentService.create, PaymentService.createInvoice.
  unfold bind at 1, get at 1. rewrite Ho, Hp, Hg. reflexivity.
Qed.

Lemma create_run env userId dto (s : Store) event invoice :
  events s !! OrdersService.eventId dto = Some event →
  bookable env event dto →
  orders s !! newOrderId env = None →
  payments s !! newOrderId env = None →
  gateway env = Some invoice →
  OrdersService.create env userId dto s
  = (Ok (newOrderId env, newOrder env userId dto event,
         newPayment env (newOrder env userId dto event) invoice),
     created env userId dto event invoice s).
Proof.
  intros Hev (Hpub & Hstart & Hq) Hfresh Hnopay Hg.
  unfold OrdersService.create. unfold bind at 1, get at 1. rewrite Hev.
  rewrite (bool_decide_eq_true_2 _ Hpub). change (negb true) with false. cbv iota.
  assert (Hst : match Event.startTime event with
                | Some t => bool_decide (t < now env)
                | None => false
                end = false).
  { destruct (Event.startTime event) as [t|] eqn:Ht; [|done].
    apply bool_decide_eq_false_2. specialize (Hstart t eq_refl). lia. }
  rewrite Hst. rewrite bool_decide_eq_false_2 by lia.
  unfold OrdersService.insertOrder.
  unfold bind at 1. unfold bind at 1, get at 1. rewrite Hfresh.
  unfold bind at 1, modify at 1, ret at 1. cbn [fst snd].
  fold (newOrder env userId dto event).
  unfold bind at 1, OrdersService.saveEvent at 1, modify at 1.
  unfold bind at 1, catch at 1.
  set (order := newOrder env userId dto event).
  set (sa := with_events _ (with_orders _ s)).
  rewrite (PaymentService_create_new env (newOrderId env) userId sa order invoice);
    [| by apply lookup_insert_eq | done | done].
  unfold bind at 1, get at 1.
  assert (Hu : orders (with_payments (insert (newOrderId env) (newPayment env order invoice)) sa)
               !! newOrderId env ≫= (λ o, users (with_payments (insert (newOrderId env)
                    (newPayment env order invoice)) sa) !! Order.userId o)
               = users s !! userId).
  { simpl. by rewrite lookup_insert_eq. }
  rewrite Hu. unfold created. fold order.
  destruct (users s !! userId); reflexivity.
Qed.

(** X8.  An order is created for a bookable event under a fresh id while
    the gateway answers: the call returns the pending order, with the
    total and the deadline the runtime computes (a product of doubles, an
    hour later on the local clock), and its pending payment, and the
    quantity is off the quota.  The owner then cancels: the events are
    exactly what they were before the order, the order stays filed as
    cancelled and its payment row stays pending.  Asking for a payment of
    the created order instead is refused, since [create] already filed
    one. *)
Theorem create_then_cancel env env2 userId dto (s : Store) event invoice :
  events s !! OrdersService.eventId dto = Some event →
  bookable env event dto →
  orders s !! newOrderId env = None →
  payments s !! newOrderId env = None →
  gateway env = Some invoice →
  let id := newOrderId env in
  let order := newOrder env userId dto event in
  let payment := newPayment env order invoice in
  ∃ s1 s2,
    OrdersService.create env userId dto s = (Ok (id, order, payment), s1)
    ∧ events s1 !! OrdersService.eventId dto
      = Some (Event.set_quota (Event.quota event - OrdersService.quantity dto) event)
    ∧ OrdersService.cancel env2 id userId s1 = (Ok "Order cancelled successfully", s2)
    ∧ events s2 = events s
    ∧ orders s2 = <[id := Order.set_status OrderStatus.CANCELLED order]> (orders s)
    ∧ payments s2 = <[id := payment]> (payments s)
    ∧ OrdersService.createPaymentForOrder env2 id userId s1
      = (Throw (BadRequestException "Payment already exists for this order"), s1).
Proof.
  intros Hev Hbook Hfresh Hnopay Hg id order payment.
  set (s1 := created env userId dto event invoice s).
  assert (Hproj :
    events s1
    = <[OrdersService.eventId dto :=
          Event.set_quota (Event.quota event - OrdersService.quantity dto) event]> (events s)
    ∧ orders s1 = <[id := order]> (orders s)
    ∧ payments s1 = <[id := payment]> (payments s)).
  { unfold s1, created. by destruct (users s !! userId). }
  destruct Hproj as (He1 & Ho1 & Hp1).
  assert (Hlook : orders s1 !! id = Some order) by (rewrite Ho1; apply lookup_insert_eq).
  assert (Hplook : payments s1 !! id = Some payment) by (rewrite Hp1; apply lookup_insert_eq).
  exists s1, (cancelled env2 id order s1).
  split; [by apply create_run|].
  split; [rewrite He1; apply lookup_insert_eq|].
  split.
  { apply (cancel_run env2 id s1 order Hlook eq_refl). rewrite Hplook. discriminate. }
  set (order' := Order.set_status OrderStatus.CANCELLED order).
  set (tk := TicketsService.findByOrder id (tickets s1)).
  destruct (restored_ledger env2 order' OrderStatus.CANCELLED tk s1) as [Hro Hre].
  assert (Hrp : payments (restored env2 order' OrderStatus.CANCELLED tk s1) = payments s1).
  { unfold restored. by destruct (events s1 !! Order.eventId order'), tk. }
  assert (Hproj :
    orders (cancelled env2 id order s1) = <[id := order']> (orders s1)
    ∧ events (cancelled env2 id order s1)
      = events (restored env2 order' OrderStatus.CANCELLED tk s1)
    ∧ payments (cancelled env2 id order s1) = payments s1).
  { unfold cancelled. fold order' tk.
    destruct (users s1 !! Order.userId order), (events s1 !! Order.eventId order);
      simpl; rewrite ?Hro, ?Hrp; done. }
  destruct Hproj as (Hos & Hes & Hps).
  split.
  { rewrite Hes, Hre. change (Order.eventId order') with (OrdersService.eventId dto).
    rewrite He1, lookup_insert_eq, insert_insert_eq.
    change (Order.quantity order') with (OrdersService.quantity dto).
    rewrite (set_quota_back event (OrdersService.quantity dto) : Event.set_quota
      (Event.quota (Event.set_quota (Event.quota event - OrdersService.quantity dto) event)
       + OrdersService.quantity dto)
      (Event.set_quota (Event.quota event - OrdersService.quantity dto) event) = event).
    by apply insert_id. }
  split; [by rewrite Hos, Ho1, insert_insert_eq|].
  split; [by rewrite Hps|].
  unfold OrdersService.createPaymentForOrder. unfold bind at 1, get at 1.
  rewrite Hlook, Hplook.
  change (Order.userId order) with userId.
  rewrite (bool_decide_eq_true_2 (userId = userId)) by done. reflexivity.
Qed.

Lemma create_then_cancel_witness :
  ∃ s1 s2 order payment,
    OrdersService.create Demo.env0 Demo.alice
      (OrdersService.mkCreateOrderDto Demo.gala 3) Demo.store0
    = (Ok (Demo.order1, order, payment), s1)
    ∧ OrdersService.cancel (Demo.at_time 2000 Demo.env0) Demo.order1 Demo.alice s1
      = (Ok "Order cancelled successfully", s2)
    ∧ events s2 = events Demo.store0.
Proof.
  destruct (create_then_cancel Demo.env0 (Demo.at_time 2000 Demo.env0) Demo.alice
              (OrdersService.mkCreateOrderDto Demo.gala 3) Demo.store0
              (Event.mk "Gala" (Some "Hall") (Some "published") (Some 5000) 100 10)
              (mkInvoice "inv-1" (Some "https://pay/inv-1") (Some 4600000)))
    as (s1 & s2 & H1 & _ & H2 & H3 & _).
  - vm_compute. reflexivity.
  - split; [reflexivity|]. split; [|simpl; lia].
    intros t [= <-]. simpl. lia.
  - reflexivity.
  - reflexivity.
  - reflexivity.
  - eexists s1, s2, _, _. split; [exact H1|]. split; [exact H2|exact H3].
Defined.

(** ** Asking for the payment of an order *)

(** X9.  The owner asks for the payment of a pending order that has none
    while the gateway answers: the payment is filed as pending for the
    order's total, the order awaits its payment, no quota moves, and the
    same request made again is refused with the store unchanged. *)
Theorem createPaymentForOrder_effect env id (s : Store) order invoice :
  orders s !! id = Some order →
  Order.status order = OrderStatus.PENDING →
  payments s !! id = None →
  gateway env = Some invoice →
  ∃ s',
    OrdersService.createPaymentForOrder env id (Order.userId order) s
    = (Ok (newPayment env order invoice), s')
    ∧ orders s' = <[id := Order.set_status OrderStatus.AWAITING_PAYMENT order]> (orders s)
    ∧ payments s' = <[id := newPayment env order invoice]> (payments s)
    ∧ events s' = events s
    ∧ tickets s' = tickets s
    ∧ ∀ env2,
        OrdersService.createPaymentForOrder env2 id (Order.userId order) s'
        = (Throw (BadRequestException "Order cannot be paid in current status"), s').
Proof.
  intros Ho Hst Hp Hg.
  set (payment := newPayment env order invoice).
  set (s1 := with_payments (insert id payment) s).
  assert (Hne : Order.status order ≠ OrderStatus.AWAITING_PAYMENT) by (by rewrite Hst).
  pose proof (updateStatus_changed env id OrderStatus.AWAITING_PAYMENT None s1 order Ho Hne)
    as Hupd.
  cbv zeta in Hupd.
  assert (Hr : OrdersService.restoresQuota OrderStatus.AWAITING_PAYMENT (Order.status order)
               = false) by done.
  rewrite Hr in Hupd.
  rewrite (bool_decide_eq_false_2 (OrderStatus.AWAITING_PAYMENT = OrderStatus.PAID))
    in Hupd by done.
  eexists. split.
  { unfold OrdersService.createPaymentForOrder. unfold bind at 1, get at 1.
    rewrite Ho, Hst, Hp.
    rewrite (bool_decide_eq_true_2 (Order.userId order = Order.userId order)) by done.
    change (negb true) with false. cbv iota.
    rewrite (bool_decide_eq_true_2 (OrderStatus.PENDING = OrderStatus.PENDING)) by done.
    change (negb true) with false. cbv iota.
    unfold bind at 1.
    rewrite (PaymentService_create_new env id (Order.userId order) s order invoice Ho Hp Hg).
    fold payment s1. unfold bind at 1. rewrite Hupd. reflexivity. }
  repeat split; try done.
  intros env2. unfold OrdersService.createPaymentForOrder. unfold bind at 1, get at 1.
  cbn [orders with_orders]. rewrite lookup_insert_eq.
  change (Order.userId (Order.set_status _ order)) with (Order.userId order).
  rewrite (bool_decide_eq_true_2 (Order.userId order = Order.userId order)) by done.
  reflexivity.
Qed.

Lemma createPaymentForOrder_effect_witness :
  ∃ payment s',
    OrdersService.createPaymentForOrder Demo.env0 Demo.order1 Demo.alice
      (with_payments (delete Demo.order1) Demo.store1)
    = (Ok payment, s')
    ∧ Order.status <$> orders s' !! Demo.order1 = Some OrderStatus.AWAITING_PAYMENT
    ∧ events s' = events Demo.store1.
Proof.
  destruct (createPaymentForOrder_effect Demo.env0 Demo.order1
              (with_payments (delete Demo.order1) Demo.store1)
              (Order.mk "ORD-20250101-0001" "INV-20250101-0001" Demo.alice Demo.gala 3
                 100 300 OrderStatus.PENDING 3601000)
              (mkInvoice "inv-1" (Some "https://pay/inv-1") (Some 4600000)))
    as (s' & Hrun & Hos & _ & Hes & _).
  - vm_compute. reflexivity.
  - reflexivity.
  - vm_compute. reflexivity.
  - reflexivity.
  - eexists _, s'. split; [exact Hrun|]. split; [|exact Hes].
    rewrite Hos, lookup_insert_eq. reflexivity.
Defined.

(** ** Simulated payments *)

(** X10.  The payment of an order that is pending or awaiting payment is
    simulated: the call succeeds whatever becomes of the tickets and the
    mail, returns the order as paid with the tickets then on file for it,
    marks the payment row when there is one, and moves no quota.  A second
    simulation is refused with the store unchanged. *)
Theorem simulatePaymentComplete_once env id (s : Store) order :
  orders s !! id = Some order →
  prePayment (Order.status order) = true →
  ∃ s',
    OrdersService.simulatePaymentComplete env id s
    = (Ok (Order.set_status OrderStatus.PAID order,
           TicketsService.findByOrder id (tickets s')), s')
    ∧ orders s' = <[id := Order.set_status OrderStatus.PAID order]> (orders s)
    ∧ events s' = events s
    ∧ payments s'
      = match payments s !! id with
        | Some payment => <[id := simulatedPayment env payment]> (payments s)
        | None => payments s
        end
    ∧ ∀ env2,
        OrdersService.simulatePaymentComplete env2 id s'
        = (Throw (BadRequestException "Order is already paid"), s').
Proof.
  intros Ho Hpre.
  assert (Hst : Order.status order = OrderStatus.PENDING
                ∨ Order.status order = OrderStatus.AWAITING_PAYMENT).
  { unfold prePayment in Hpre. apply orb_true_iff in Hpre as [H|H];
      apply bool_decide_eq_true in H; auto. }
  assert (Hne : Order.status order ≠ OrderStatus.PAID) by (by destruct Hst as [-> | ->]).
  set (s1 := match payments s !! id with
             | Some payment => with_payments (insert id (simulatedPayment env payment)) s
             | None => s
             end).
  assert (Hs1 : orders s1 = orders s ∧ events s1 = events s
                ∧ payments s1
                  = match payments s !! id with
                    | Some payment => <[id := simulatedPayment env payment]> (payments s)
                    | None => payments s
                    end).
  { unfold s1. by destruct (payments s !! id). }
  destruct Hs1 as (Ho1 & He1 & Hp1).
  assert (Ho' : orders s1 !! id = Some order) by (by rewrite Ho1).
  set (pd := Some (OrdersService.mkPaymentData (Some "SIMULATED_TEST") (Some (now env)))).
  pose proof (updateStatus_changed env id OrderStatus.PAID pd s1 order Ho' Hne) as Hupd.
  cbv zeta in Hupd.
  assert (Hr : OrdersService.restoresQuota OrderStatus.PAID (Order.status order) = false)
    by done.
  rewrite Hr in Hupd.
  rewrite (bool_decide_eq_true_2 (OrderStatus.PAID = OrderStatus.PAID)) in Hupd by done.
  set (order' := Order.set_status OrderStatus.PAID order) in *.
  set (s2 := with_orders (insert id order') s1) in *.
  set (s3 := (OrdersService.postPaid env id order'
                (TicketsService.findByOrder id (tickets s1))
                (users s1 !! Order.userId order) (events s1 !! Order.eventId order) s2).2)
    in *.
  pose proof (keeps_ledger_postPaid env id order'
                (TicketsService.findByOrder id (tickets s1))
                (users s1 !! Order.userId order) (events s1 !! Order.eventId order) s2)
    as Hk.
  fold s3 in Hk. apply ledger_eq in Hk as (He3 & _ & Ho3 & Hp3).
  assert (Hlook3 : orders s3 !! id = Some order').
  { rewrite Ho3. apply lookup_insert_eq. }
  exists s3. split.
  { unfold OrdersService.simulatePaymentComplete. unfold bind at 1, get at 1.
    rewrite Ho. rewrite (bool_decide_eq_false_2 _ Hne).
    assert (Hc : bool_decide (Order.status order = OrderStatus.CANCELLED)
                 || bool_decide (Order.status order = OrderStatus.EXPIRED) = false)
      by (by destruct Hst as [-> | ->]).
    rewrite Hc. unfold bind at 1.
    assert (Hpay : (match payments s !! id with
                    | Some payment =>
                      modify (with_payments (insert id
                        (Payment.set_paid (now env) "SIMULATED_TEST"
                           (Payment.set_status PaymentStatus.PAID payment))))
                    | None => ret tt
                    end) s = (Ok tt, s1)).
    { unfold s1. by destruct (payments s !! id). }
    rewrite Hpay. unfold bind at 1. fold pd. rewrite Hupd.
    unfold bind at 1, get at 1. rewrite Hlook3. reflexivity. }
  split; [by rewrite Ho3; simpl; rewrite Ho1|].
  split; [by rewrite He3; simpl|].
  split; [by rewrite Hp3; simpl|].
  intros env2. unfold OrdersService.simulatePaymentComplete. unfold bind at 1, get at 1.
  rewrite Hlook3. reflexivity.
Qed.

Lemma simulatePaymentComplete_once_witness :
  ∃ order tks s',
    OrdersService.simulatePaymentComplete Demo.env0 Demo.order1 Demo.store1
    = (Ok (order, tks), s')
    ∧ Order.status order = OrderStatus.PAID
    ∧ OrdersService.simulatePaymentComplete Demo.env0 Demo.order1 s'
      = (Throw (BadRequestException "Order is already paid"), s').
Proof.
  destruct (simulatePaymentComplete_once Demo.env0 Demo.order1 Demo.store1
              (Order.mk "ORD-20250101-0001" "INV-20250101-0001" Demo.alice Demo.gala 3
                 100 300 OrderStatus.PENDING 3601000))
    as (s' & Hrun & _ & _ & _ & Hagain).
  - vm_compute. reflexivity.
  - reflexivity.
  - eexists _, _, s'. split; [exact Hrun|]. split; [reflexivity|apply Hagain].
Defined.

(** ** Cancelling tickets in a batch *)

(** An update that keeps the primary keys commutes with the lookup. *)
Lemma findOne_fmap (f : Ticket.t → Ticket.t) ticketId (tbl : list Ticket.t) :
  (∀ r, Ticket.id (f r) = Ticket.id r) →
  TicketsService.findOne ticketId (f <$> tbl) = f <$> TicketsService.findOne ticketId tbl.
Proof.
  intros Hf. unfold TicketsService.findOne.
  induction tbl as [|r tbl IH]; [done|].
  rewrite fmap_cons. simpl. rewrite Hf.
  destruct (bool_decide (Ticket.id r = ticketId)); [done|exact IH].
Qed.

Lemma cancelIn_id env ticketIds reason r :
  Ticket.id (cancelIn env ticketIds reason r) = Ticket.id r.
Proof. unfold cancelIn. by destruct (bool_decide _). Qed.

(** X11.  [batchCancelTickets] always completes; it rewrites the rows
    whose id is listed, whatever their status (a used ticket is cancelled
    as well), to cancelled with the time and the reason, and leaves every
    other row and everything but the tickets alone.  Afterwards no listed
    ticket can be checked in: the attempt is refused and changes
    nothing. *)
Theorem batchCancelTickets_effect env ticketIds reason (s : Store) :
  ∃ s',
    TicketsService.batchCancelTickets env ticketIds reason s = (Ok tt, s')
    ∧ tickets s' = cancelIn env ticketIds reason <$> tickets s
    ∧ ledger s' = ledger s
    ∧ ∀ ticketId env2 checkedInBy,
        ticketId ∈ ticketIds →
        TicketsService.checkInTicket env2 ticketId checkedInBy s'
        = (Throw (BadRequestException
                    match TicketsService.findOne ticketId (tickets s) with
                    | Some _ => "Ticket is cancelled"
                    | None => "Ticket not found"
                    end), s').
Proof.
  assert (Hrun : ∃ s',
    TicketsService.batchCancelTickets env ticketIds reason s = (Ok tt, s')
    ∧ tickets s' = cancelIn env ticketIds reason <$> tickets s
    ∧ ledger s' = ledger s).
  { unfold TicketsService.batchCancelTickets.
    destruct ticketIds as [|t0 ids].
    - exists s. split; [done|]. split; [|done].
      rewrite <- (list_fmap_id (tickets s)) at 1. apply list_fmap_ext.
      intros i r _. unfold cancelIn. rewrite bool_decide_eq_false_2; [done|].
      apply not_elem_of_nil.
    - eexists. split; [reflexivity|]. split; [|reflexivity]. reflexivity. }
  destruct Hrun as (s' & Hrun & Htk & Hl). exists s'.
  split; [done|]. split; [done|]. split; [done|].
  intros ticketId env2 checkedInBy Hin.
  unfold TicketsService.checkInTicket, TicketsService.validateTicket.
  unfold bind at 1. unfold bind at 1, get at 1.
  rewrite Htk, (findOne_fmap _ ticketId (tickets s) (cancelIn_id env ticketIds reason)).
  destruct (TicketsService.findOne ticketId (tickets s)) as [k|] eqn:Hf; [|done].
  simpl. apply findOne_id in Hf. unfold cancelIn.
  rewrite (bool_decide_eq_true_2 (Ticket.id k ∈ ticketIds)) by (by rewrite Hf).
  reflexivity.
Qed.

(** ** The files of a ticket *)

Lemma getTicketById_owner ticketId (s : Store) ticket order :
  TicketsService.findOne ticketId (tickets s) = Some ticket →
  orders s !! Ticket.orderId ticket = Some order →
  TicketsService.getTicketById ticketId (Some (Order.userId order)) s = (Ok ticket, s).
Proof.
  intros Hf Ho. unfold TicketsService.getTicketById.
  unfold bind, get. rewrite Hf, Ho.
  rewrite (bool_decide_eq_true_2 (Some (Order.userId order) = Some (Order.userId order)))
    by done.
  by destruct (Js.truthy _).
Qed.

Lemma truthy_pdfFileName k : Js.truthy (Some (TicketsService.pdfFileName k)) = true.
Proof. reflexivity. Qed.

(** X12.  The owner downloads a ticket that has no PDF yet, and the file
    can be written: the PDF is written once, its name is stored on the
    ticket's row and returned, and nothing else changes.  Every later
    download returns the stored name without writing a file, whether or
    not one could be written then. *)
Theorem downloadTicket_heals env ticketId (s : Store) ticket order :
  TicketsService.findOne ticketId (tickets s) = Some ticket →
  orders s !! Ticket.orderId ticket = Some order →
  Js.truthy (Ticket.pdfUrl ticket) = false →
  pdfOk env 0 = true →
  let pdf := TicketsService.pdfFileName ticket in
  ∃ s',
    TicketsService.downloadTicket env ticketId (Order.userId order) s = (Ok pdf, s')
    ∧ uploads s' = uploads s ++ [pdf]
    ∧ tickets s' = updatedRow ticketId (Ticket.set_pdfUrl pdf) <$> tickets s
    ∧ ledger s' = ledger s
    ∧ outbox s' = outbox s
    ∧ ∀ env2,
        TicketsService.downloadTicket env2 ticketId (Order.userId order) s' = (Ok pdf, s').
Proof.
  intros Hf Ho Hnone Hok pdf.
  pose proof (findOne_id _ _ _ Hf) as Hid.
  eexists. split.
  { unfold TicketsService.downloadTicket. unfold bind at 1.
    rewrite (getTicketById_owner ticketId s ticket order Hf Ho).
    rewrite Hnone. unfold bind at 1, get at 1. rewrite Ho.
    unfold TicketsService.generatePDFAwait. rewrite Hok.
    unfold TicketsService.updateRows. unfold_monad. simpl. rewrite Hid. reflexivity. }
  split; [reflexivity|]. split; [reflexivity|]. split; [reflexivity|].
  split; [reflexivity|].
  intros env2. unfold TicketsService.downloadTicket. unfold bind at 1.
  match goal with |- context [TicketsService.getTicketById _ _ ?s1] =>
    rewrite (getTicketById_owner ticketId s1 (Ticket.set_pdfUrl pdf ticket) order) end.
  - reflexivity.
  - cbn [tickets with_tickets with_uploads].
    rewrite (findOne_fmap _ ticketId (tickets s)).
    + rewrite Hf. simpl. by rewrite decide_True.
    + intros r. by destruct (decide _).
  - exact Ho.
Qed.

Lemma downloadTicket_heals_witness :
  ∃ s',
    TicketsService.downloadTicket Demo.env0 "t-0" Demo.alice demo_store_nopdf
    = (Ok "ticket-TKT-0.pdf", s')
    ∧ TicketsService.downloadTicket demo_env_nopdf "t-0" Demo.alice s'
      = (Ok "ticket-TKT-0.pdf", s').
Proof.
  destruct (TicketsService.findOne "t-0" (tickets demo_store_nopdf)) as [ticket|] eqn:Hf;
    [|vm_compute in Hf; discriminate].
  destruct (downloadTicket_heals Demo.env0 "t-0" demo_store_nopdf ticket
              (Order.mk "ORD-20250101-0001" "INV-20250101-0001" Demo.alice Demo.gala 3
                 100 300 OrderStatus.PAID 3601000))
    as (s' & Hrun & _ & _ & _ & _ & Hagain).
  - exact Hf.
  - vm_compute in Hf. injection Hf as <-. vm_compute. reflexivity.
  - vm_compute in Hf. injection Hf as <-. reflexivity.
  - reflexivity.
  - exists s'. specialize (Hagain demo_env_nopdf).
    vm_compute in Hf. injection Hf as <-. split; [exact Hrun|exact Hagain].
Defined.

(** What [validateTicket] answers depends on the status and the check-in
    mark of the row and on nothing else. *)
Lemma validateTicket_updated t ticketId (f : Ticket.t → Ticket.t) v :
  (∀ r, Ticket.id (f r) = Ticket.id r) →
  (∀ r, Ticket.status (f r) = Ticket.status r) →
  (∀ r, Ticket.checkedIn (f r) = Ticket.checkedIn r) →
  preserves (λ s, (TicketsService.validateTicket t s).1 = v)
    (TicketsService.updateRows ticketId f).
Proof.
  intros Hid Hst Hci s <-.
  unfold TicketsService.updateRows, modify, TicketsService.validateTicket, bind, get.
  cbn [snd tickets with_tickets].
  rewrite (findOne_fmap (λ r, if decide (Ticket.id r = ticketId) then f r else r)).
  2:{ intros r. by destruct (decide _). }
  destruct (TicketsService.findOne t (tickets s)) as [k|]; [|done].
  cbn [fmap option_fmap option_map].
  destruct (decide (Ticket.id k = ticketId)); rewrite ?Hst, ?Hci;
    by destruct (negb _), (Ticket.checkedIn k).
Qed.

Lemma keeps_tickets_preserves_verdict t v {A} (m : M A) :
  keeps tickets m →
  preserves (λ s, (TicketsService.validateTicket t s).1 = v) m.
Proof.
  intros Hk s <-. specialize (Hk s).
  unfold TicketsService.validateTicket, bind, get. rewrite Hk.
  destruct (TicketsService.findOne t (tickets s)) as [k|]; [|done].
  by destruct (negb _), (Ticket.checkedIn k).
Qed.

Lemma keeps_getTicketById {T} (proj : Store → T) ticketId userId :
  keeps proj (TicketsService.getTicketById ticketId userId).
Proof.
  unfold TicketsService.getTicketById.
  apply keeps_bind; [apply keeps_get|]. intros s.
  destruct (TicketsService.findOne ticketId (tickets s)); [|apply keeps_throw].
  destruct (Js.truthy userId); [|apply keeps_ret].
  destruct (orders s !! _); [|apply keeps_throw].
  destruct (negb _); [apply keeps_throw|apply keeps_ret].
Qed.

Lemma keeps_tickets_generatePDFAwait env j k order :
  keeps tickets (TicketsService.generatePDFAwait env j k order).
Proof.
  unfold TicketsService.generatePDFAwait.
  destruct order; [|apply keeps_throw].
  destruct (pdfOk env j); [|apply keeps_throw].
  apply keeps_bind; [by apply keeps_modify|intros; apply keeps_ret].
Qed.

Lemma keeps_tickets_generateQRCode env i ticketNumber :
  keeps tickets (TicketsService.generateQRCode env i ticketNumber).
Proof.
  unfold TicketsService.generateQRCode.
  destruct (qrOk env i); [|apply keeps_throw].
  apply keeps_bind; [by apply keeps_modify|intros; apply keeps_ret].
Qed.

(** X13.  Downloading or regenerating a ticket never changes what
    [validateTicket] answers for any ticket: the files of a cancelled or
    used ticket can be made again, and the ticket stays cancelled or
    used. *)
Theorem artifacts_keep_validity env ticketId userId t (s : Store) :
  (TicketsService.validateTicket t
     (TicketsService.downloadTicket env ticketId userId s).2).1
  = (TicketsService.validateTicket t s).1
  ∧ (TicketsService.validateTicket t
       (TicketsService.regenerateTicket env ticketId userId s).2).1
    = (TicketsService.validateTicket t s).1.
Proof.
  set (v := (TicketsService.validateTicket t s).1).
  set (P := λ s' : Store, (TicketsService.validateTicket t s').1 = v).
  assert (Hd : preserves P (TicketsService.downloadTicket env ticketId userId)).
  { unfold TicketsService.downloadTicket.
    apply preserves_bind.
    { apply keeps_tickets_preserves_verdict, keeps_getTicketById. }
    intros ticket. destruct (if Js.truthy _ then _ else _); [apply preserves_ret|].
    apply preserves_bind; [apply preserves_get|]. intros s0.
    apply preserves_bind.
    { apply keeps_tickets_preserves_verdict, keeps_tickets_generatePDFAwait. }
    intros pdf. apply preserves_bind; [|intros; apply preserves_ret].
    by apply validateTicket_updated. }
  assert (Hr : preserves P (TicketsService.regenerateTicket env ticketId userId)).
  { unfold TicketsService.regenerateTicket.
    apply preserves_bind.
    { apply keeps_tickets_preserves_verdict, keeps_getTicketById. }
    intros ticket. apply preserves_bind; [apply preserves_get|]. intros s0.
    apply preserves_bind.
    { apply keeps_tickets_preserves_verdict, keeps_tickets_generateQRCode. }
    intros qr. apply preserves_bind.
    { apply keeps_tickets_preserves_verdict, keeps_tickets_generatePDFAwait. }
    intros pdf. apply preserves_bind; [|intros; apply preserves_ret].
    by apply validateTicket_updated. }
  split; [by apply Hd|by apply Hr].
Qed.

(** ** Generation that fails half-way *)

(** The PDF promises all settle; those that can write their file do. *)
Lemma forM_generatePDF_any env (l : list (nat * Ticket.t)) (s : Store) :
  ∃ r files,
    forM (λ jk, TicketsService.generatePDF env jk.1 jk.2) l s
    = (Ok r,
       mkStore (events s) (users s) (orders s) (payments s) (tickets s)
         (uploads s ++ files) (outbox s)).
Proof.
  revert s. induction l as [|[j k] l IH]; intros s.
  - exists [], []. simpl. unfold ret. rewrite app_nil_r. by destruct s.
  - simpl. unfold bind at 1. unfold TicketsService.generatePDF at 1. simpl.
    destruct (pdfOk env j).
    + unfold when, writeFile, modify.
      destruct (IH (with_uploads (λ u, u ++ [TicketsService.pdfFileName k]) s))
        as (r & files & Hr).
      unfold bind at 1. rewrite Hr. unfold ret.
      eexists _, (TicketsService.pdfFileName k :: files). simpl.
      rewrite <- app_assoc. reflexivity.
    + unfold when, ret. destruct (IH s) as (r & files & Hr).
      unfold bind at 1. rewrite Hr. eauto.
Qed.

Lemma findByOrder_fresh_made env orderId order user (l : list nat) (tbl : list Ticket.t) :
  TicketsService.findByOrder orderId tbl = [] →
  TicketsService.findByOrder orderId (tbl ++ (madeTicket env orderId order user <$> l))
  = madeTicket env orderId order user <$> l.
Proof.
  intros Hnone. unfold TicketsService.findByOrder in *. rewrite filter_app, Hnone. simpl.
  induction l as [|i l IH]; [done|].
  rewrite !fmap_cons, filter_cons_True by done. by rewrite IH.
Qed.

(** The first generation for an order when a PDF cannot be written. *)
Lemma generateTicketsForOrder_half env orderId (s : Store) order user event j :
  orders s !! orderId = Some order →
  users s !! Order.userId order = Some user →
  events s !! Order.eventId order = Some event →
  TicketsService.findByOrder orderId (tickets s) = [] →
  let n := Z.to_nat (Order.quantity order) in
  (∀ i, (i < n)%nat → qrOk env i = true) →
  (j < n)%nat →
  pdfOk env j = false →
  (∀ i, (i < n)%nat → uuidv4 env i ∉ Ticket.id <$> tickets s) →
  (∀ i i', (i < n)%nat → (i' < n)%nat → uuidv4 env i = uuidv4 env i' → i = i') →
  let made := madeTicket env orderId order user <$> seq 0 n in
  ∃ files,
    TicketsService.generateTicketsForOrder env orderId s
    = (Throw (Error "generatePDF"),
       mkStore (events s) (users s) (orders s) (payments s) (tickets s ++ made)
         ((uploads s ++ (qrFileName env <$> seq 0 n)) ++ files) (outbox s)).
Proof.
  intros Ho Hu He Hnone n Hqr Hj Hpdf Hfresh Hinj made.
  assert (Hnd : NoDup (Ticket.id <$> made)).
  { unfold made. rewrite made_ids. apply NoDup_fmap_2_strong; [|apply NoDup_seq].
    intros i i' Hi Hi'. apply elem_of_seq in Hi, Hi'. apply Hinj; lia. }
  assert (Hnew : ∀ k, k ∈ made → Ticket.id k ∉ Ticket.id <$> tickets s).
  { intros k Hk. unfold made in Hk. apply list_elem_of_fmap in Hk as (i & -> & Hi).
    apply elem_of_seq in Hi. simpl. apply Hfresh. lia. }
  assert (Hlen : length made = n) by (unfold made; by rewrite length_fmap, length_seq).
  unfold TicketsService.generateTicketsForOrder.
  unfold bind at 1. unfold get at 1. rewrite Ho, Hu, He, Hnone.
  rewrite bool_decide_eq_false_2 by (simpl; lia).
  unfold bind at 1.
  rewrite forM_ticketData by (intros i Hi; apply elem_of_seq in Hi; apply Hqr; lia).
  fold n. fold made.
  unfold bind at 1. unfold TicketsService.save at 1. unfold bind at 1, modify at 1.
  unfold ret at 1. unfold with_tickets at 1. simpl.
  rewrite (foldl_saveRow_new made (tickets s) Hnd Hnew).
  unfold bind at 1.
  match goal with |- context [forM ?f (zip ?a ?b) ?s0] =>
    destruct (forM_generatePDF_any env (zip a b) s0) as (r & files & Hr) end.
  rewrite Hr. simpl.
  replace (forallb (pdfOk env) (TicketsService.indices made)) with false.
  2:{ symmetry. apply not_true_is_false. intros Hall.
      rewrite forallb_forall in Hall. specialize (Hall j).
      rewrite Hpdf in Hall. unfold TicketsService.indices in Hall.
      rewrite Hlen in Hall. discriminate Hall. apply in_seq. lia. }
  exists files. reflexivity.
Qed.

(** X14.  The first generation for an order whose QR codes are all
    written but one of whose PDFs cannot be: the call throws, yet the
    tickets are on file, without a PDF name, and nothing but tickets and
    files has changed.  Generation is not retried: every later call, under
    any environment, returns those tickets as they are. *)
Theorem generateTicketsForOrder_pdf_failure env orderId (s : Store) order user event j :
  orders s !! orderId = Some order →
  users s !! Order.userId order = Some user →
  events s !! Order.eventId order = Some event →
  TicketsService.findByOrder orderId (tickets s) = [] →
  let n := Z.to_nat (Order.quantity order) in
  (∀ i, (i < n)%nat → qrOk env i = true) →
  (j < n)%nat →
  pdfOk env j = false →
  (∀ i, (i < n)%nat → uuidv4 env i ∉ Ticket.id <$> tickets s) →
  (∀ i i', (i < n)%nat → (i' < n)%nat → uuidv4 env i = uuidv4 env i' → i = i') →
  let made := madeTicket env orderId order user <$> seq 0 n in
  ∃ s',
    TicketsService.generateTicketsForOrder env orderId s
    = (Throw (Error "generatePDF"), s')
    ∧ tickets s' = tickets s ++ made
    ∧ Forall (λ k, Ticket.pdfUrl k = None) made
    ∧ ledger s' = ledger s
    ∧ outbox s' = outbox s
    ∧ ∀ env2, TicketsService.generateTicketsForOrder env2 orderId s' = (Ok made, s').
Proof.
  intros Ho Hu He Hnone n Hqr Hj Hpdf Hfresh Hinj made.
  destruct (generateTicketsForOrder_half env orderId s order user event j)
    as [files Hrun]; try done.
  fold n made in Hrun.
  eexists. split; [exact Hrun|].
  split; [reflexivity|].
  split; [unfold made; apply Forall_fmap, Forall_forall; by intros|].
  split; [reflexivity|]. split; [reflexivity|].
  intros env2.
  rewrite (generateTicketsForOrder_returns_existing env2 orderId _ order user event);
    try done.
  - cbn [tickets]. unfold made. by rewrite findByOrder_fresh_made.
  - cbn [tickets]. unfold made. rewrite findByOrder_fresh_made by done.
    destruct n; [lia|]. done.
Qed.

Lemma generateTicketsForOrder_pdf_failure_witness :
  ∃ s' made,
    TicketsService.generateTicketsForOrder demo_env_nopdf Demo.order1 Demo.store1
    = (Throw (Error "generatePDF"), s')
    ∧ length made = 3%nat
    ∧ TicketsService.generateTicketsForOrder Demo.env0 Demo.order1 s' = (Ok made, s').
Proof.
  destruct (generateTicketsForOrder_pdf_failure demo_env_nopdf Demo.order1 Demo.store1
              (Order.mk "ORD-20250101-0001" "INV-20250101-0001" Demo.alice Demo.gala 3
                 100 300 OrderStatus.PENDING 3601000)
              (User.mk "alice@example.com" (Some "Alice"))
              (Event.mk "Gala" (Some "Hall") (Some "published") (Some 5000) 100 7) 0)
    as (s' & Hrun & _ & _ & _ & _ & Hagain).
  - vm_compute. reflexivity.
  - vm_compute. reflexivity.
  - vm_compute. reflexivity.
  - reflexivity.
  - reflexivity.
  - simpl. lia.
  - reflexivity.
  - intros i _. vm_compute. apply not_elem_of_nil.
  - simpl. intros i i' Hi Hi' Heq.
    destruct i as [|[|[|i]]], i' as [|[|[|i']]]; try lia; vm_compute in Heq; discriminate.
  - eexists s', _. split; [exact Hrun|]. split; [|apply Hagain]. reflexivity.
Defined.

(** X15.  The provider reports the payment of an order while one of its
    PDFs cannot be written: the webhook is acknowledged, the order is
    paid and its tickets are on file without a PDF name, but no paid mail
    is handed to the mailer.  A PAID webhook delivered again, under any
    environment, hands over none either. *)
Theorem webhook_paid_pdf_failure token env payload (s : Store) order user event j :
  PaymentWebhook.uuidRegex_test (PaymentWebhook.external_id payload) = true →
  PaymentWebhook.status payload = XenditWebhookStatus.PAID →
  orders s !! PaymentWebhook.external_id payload = Some order →
  Order.status order ≠ OrderStatus.PAID →
  users s !! Order.userId order = Some user →
  events s !! Order.eventId order = Some event →
  TicketsService.findByOrder (PaymentWebhook.external_id payload) (tickets s) = [] →
  let id := PaymentWebhook.external_id payload in
  let n := Z.to_nat (Order.quantity order) in
  (∀ i, (i < n)%nat → qrOk env i = true) →
  (j < n)%nat →
  pdfOk env j = false →
  (∀ i, (i < n)%nat → uuidv4 env i ∉ Ticket.id <$> tickets s) →
  (∀ i i', (i < n)%nat → (i' < n)%nat → uuidv4 env i = uuidv4 env i' → i = i') →
  let order' := Order.set_status OrderStatus.PAID order in
  let made := madeTicket env id order' user <$> seq 0 n in
  ∃ s',
    PaymentWebhook.processWebhook token env payload token s = (Ok tt, s')
    ∧ orders s' = <[id := order']> (orders s)
    ∧ tickets s' = tickets s ++ made
    ∧ Forall (λ k, Ticket.pdfUrl k = None) made
    ∧ outbox s' = outbox s
    ∧ ∀ env2,
        outbox (PaymentWebhook.processWebhook token env2 payload token s').2 = outbox s.
Proof.
  intros Huuid Hst Ho Hnp Hu He Hnone id n Hqr Hj Hpdf Hfresh Hinj order' made.
  set (sr := refreshed env payload PaymentStatus.PAID s).
  assert (Ho' : orders sr !! id = Some order).
  { unfold sr. by rewrite (refreshed_frame orders). }
  assert (Htk : tickets sr = tickets s) by (unfold sr; by rewrite (refreshed_frame tickets)).
  assert (Hus : users sr = users s) by (unfold sr; by rewrite (refreshed_frame users)).
  assert (Hes : events sr = events s) by (unfold sr; by rewrite (refreshed_frame events)).
  assert (Hos : orders sr = orders s) by (unfold sr; by rewrite (refreshed_frame orders)).
  assert (Hob : outbox sr = outbox s) by (unfold sr; by rewrite (refreshed_frame outbox)).
  set (s2 := with_orders (insert id order') sr).
  destruct (generateTicketsForOrder_half env id s2 order' user event j)
    as [files Hgen].
  { unfold s2. simpl. apply lookup_insert_eq. }
  { unfold s2. simpl. by rewrite Hus. }
  { unfold s2. simpl. by rewrite Hes. }
  { unfold s2. simpl. by rewrite Htk. }
  { done. }
  { done. }
  { done. }
  { unfold s2. simpl. by rewrite Htk. }
  { done. }
  cbv zeta in Hgen. change (Order.quantity order') with (Order.quantity order) in Hgen.
  fold n made in Hgen.
  set (s3 := mkStore (events s2) (users s2) (orders s2) (payments s2)
               (tickets s2 ++ made)
               ((uploads s2 ++ (qrFileName env <$> seq 0 n)) ++ files) (outbox s2)) in *.
  assert (Hpost : OrdersService.postPaid env id order' [] (Some user) (Some event) s2
                  = (Ok tt, s3)).
  { unfold OrdersService.postPaid, catch, bind. rewrite Hgen. reflexivity. }
  assert (Hfind : TicketsService.findByOrder id (tickets s3) = made).
  { unfold s3, s2. cbn [tickets with_orders]. rewrite Htk. unfold made.
    by apply findByOrder_fresh_made. }
  assert (Hlen : length made = n) by (unfold made; by rewrite length_fmap, length_seq).
  assert (Hlook3 : orders s3 !! id = Some order').
  { unfold s3, s2. simpl. apply lookup_insert_eq. }
  assert (Hrun : PaymentWebhook.processWebhook token env payload token s = (Ok tt, s3)).
  { rewrite (processWebhook_accepted token env payload s _ order Huuid
               (newPaymentStatus_PAID _ Hst) Ho).
    simpl. fold id. fold sr.
    rewrite (updateStatus_changed env id OrderStatus.PAID (webhookPaymentData payload)
               sr order Ho' Hnp).
    assert (Hnr : OrdersService.restoresQuota OrderStatus.PAID (Order.status order) = false)
      by reflexivity.
    rewrite Hnr. simpl. fold order'.
    rewrite Htk, Hus, Hes. fold id in Hnone. rewrite Hnone, Hu, He.
    fold s2. rewrite Hpost. simpl.
    unfold catch, bind.
    rewrite (generateTicketsForOrder_settled env id s3 order' user event); try done.
    - unfold s3, s2. simpl. by rewrite Hus.
    - unfold s3, s2. simpl. by rewrite Hes.
    - rewrite Hfind. exact Hlen. }
  exists s3. split; [exact Hrun|].
  split; [unfold s3, s2; simpl; by rewrite Hos|].
  split; [unfold s3, s2; simpl; by rewrite Htk|].
  split; [unfold made; apply Forall_fmap, Forall_forall; by intros|].
  split; [unfold s3, s2; simpl; by rewrite Hob|].
  intros env2.
  destruct (webhook_paid_again token env2 payload s3 order' user event) as [_ ->];
    try done.
  - unfold s3, s2. simpl. by rewrite Hus.
  - unfold s3, s2. simpl. by rewrite Hes.
  - fold id. rewrite Hfind. exact Hlen.
  - cbn [snd]. rewrite (refreshed_frame outbox) by done.
    unfold s3, s2. simpl. by rewrite Hob.
Qed.

Lemma webhook_paid_pdf_failure_witness :
  ∃ s',
    PaymentWebhook.processWebhook Demo.token demo_env_nopdf
      (Demo.webhook XenditWebhookStatus.PAID) Demo.token Demo.store1 = (Ok tt, s')
    ∧ Order.status <$> orders s' !! Demo.order1 = Some OrderStatus.PAID
    ∧ length (tickets s') = 3%nat
    ∧ outbox s' = outbox Demo.store1.
Proof.
  destruct (webhook_paid_pdf_failure Demo.token demo_env_nopdf
              (Demo.webhook XenditWebhookStatus.PAID) Demo.store1
              (Order.mk "ORD-20250101-0001" "INV-20250101-0001" Demo.alice Demo.gala 3
                 100 300 OrderStatus.PENDING 3601000)
              (User.mk "alice@example.com" (Some "Alice"))
              (Event.mk "Gala" (Some "Hall") (Some "published") (Some 5000) 100 7) 0)
    as (s' & Hrun & Hos & Htk & _ & Hob & _).
  - vm_compute. reflexivity.
  - reflexivity.
  - vm_compute. reflexivity.
  - discriminate.
  - vm_compute. reflexivity.
  - vm_compute. reflexivity.
  - reflexivity.
  - reflexivity.
  - simpl. lia.
  - reflexivity.
  - intros i _. vm_compute. apply not_elem_of_nil.
  - simpl. intros i i' Hi Hi' Heq.
    destruct i as [|[|[|i]]], i' as [|[|[|i']]]; try lia; vm_compute in Heq; discriminate.
  - exists s'. split; [exact Hrun|].
    split; [rewrite Hos, lookup_insert_eq; reflexivity|].
    split; [rewrite Htk; reflexivity|exact Hob].
Defined.

(** The loop over the tickets stops at the first QR code that cannot be
    written. *)
Lemma forM_ticketData_fail env orderId order user (l1 l2 : list nat) i0 (s : Store) :
  (∀ i, i ∈ l1 → qrOk env i = true) →
  qrOk env i0 = false →
  forM (TicketsService.ticketData env orderId order user) (l1 ++ i0 :: l2) s
  = (Throw (Error "QRCode.toFile"),
     mkStore (events s) (users s) (orders s) (payments s) (tickets s)
       (uploads s ++ (qrFileName env <$> l1)) (outbox s)).
Proof.
  revert s. induction l1 as [|i l1 IH]; intros s Hok Hbad.
  - simpl. unfold bind at 1.
    unfold TicketsService.ticketData, TicketsService.generateQRCode.
    rewrite Hbad. unfold_monad. rewrite app_nil_r. by destruct s.
  - simpl. unfold bind at 1.
    unfold TicketsService.ticketData at 1, TicketsService.generateQRCode.
    rewrite (Hok i) by (left; done).
    unfold bind at 1. unfold bind at 1. unfold writeFile, modify, ret. unfold bind at 1.
    rewrite IH; [|intros j Hj; apply Hok; by right|done].
    simpl. rewrite <- app_assoc. reflexivity.
Qed.

(** X16.  The first generation for an order one of whose QR codes cannot
    be written: the call throws and no ticket is on file, whatever the
    number of QR codes written before the failing one; only those files
    remain.  Nothing but the files has changed. *)
Theorem generateTicketsForOrder_qr_failure env orderId (s : Store) order user event i0 :
  orders s !! orderId = Some order →
  users s !! Order.userId order = Some user →
  events s !! Order.eventId order = Some event →
  TicketsService.findByOrder orderId (tickets s) = [] →
  (i0 < Z.to_nat (Order.quantity order))%nat →
  (∀ i, (i < i0)%nat → qrOk env i = true) →
  qrOk env i0 = false →
  TicketsService.generateTicketsForOrder env orderId s
  = (Throw (Error "QRCode.toFile"),
     with_uploads (λ u, u ++ (qrFileName env <$> seq 0 i0)) s).
Proof.
  intros Ho Hu He Hnone Hi0 Hok Hbad.
  unfold TicketsService.generateTicketsForOrder.
  unfold bind at 1. unfold get at 1. rewrite Ho, Hu, He, Hnone.
  rewrite bool_decide_eq_false_2 by (simpl; lia).
  unfold bind at 1.
  replace (Z.to_nat (Order.quantity order))
    with (i0 + S (Z.to_nat (Order.quantity order) - i0 - 1))%nat by lia.
  rewrite seq_app. cbn [seq].
  rewrite (forM_ticketData_fail env orderId order user); [reflexivity| |done].
  intros i Hi. apply elem_of_seq in Hi. apply Hok. lia.
Qed.

Lemma generateTicketsForOrder_qr_failure_witness :
  TicketsService.generateTicketsForOrder
    (mkEnv 2000 (newOrderId Demo.env0) (newOrderNumber Demo.env0)
       (newInvoiceNumber Demo.env0) (gateway Demo.env0) (uuidv4 Demo.env0)
       (newTicketNumber Demo.env0) (λ i, bool_decide (i < 2)%nat) (pdfOk Demo.env0)
              (hourLater Demo.env0) (times Demo.env0))
    Demo.order1 Demo.store1
  = (Throw (Error "QRCode.toFile"),
     with_uploads (λ u, u ++ ["qr-TKT-0.png"; "qr-TKT-1.png"]) Demo.store1).
Proof.
  apply (generateTicketsForOrder_qr_failure
           (mkEnv 2000 (newOrderId Demo.env0) (newOrderNumber Demo.env0)
              (newInvoiceNumber Demo.env0) (gateway Demo.env0) (uuidv4 Demo.env0)
              (newTicketNumber Demo.env0) (λ i, bool_decide (i < 2)%nat) (pdfOk Demo.env0)
              (hourLater Demo.env0) (times Demo.env0))
           Demo.order1 Demo.store1
           (Order.mk "ORD-20250101-0001" "INV-20250101-0001" Demo.alice Demo.gala 3
              100 300 OrderStatus.PENDING 3601000)
           (User.mk "alice@example.com" (Some "Alice"))
           (Event.mk "Gala" (Some "Hall") (Some "published") (Some 5000) 100 7) 2).
  - vm_compute. reflexivity.
  - vm_compute. reflexivity.
  - vm_compute. reflexivity.
  - reflexivity.
  - simpl. lia.
  - intros i Hi. simpl. by apply bool_decide_eq_true_2.
  - reflexivity.
Defined.

(** ** Seat labels that coincide *)

Lemma rowSeat_inj_upto_10 :
  Forall (λ r1, Forall (λ s1, Forall (λ r2, Forall (λ s2,
    rowSeat r1 s1 = rowSeat r2 s2 → r1 = r2 ∧ s1 = s2)
    [1; 2; 3; 4; 5; 6; 7; 8; 9; 10]) [1; 2; 3; 4; 5; 6; 7; 8; 9; 10])
    [1; 2; 3; 4; 5; 6; 7; 8; 9; 10]) [1; 2; 3; 4; 5; 6; 7; 8; 9; 10].
Proof. apply (bool_decide_unpack _). vm_compute. exact I. Qed.

Lemma upto_10 (z : Z) : 1 ≤ z ≤ 10 → z ∈ [1; 2; 3; 4; 5; 6; 7; 8; 9; 10].
Proof.
  intros H. apply list_elem_of_In. simpl. lia.
Qed.

Lemma rowSeat_inj r1 s1 r2 s2 :
  1 ≤ r1 ≤ 10 → 1 ≤ s1 ≤ 10 → 1 ≤ r2 ≤ 10 → 1 ≤ s2 ≤ 10 →
  rowSeat r1 s1 = rowSeat r2 s2 → r1 = r2 ∧ s1 = s2.
Proof.
  intros Hr1 Hs1 Hr2 Hs2.
  pose proof rowSeat_inj_upto_10 as H.
  rewrite Forall_forall in H. specialize (H r1 (upto_10 r1 Hr1)).
  rewrite Forall_forall in H. specialize (H s1 (upto_10 s1 Hs1)).
  rewrite Forall_forall in H. specialize (H r2 (upto_10 r2 Hr2)).
  rewrite Forall_forall in H. exact (H s2 (upto_10 s2 Hs2)).
Qed.

(** The label of an index is the label of its remainder by 6553600: the
    section wraps with the code unit, row and seat with the hundred. *)
Lemma generateSeatNumber_wrap (i : Z) :
  0 ≤ i → generateSeatNumber i = generateSeatNumber (i mod 6553600).
Proof.
  intros Hi. unfold generateSeatNumber, Js.fromCharCode, Js.floor_div, Js.rem.
  pose proof (Z.mod_pos_bound i 6553600 ltac:(lia)) as Hr.
  rewrite !Z.rem_mod_nonneg by lia.
  assert (H100 : (i mod 6553600) mod 100 = i mod 100).
  { apply Z.mod_mod_divide. by exists 65536. }
  assert (H10 : (i mod 6553600) mod 10 = i mod 10).
  { apply Z.mod_mod_divide. by exists 655360. }
  assert (Hsec : (65 + i / 100) mod 65536 = (65 + i mod 6553600 / 100) mod 65536).
  { rewrite (Z.div_mod i 6553600) at 1 by lia.
    replace (6553600 * (i / 6553600) + i mod 6553600)
      with (i mod 6553600 + (i / 6553600 * 65536) * 100) by lia.
    rewrite Z.div_add by lia.
    replace (65 + (i mod 6553600 / 100 + i / 6553600 * 65536))
      with (65 + i mod 6553600 / 100 + i / 6553600 * 65536) by lia.
    by rewrite Z.mod_add by lia. }
  by rewrite H100, H10, Hsec.
Qed.

Lemma generateSeatNumber_inj (i j : Z) :
  0 ≤ i < 6553600 → 0 ≤ j < 6553600 →
  generateSeatNumber i = generateSeatNumber j → i = j.
Proof.
  intros Hi Hj. unfold generateSeatNumber, Js.fromCharCode, Js.floor_div, Js.rem.
  rewrite !Z.rem_mod_nonneg by lia.
  fold (rowSeat (i mod 100 / 10 + 1) (i mod 10 + 1)).
  fold (rowSeat (j mod 100 / 10 + 1) (j mod 10 + 1)).
  intros Heq. simpl in Heq. injection Heq as Hsec Hrest.
  pose proof (Z.mod_pos_bound i 100 ltac:(lia)) as Hi100.
  pose proof (Z.mod_pos_bound j 100 ltac:(lia)) as Hj100.
  pose proof (Z.mod_pos_bound i 10 ltac:(lia)) as Hi10.
  pose proof (Z.mod_pos_bound j 10 ltac:(lia)) as Hj10.
  assert (0 ≤ i mod 100 / 10 < 10).
  { split; [apply Z.div_pos; lia|apply Z.div_lt_upper_bound; lia]. }
  assert (0 ≤ j mod 100 / 10 < 10).
  { split; [apply Z.div_pos; lia|apply Z.div_lt_upper_bound; lia]. }
  apply rowSeat_inj in Hrest as [Hrow Hseat]; [|lia..].
  assert (0 ≤ i / 100 < 65536).
  { split; [apply Z.div_pos; lia|apply Z.div_lt_upper_bound; lia]. }
  assert (0 ≤ j / 100 < 65536).
  { split; [apply Z.div_pos; lia|apply Z.div_lt_upper_bound; lia]. }
  pose proof (Z.mod_pos_bound (65 + i / 100) 65536 ltac:(lia)).
  pose proof (Z.mod_pos_bound (65 + j / 100) 65536 ltac:(lia)).
  apply Z2N.inj in Hsec; [|lia..].
  assert (Hdiv : i / 100 = j / 100).
  { pose proof (Z.div_mod (65 + i / 100) 65536 ltac:(lia)) as Hqi.
    pose proof (Z.div_mod (65 + j / 100) 65536 ltac:(lia)) as Hqj.
    assert (0 ≤ (65 + i / 100) / 65536 < 2).
    { split; [apply Z.div_pos; lia|apply Z.div_lt_upper_bound; lia]. }
    assert (0 ≤ (65 + j / 100) / 65536 < 2).
    { split; [apply Z.div_pos; lia|apply Z.div_lt_upper_bound; lia]. }
    lia. }
  assert (Hmod : (i mod 100) mod 10 = i mod 10 ∧ (j mod 100) mod 10 = j mod 10).
  { split; apply Z.mod_mod_divide; by exists 10. }
  destruct Hmod as [Hmi Hmj].
  pose proof (Z.div_mod i 100 ltac:(lia)).
  pose proof (Z.div_mod j 100 ltac:(lia)).
  pose proof (Z.div_mod (i mod 100) 10 ltac:(lia)).
  pose proof (Z.div_mod (j mod 100) 10 ltac:(lia)).
  lia.
Qed.

(** X17.  Two indices of the generation loop get the same seat label
    exactly when they differ by a multiple of 6553600: below that bound
    the labels of one order are pairwise distinct, and from there on they
    repeat. *)
Theorem generateSeatNumber_same_label (i j : Z) :
  0 ≤ i → 0 ≤ j →
  generateSeatNumber i = generateSeatNumber j ↔ i mod 6553600 = j mod 6553600.
Proof.
  intros Hi Hj. rewrite (generateSeatNumber_wrap i Hi), (generateSeatNumber_wrap j Hj).
  split; [|by intros ->].
  apply generateSeatNumber_inj; apply Z.mod_pos_bound; lia.
Qed.

Lemma generateSeatNumber_same_label_witness :
  generateSeatNumber 5 = generateSeatNumber 6553605
  ∧ generateSeatNumber 5 ≠ generateSeatNumber 105.
Proof.
  split.
  - apply (generateSeatNumber_same_label 5 6553605); [lia|lia|reflexivity].
  - intros H. apply (generateSeatNumber_same_label 5 105) in H; [|lia|lia].
    vm_compute in H. discriminate.
Defined.

(** X18.  The tickets generated for an order are seated by their position
    in the order alone: the first is A1-1, the second A1-2 and so on,
    whatever tickets the other orders of the event already hold.  Within
    one order of at most 6553600 tickets no seat is given twice. *)
Theorem generated_seats env orderId (s : Store) order user event :
  orders s !! orderId = Some order →
  users s !! Order.userId order = Some user →
  events s !! Order.eventId order = Some event →
  TicketsService.findByOrder orderId (tickets s) = [] →
  let n := Z.to_nat (Order.quantity order) in
  (∀ i, (i < n)%nat → qrOk env i = true) →
  (∀ i, (i < n)%nat → pdfOk env i = true) →
  (∀ i, (i < n)%nat → uuidv4 env i ∉ Ticket.id <$> tickets s) →
  (∀ i j, (i < n)%nat → (j < n)%nat → uuidv4 env i = uuidv4 env j → i = j) →
  Order.quantity order ≤ 6553600 →
  ∃ ks s',
    TicketsService.generateTicketsForOrder env orderId s = (Ok ks, s')
    ∧ Ticket.seatNumber <$> ks = (λ i, generateSeatNumber (Z.of_nat i)) <$> seq 0 n
    ∧ NoDup (Ticket.seatNumber <$> ks).
Proof.
  intros Ho Hu He Hnone n Hqr Hpdf Hfresh Hinj Hmax.
  set (ks := withPdf <$> (madeTicket env orderId order user <$> seq 0 n)).
  eexists ks, _. split.
  { by apply (generateTicketsForOrder_first env orderId s order user event). }
  assert (Hseats :
    Ticket.seatNumber <$> ks = (λ i, generateSeatNumber (Z.of_nat i)) <$> seq 0 n).
  { unfold ks. rewrite <- !list_fmap_compose. by apply list_fmap_ext. }
  split; [exact Hseats|].
  rewrite Hseats. apply NoDup_fmap_2_strong; [|apply NoDup_seq].
  intros i j Hi Hj Heq. apply elem_of_seq in Hi, Hj.
  apply generateSeatNumber_inj in Heq; lia.
Qed.

Lemma generated_seats_witness :
  ∃ ks s',
    TicketsService.generateTicketsForOrder Demo.env0 Demo.order1 Demo.store1 = (Ok ks, s')
    ∧ Ticket.seatNumber <$> ks = [Js.lit "A1-1"; Js.lit "A1-2"; Js.lit "A1-3"].
Proof.
  destruct (generated_seats Demo.env0 Demo.order1 Demo.store1
              (Order.mk "ORD-20250101-0001" "INV-20250101-0001" Demo.alice Demo.gala 3
                 100 300 OrderStatus.PENDING 3601000)
              (User.mk "alice@example.com" (Some "Alice"))
              (Event.mk "Gala" (Some "Hall") (Some "published") (Some 5000) 100 7))
    as (ks & s' & Hrun & Hseats & _).
  - vm_compute. reflexivity.
  - vm_compute. reflexivity.
  - vm_compute. reflexivity.
  - reflexivity.
  - reflexivity.
  - reflexivity.
  - intros i _. vm_compute. apply not_elem_of_nil.
  - simpl. intros i j Hi Hj Heq.
    destruct i as [|[|[|i]]], j as [|[|[|j]]]; try lia; vm_compute in Heq; discriminate.
  - simpl. lia.
  - exists ks, s'. split; [exact Hrun|]. rewrite Hseats. vm_compute. reflexivity.
Defined.

(** ** Calls that are rejected *)

Lemma atomic_throw {A} e : atomic (@throw A e).
Proof. intros s e' s' [= _ <-]. done. Qed.

Lemma atomic_ret {A} (a : A) : atomic (ret a).
Proof. intros s e s' [=]. Qed.

(** With its order on file [updateStatus] returns. *)
Lemma updateStatus_returns env id status paymentData (s : Store) order :
  orders s !! id = Some order →
  ∃ order' s',
    OrdersService.updateStatus env id status paymentData s = (Ok order', s')
    ∧ is_Some (orders s' !! id).
Proof.
  intros Ho. destruct (decide (Order.status order = status)) as [<-|Hne].
  - rewrite (updateStatus_same env id paymentData s order Ho). eauto.
  - destruct (updateStatus_ledger env id status paymentData s order Ho Hne) as [Hos _].
    cbv zeta in Hos.
    destruct (OrdersService.updateStatus env id status paymentData s) as [r s'] eqn:Hrun.
    rewrite (updateStatus_changed env id status paymentData s order Ho Hne) in Hrun.
    cbv zeta in Hrun. injection Hrun as <- _.
    eexists _, s'. split; [reflexivity|]. simpl in Hos. rewrite Hos, lookup_insert_eq. eauto.
Qed.

Lemma atomic_cancel env id userId : atomic (OrdersService.cancel env id userId).
Proof.
  intros s e s'. unfold OrdersService.cancel. unfold bind at 1, get at 1.
  destruct (orders s !! id) as [order|] eqn:Ho; [|apply atomic_throw].
  destruct (negb (bool_decide (Order.userId order = userId))); [apply atomic_throw|].
  destruct (negb _ && negb _); [apply atomic_throw|].
  destruct (match payments s !! id with Some _ => _ | None => _ end);
    [apply atomic_throw|].
  unfold bind at 1.
  destruct (updateStatus_returns env id OrderStatus.CANCELLED None s order Ho)
    as (o' & s1 & -> & _).
  unfold bind, sendMail, modify, ret.
  destruct (users s !! Order.userId order), (events s !! Order.eventId order);
    discriminate.
Qed.

Lemma atomic_PaymentService_create env orderId userId :
  atomic (PaymentService.create env orderId userId).
Proof.
  intros s e s'. unfold PaymentService.create, PaymentService.createInvoice.
  unfold bind at 1, get at 1.
  destruct (orders s !! orderId); [|apply atomic_throw].
  destruct (payments s !! orderId); [apply atomic_ret|].
  destruct (gateway env); unfold_monad; [discriminate|]. by intros [= _ <-].
Qed.

Lemma atomic_createPaymentForOrder env orderId userId :
  atomic (OrdersService.createPaymentForOrder env orderId userId).
Proof.
  intros s e s'. unfold OrdersService.createPaymentForOrder. unfold bind at 1, get at 1.
  destruct (orders s !! orderId) as [order|] eqn:Ho; [|apply atomic_throw].
  destruct (negb (bool_decide (Order.userId order = userId))); [apply atomic_throw|].
  destruct (negb (bool_decide (Order.status order = OrderStatus.PENDING)));
    [apply atomic_throw|].
  destruct (payments s !! orderId); [apply atomic_throw|].
  unfold bind at 1.
  pose proof (atomic_PaymentService_create env orderId userId s) as Hat.
  pose proof (keeps_PaymentService_create orders env orderId userId ltac:(done) s) as Hk.
  destruct (PaymentService.create env orderId userId s) as [[p|ex] s1].
  - simpl in Hk. unfold bind at 1.
    destruct (updateStatus_returns env orderId OrderStatus.AWAITING_PAYMENT None s1 order)
      as (o' & s2 & -> & _); [by rewrite Hk|].
    discriminate.
  - intros [= _ <-]. by apply (Hat ex).
Qed.

Lemma atomic_simulatePaymentComplete env orderId :
  atomic (OrdersService.simulatePaymentComplete env orderId).
Proof.
  intros s e s'. unfold OrdersService.simulatePaymentComplete. unfold bind at 1, get at 1.
  destruct (orders s !! orderId) as [order|] eqn:Ho; [|apply atomic_throw].
  destruct (bool_decide (Order.status order = OrderStatus.PAID)); [apply atomic_throw|].
  destruct (_ || _); [apply atomic_throw|].
  unfold bind at 1.
  set (s1 := (match payments s !! orderId with
              | Some payment => modify _
              | None => ret tt
              end s)).
  assert (Hs1 : s1.1 = Ok tt ∧ orders s1.2 = orders s).
  { unfold s1. by destruct (payments s !! orderId). }
  destruct s1 as [r1 s1']. destruct Hs1 as [Hr1 Ho1]. simpl in Hr1, Ho1. subst r1.
  unfold bind at 1.
  set (pd := Some _).
  destruct (updateStatus_returns env orderId OrderStatus.PAID pd s1' order)
    as (o' & s2 & Hupd & [o2 Ho2]); [by rewrite Ho1|].
  rewrite Hupd. unfold bind at 1, get at 1. rewrite Ho2. discriminate.
Qed.

Lemma atomic_create env userId dto : atomic (OrdersService.create env userId dto).
Proof.
  intros s e s'. unfold OrdersService.create. unfold bind at 1, get at 1.
  destruct (events s !! OrdersService.eventId dto) as [event|] eqn:Hev;
    [|apply atomic_throw].
  destruct (negb (bool_decide (Js.or_else (Event.status event) "published" = "published")));
    [apply atomic_throw|].
  destruct (match Event.startTime event with
            | Some t => bool_decide (t < now env)
            | None => false
            end); [apply atomic_throw|].
  destruct (bool_decide (Event.quota event < OrdersService.quantity dto));
    [apply atomic_throw|].
  unfold bind at 1. unfold OrdersService.insertOrder.
  unfold bind at 1. unfold get at 1.
  destruct (orders s !! newOrderId env) as [?|] eqn:Hfresh; [apply atomic_throw|].
  unfold bind at 1. unfold modify at 1. unfold ret at 1. cbn [fst snd].
  unfold bind at 1. unfold OrdersService.saveEvent at 1, modify at 1.
  set (event' := Event.set_quota (Event.quota event - OrdersService.quantity dto) event).
  set (order := Order.mk _ _ _ _ _ _ _ _ _).
  set (sa := with_events (insert (OrdersService.eventId dto) event')
               (with_orders (insert (newOrderId env) order) s)).
  unfold bind at 1. unfold catch at 1.
  pose proof (atomic_PaymentService_create env (newOrderId env) userId sa) as Hat.
  destruct (PaymentService.create env (newOrderId env) userId sa) as [[pd|ex] sb].
  - unfold bind, get, sendMail, modify, ret.
    destruct (orders sb !! newOrderId env ≫= _); discriminate.
  - rewrite (Hat ex sb eq_refl).
    unfold OrdersService.saveEvent, bind, modify, throw. intros [= _ <-].
    unfold sa, with_events, with_orders. simpl.
    rewrite insert_insert_eq. unfold event'. rewrite set_quota_back.
    rewrite (insert_id _ _ _ Hev), (delete_insert_id _ _ _ Hfresh). apply store_eta.
Qed.

Lemma atomic_processWebhook token env payload callbackToken :
  atomic (PaymentWebhook.processWebhook token env payload callbackToken).
Proof.
  intros s e s'. unfold PaymentWebhook.processWebhook.
  destruct (negb (bool_decide (callbackToken = token))); [apply atomic_throw|].
  destruct (negb (PaymentWebhook.uuidRegex_test _)); [apply atomic_ret|].
  destruct (PaymentWebhook.newPaymentStatus (PaymentWebhook.status payload)) as [ps|];
    [|apply atomic_ret].
  unfold bind at 1, get at 1.
  destruct (orders s !! PaymentWebhook.external_id payload) as [order|] eqn:Ho;
    [|apply atomic_ret].
  unfold bind at 1.
  set (s1 := (match payments s !! PaymentWebhook.external_id payload with
              | Some payment => modify _
              | None => ret tt
              end s)).
  assert (Hs1 : s1.1 = Ok tt ∧ orders s1.2 = orders s).
  { unfold s1. by destruct (payments s !! PaymentWebhook.external_id payload). }
  destruct s1 as [r1 s1']. destruct Hs1 as [Hr1 Ho1]. simpl in Hr1, Ho1. subst r1.
  unfold bind at 1.
  match goal with |- context [OrdersService.updateStatus ?a ?b ?c ?d s1'] =>
    destruct (updateStatus_returns a b c d s1' order) as (o' & s2 & -> & _);
      [by rewrite Ho1|] end.
  unfold when. destruct (bool_decide _); [|discriminate].
  intros Hrun. exfalso. revert Hrun.
  match goal with |- context [catch ?m ?h s2] =>
    pose proof (catch_swallow m s2) as Hc; destruct (catch m h s2) as [r3 s3] end.
  simpl in Hc. subst r3. discriminate.
Qed.

Lemma atomic_checkInTicket env ticketId checkedInBy :
  atomic (TicketsService.checkInTicket env ticketId checkedInBy).
Proof.
  intros s e s'.
  destruct (TicketsService.findOne ticketId (tickets s)) as [k|] eqn:Hf.
  - destruct (decide (Ticket.status k = TicketStatus.ACTIVE)) as [Hst|Hst].
    + destruct (Ticket.checkedIn k) eqn:Hci.
      * destruct (checkInTicket_refused env ticketId checkedInBy s) as [msg ->].
        { rewrite Hf. by right. }
        by intros [= _ <-].
      * by rewrite (checkInTicket_ok env ticketId checkedInBy s k Hf Hst Hci).
    + destruct (checkInTicket_refused env ticketId checkedInBy s) as [msg ->].
      { rewrite Hf. by left. }
      by intros [= _ <-].
  - destruct (checkInTicket_refused env ticketId checkedInBy s) as [msg ->].
    { by rewrite Hf. }
    by intros [= _ <-].
Qed.

(** X20.  A call of [create], [cancel], [createPaymentForOrder],
    [simulatePaymentComplete], [processWebhook] or [checkInTicket] that
    throws leaves the whole store as it found it: no row, file or mail is
    left behind by a rejected call.  For [create] this covers the failure
    of the gateway, after which the reserved quota and the order row are
    taken back. *)
Theorem rejected_calls_change_nothing :
  (∀ env userId dto, atomic (OrdersService.create env userId dto))
  ∧ (∀ env id userId, atomic (OrdersService.cancel env id userId))
  ∧ (∀ env orderId userId, atomic (OrdersService.createPaymentForOrder env orderId userId))
  ∧ (∀ env orderId, atomic (OrdersService.simulatePaymentComplete env orderId))
  ∧ (∀ token env payload callbackToken,
       atomic (PaymentWebhook.processWebhook token env payload callbackToken))
  ∧ (∀ env ticketId checkedInBy,
       atomic (TicketsService.checkInTicket env ticketId checkedInBy)).
Proof.
  split; [exact atomic_create|].
  split; [exact atomic_cancel|].
  split; [exact atomic_createPaymentForOrder|].
  split; [exact atomic_simulatePaymentComplete|].
  split; [exact atomic_processWebhook|].
  exact atomic_checkInTicket.
Qed.

(** ** Payments *)

(** X21.  A PAID webhook files the order as paid whatever its status was,
    a cancelled or expired order included, whose quantity had gone back
    to the quota; and it never takes anything from the quota of any
    event. *)
Theorem webhook_paid_takes_no_quota token env payload (s : Store) order :
  PaymentWebhook.uuidRegex_test (PaymentWebhook.external_id payload) = true →
  PaymentWebhook.status payload = XenditWebhookStatus.PAID →
  orders s !! PaymentWebhook.external_id payload = Some order →
  ∃ s',
    PaymentWebhook.processWebhook token env payload token s = (Ok tt, s')
    ∧ orders s'
      = <[PaymentWebhook.external_id payload := Order.set_status OrderStatus.PAID order]>
          (orders s)
    ∧ events s' = events s.
Proof.
  intros Huuid Hst Ho.
  set (id := PaymentWebhook.external_id payload) in *.
  set (sr := refreshed env payload PaymentStatus.PAID s).
  assert (Hos : orders sr = orders s) by (unfold sr; by rewrite (refreshed_frame orders)).
  assert (Hes : events sr = events s) by (unfold sr; by rewrite (refreshed_frame events)).
  assert (Ho' : orders sr !! id = Some order) by (by rewrite Hos).
  assert (Hupd : ∃ o2 s2,
    OrdersService.updateStatus env id OrderStatus.PAID (webhookPaymentData payload) sr
    = (Ok o2, s2)
    ∧ orders s2 = <[id := Order.set_status OrderStatus.PAID order]> (orders s)
    ∧ events s2 = events s).
  { destruct (decide (Order.status order = OrderStatus.PAID)) as [Hpaid|Hne].
    - exists order, sr. split.
      + rewrite <- Hpaid. by apply updateStatus_same.
      + split; [|done]. rewrite Hos. symmetry. apply insert_id. rewrite Ho. f_equal.
        destruct order. simpl in Hpaid. by rewrite Hpaid.
    - destruct (updateStatus_ledger env id OrderStatus.PAID (webhookPaymentData payload)
                  sr order Ho' Hne) as [Ho2 He2].
      cbv zeta in Ho2, He2.
      destruct (OrdersService.updateStatus env id OrderStatus.PAID
                  (webhookPaymentData payload) sr) as [r s2] eqn:Hrun.
      rewrite (updateStatus_changed env id OrderStatus.PAID (webhookPaymentData payload)
                 sr order Ho' Hne) in Hrun.
      cbv zeta in Hrun. injection Hrun as <- _.
      assert (Hr : OrdersService.restoresQuota OrderStatus.PAID (Order.status order) = false)
        by done.
      rewrite Hr in He2. cbn [snd] in Ho2, He2.
      eexists _, s2. split; [reflexivity|].
      rewrite Ho2, He2, Hos. by split. }
  destruct Hupd as (o2 & s2 & Hupd & Ho2 & He2).
  rewrite (processWebhook_accepted token env payload s _ order Huuid
             (newPaymentStatus_PAID _ Hst) Ho).
  cbv zeta. fold id sr.
  change (PaymentWebhook.mapPaymentStatusToOrderStatus PaymentStatus.PAID)
    with OrderStatus.PAID.
  rewrite Hupd.
  rewrite (bool_decide_eq_true_2 (PaymentStatus.PAID = PaymentStatus.PAID)) by done.
  eexists. split; [reflexivity|].
  match goal with |- context [catch ?m ?h s2] =>
    assert (Hk : keeps (λ s, (events s, orders s)) (catch m h)) end.
  { apply keeps_catch; [|intros; apply keeps_ret].
    apply keeps_bind; [|intros; apply keeps_ret].
    by apply keeps_generateTicketsForOrder. }
  specialize (Hk s2). injection Hk as -> ->. done.
Qed.

Lemma webhook_paid_takes_no_quota_witness :
  ∃ s1 s2,
    OrdersService.cancel Demo.env0 Demo.order1 Demo.alice Demo.store1
    = (Ok "Order cancelled successfully", s1)
    ∧ Event.quota <$> events s1 !! Demo.gala = Some 10
    ∧ PaymentWebhook.processWebhook Demo.token (Demo.at_time 2000 Demo.env0)
        (Demo.webhook XenditWebhookStatus.PAID) Demo.token s1 = (Ok tt, s2)
    ∧ Order.status <$> orders s2 !! Demo.order1 = Some OrderStatus.PAID
    ∧ Event.quota <$> events s2 !! Demo.gala = Some 10.
Proof.
  destruct (OrdersService.cancel Demo.env0 Demo.order1 Demo.alice Demo.store1)
    as [r s1] eqn:Hcancel.
  assert (Hr : r = Ok "Order cancelled successfully").
  { vm_compute in Hcancel. by injection Hcancel as <- _. }
  assert (Hq : Event.quota <$> events s1 !! Demo.gala = Some 10).
  { vm_compute in Hcancel. injection Hcancel as _ <-. vm_compute. reflexivity. }
  destruct (webhook_paid_takes_no_quota Demo.token (Demo.at_time 2000 Demo.env0)
              (Demo.webhook XenditWebhookStatus.PAID) s1
              (Order.mk "ORD-20250101-0001" "INV-20250101-0001" Demo.alice Demo.gala 3
                 100 300 OrderStatus.CANCELLED 3601000))
    as (s2 & Hrun & Hos & Hes).
  - vm_compute. reflexivity.
  - reflexivity.
  - vm_compute in Hcancel. injection Hcancel as _ <-. vm_compute. reflexivity.
  - exists s1, s2. subst r. split; [reflexivity|]. split; [exact Hq|].
    split; [exact Hrun|]. split.
    + rewrite Hos, lookup_insert_eq. reflexivity.
    + by rewrite Hes.
Defined.

(** X22.  An order never has two payments: once [PaymentService.create]
    has returned a payment for an order, that payment is filed under the
    order, the payments of other orders are as they were, and every later
    call for the order, by any caller and whether or not the gateway
    answers, returns the same payment without changing anything. *)
Theorem PaymentService_create_once env orderId userId (s : Store) payment s' :
  PaymentService.create env orderId userId s = (Ok payment, s') →
  payments s' !! orderId = Some payment
  ∧ (∀ id, id ≠ orderId → payments s' !! id = payments s !! id)
  ∧ ∀ env2 userId2, PaymentService.create env2 orderId userId2 s' = (Ok payment, s').
Proof.
  unfold PaymentService.create, PaymentService.createInvoice.
  unfold bind at 1, get at 1.
  destruct (orders s !! orderId) as [order|] eqn:Ho; [|discriminate].
  destruct (payments s !! orderId) as [existing|] eqn:Hp.
  - intros [= <- <-]. split; [done|]. split; [done|].
    intros env2 userId2. unfold bind, get. by rewrite Ho, Hp.
  - destruct (gateway env) as [invoice|]; [|discriminate].
    unfold_monad. intros [= <- <-]. simpl.
    split; [apply lookup_insert_eq|].
    split; [intros id Hid; by rewrite lookup_insert_ne|].
    intros env2 userId2. rewrite Ho, lookup_insert_eq. reflexivity.
Qed.

Lemma PaymentService_create_once_witness :
  ∃ payment,
    payments Demo.store1 !! Demo.order1 = Some payment
    ∧ PaymentService.create Demo.env_down Demo.order1 "somebody" Demo.store1
      = (Ok payment, Demo.store1).
Proof.
  destruct (PaymentService_create_once Demo.env0 Demo.order1 Demo.alice Demo.store1
              (Payment.mk "inv-1" 300 PaymentStatus.PENDING (Some "https://pay/inv-1")
                 4600000 None None) Demo.store1)
    as (Hp & _ & Hagain).
  - vm_compute. reflexivity.
  - eexists. split; [exact Hp|apply Hagain].
Defined.

(** ** Order and invoice numbers *)

Lemma zrange_elem lo n z : lo ≤ z < lo + n → z ∈ zrange lo n.
Proof.
  intros H. unfold zrange. apply list_elem_of_fmap. exists (Z.to_nat (z - lo)).
  split; [lia|]. apply elem_of_seq. lia.
Qed.

(** Every field has its width and reads back as its number. *)
Lemma field_4_table :
  Forall (λ n, String.length (field 4 n) = 4%nat ∧ readDigits (field 4 n) = n)
    (zrange 0 10000).
Proof. apply (bool_decide_unpack _). vm_compute. exact I. Qed.

Lemma field_2_table :
  Forall (λ n, String.length (field 2 n) = 2%nat ∧ readDigits (field 2 n) = n)
    (zrange 0 100).
Proof. apply (bool_decide_unpack _). vm_compute. exact I. Qed.

Lemma field_4 n :
  0 ≤ n ≤ 9999 → String.length (field 4 n) = 4%nat ∧ readDigits (field 4 n) = n.
Proof.
  intros H. pose proof field_4_table as Ht. rewrite Forall_forall in Ht.
  apply Ht, zrange_elem. lia.
Qed.

Lemma field_2 n :
  0 ≤ n ≤ 99 → String.length (field 2 n) = 2%nat ∧ readDigits (field 2 n) = n.
Proof.
  intros H. pose proof field_2_table as Ht. rewrite Forall_forall in Ht.
  apply Ht, zrange_elem. lia.
Qed.

Lemma field_4_year n : 1000 ≤ n ≤ 9999 → field 4 n = pretty n.
Proof.
  intros H.
  assert (Ht : Forall (λ n, field 4 n = pretty n) (zrange 1000 9000)).
  { apply (bool_decide_unpack _). vm_compute. exact I. }
  rewrite Forall_forall in Ht. apply Ht, zrange_elem. lia.
Qed.

Lemma string_app_length (a b : string) :
  String.length (a +:+ b) = (String.length a + String.length b)%nat.
Proof. induction a as [|c a IH]; simpl; [done|by rewrite IH]. Qed.

Lemma string_app_split (a1 a2 b1 b2 : string) :
  String.length a1 = String.length a2 →
  a1 +:+ b1 = a2 +:+ b2 → a1 = a2 ∧ b1 = b2.
Proof.
  revert a2. induction a1 as [|c a1 IH]; intros [|c2 a2] Hlen Heq; simpl in *;
    try discriminate; [done|].
  injection Heq as -> Heq. destruct (IH a2) as [-> ->]; [lia|done|done].
Qed.

(** X19.  For the dates of four-digit years and the draws below 10000,
    an order or invoice number is the prefix, a dash, the year on four
    digits, the month and the day on two digits each, a dash and the draw
    on four digits: 17 characters in all.  It determines the date and the
    draw; so two numbers of one prefix coincide exactly when the day and
    the draw do, and a day has 10000 numbers. *)
Theorem generateNumber_format pref year month date random year' month' date' random' :
  numberInputs year month date random →
  numberInputs year' month' date' random' →
  OrdersService.generateNumber pref year month date random
  = pref +:+ "-" +:+ field 4 year +:+ field 2 (month + 1) +:+ field 2 date
      +:+ "-" +:+ field 4 random
  ∧ String.length (OrdersService.generateNumber pref year month date random)
    = (String.length pref + 14)%nat
  ∧ String.length (OrdersService.generateOrderNumber year month date random) = 17%nat
  ∧ String.length (OrdersService.generateInvoiceNumber year month date random) = 17%nat
  ∧ (OrdersService.generateNumber pref year month date random
     = OrdersService.generateNumber pref year' month' date' random'
     ↔ year = year' ∧ month = month' ∧ date = date' ∧ random = random').
Proof.
  intros (Hy & Hm & Hd & Hr) (Hy' & Hm' & Hd' & Hr').
  assert (Hshape : ∀ p y m d r, 1000 ≤ y ≤ 9999 →
    OrdersService.generateNumber p y m d r
    = p +:+ "-" +:+ field 4 y +:+ field 2 (m + 1) +:+ field 2 d +:+ "-" +:+ field 4 r).
  { intros p y m d r Hy0. unfold OrdersService.generateNumber.
    by rewrite (field_4_year y Hy0). }
  destruct (field_4 year ltac:(lia)) as [Ly Ry].
  destruct (field_4 year' ltac:(lia)) as [Ly' Ry'].
  destruct (field_2 (month + 1) ltac:(lia)) as [Lm Rm].
  destruct (field_2 (month' + 1) ltac:(lia)) as [Lm' Rm'].
  destruct (field_2 date ltac:(lia)) as [Ld Rd].
  destruct (field_2 date' ltac:(lia)) as [Ld' Rd'].
  destruct (field_4 random ltac:(lia)) as [Lr Rr].
  destruct (field_4 random' ltac:(lia)) as [Lr' Rr'].
  assert (Hlen : ∀ p, String.length (OrdersService.generateNumber p year month date random)
                      = (String.length p + 14)%nat).
  { intros p. rewrite (Hshape p) by done.
    rewrite !string_app_length, Ly, Lm, Ld, Lr. simpl. lia. }
  split; [by apply Hshape|]. split; [apply Hlen|].
  split; [apply (Hlen "ORD")|]. split; [apply (Hlen "INV")|].
  split; [|by intros (-> & -> & -> & ->)].
  rewrite !Hshape by done. intros Heq.
  apply string_app_split in Heq as [_ Heq]; [|done].
  apply string_app_split in Heq as [_ Heq]; [|done].
  apply string_app_split in Heq as [Hey Heq]; [|by rewrite Ly, Ly'].
  apply string_app_split in Heq as [Hem Heq]; [|by rewrite Lm, Lm'].
  apply string_app_split in Heq as [Hed Heq]; [|by rewrite Ld, Ld'].
  apply string_app_split in Heq as [_ Her]; [|done].
  rewrite <- Ry, <- Ry', <- Rd, <- Rd', <- Rr, <- Rr', Hey, Hed, Her.
  assert (month + 1 = month' + 1) by (by rewrite <- Rm, <- Rm', Hem).
  repeat split; try done. lia.
Qed.

Lemma generateNumber_format_witness :
  OrdersService.generateOrderNumber 2025 0 1 7 = "ORD-20250101-0007"
  ∧ String.length (OrdersService.generateInvoiceNumber 2025 0 1 7) = 17%nat.
Proof.
  destruct (generateNumber_format "ORD" 2025 0 1 7 2025 0 1 7)
    as (Hshape & _ & _ & Hlen & _).
  - unfold numberInputs. lia.
  - unfold numberInputs. lia.
  - split; [|exact Hlen]. unfold OrdersService.generateOrderNumber. rewrite Hshape.
    vm_compute. reflexivity.
Defined.

(** ** Reading the generated tickets back *)

Lemma findOne_app_fresh ticketId (tbl new : list Ticket.t) :
  ticketId ∉ Ticket.id <$> tbl →
  TicketsService.findOne ticketId (tbl ++ new) = TicketsService.findOne ticketId new.
Proof.
  intros Hn. unfold TicketsService.findOne. induction tbl as [|r tbl IH]; [done|].
  rewrite fmap_cons, not_elem_of_cons in Hn. destruct Hn as [Hne Hn].
  simpl. rewrite bool_decide_eq_false_2 by done. auto.
Qed.

Lemma findOne_NoDup (new : list Ticket.t) k :
  NoDup (Ticket.id <$> new) → k ∈ new →
  TicketsService.findOne (Ticket.id k) new = Some k.
Proof.
  unfold TicketsService.findOne. induction new as [|r new IH]; intros Hnd Hin.
  { by apply elem_of_nil in Hin. }
  rewrite fmap_cons in Hnd. apply NoDup_cons in Hnd as [Hr Hnd]. simpl.
  apply elem_of_cons in Hin as [->|Hin].
  - by rewrite bool_decide_eq_true_2.
  - rewrite bool_decide_eq_false_2; [by apply IH|].
    intros Heq. apply Hr. rewrite Heq. by apply list_elem_of_fmap_2.
Qed.

(** X23.  After the first generation for an order, what was generated can
    be read back: the owner gets exactly the generated tickets from
    [getTicketsByOrderId], each of them from [getTicketById] under its
    id, each with its QR and PDF names, and [validateTicket] finds each
    valid.  None of these reads changes the store. *)
Theorem generated_tickets_read_back env orderId (s : Store) order user event :
  orders s !! orderId = Some order →
  users s !! Order.userId order = Some user →
  events s !! Order.eventId order = Some event →
  TicketsService.findByOrder orderId (tickets s) = [] →
  let n := Z.to_nat (Order.quantity order) in
  (∀ i, (i < n)%nat → qrOk env i = true) →
  (∀ i, (i < n)%nat → pdfOk env i = true) →
  (∀ i, (i < n)%nat → uuidv4 env i ∉ Ticket.id <$> tickets s) →
  (∀ i j, (i < n)%nat → (j < n)%nat → uuidv4 env i = uuidv4 env j → i = j) →
  ∃ ks s',
    TicketsService.generateTicketsForOrder env orderId s = (Ok ks, s')
    ∧ length ks = n
    ∧ TicketsService.getTicketsByOrderId orderId (Some (Order.userId order)) s'
      = (Ok ks, s')
    ∧ ∀ k, k ∈ ks →
        TicketsService.getTicketById (Ticket.id k) (Some (Order.userId order)) s'
        = (Ok k, s')
        ∧ Js.truthy (Ticket.qrCodeUrl k) = true
        ∧ Js.truthy (Ticket.pdfUrl k) = true
        ∧ TicketsService.validateTicket (Ticket.id k) s'
          = (Ok (TicketsService.mkValidation true "Ticket is valid"), s').
Proof.
  intros Ho Hu He Hnone n Hqr Hpdf Hfresh Hinj.
  set (made := madeTicket env orderId order user <$> seq 0 n).
  set (ks := withPdf <$> made).
  exists ks,
    (mkStore (events s) (users s) (orders s) (payments s) (tickets s ++ ks)
       ((uploads s ++ (qrFileName env <$> seq 0 n))
          ++ (TicketsService.pdfFileName <$> made)) (outbox s)).
  split.
  { by apply (generateTicketsForOrder_first env orderId s order user event). }
  assert (Hids : Ticket.id <$> ks = uuidv4 env <$> seq 0 n).
  { unfold ks, made. rewrite <- !list_fmap_compose. by apply list_fmap_ext. }
  assert (Hnd : NoDup (Ticket.id <$> ks)).
  { rewrite Hids. apply NoDup_fmap_2_strong; [|apply NoDup_seq].
    intros i j Hi Hj. apply elem_of_seq in Hi, Hj. apply Hinj; lia. }
  assert (Hnew : ∀ k, k ∈ ks → Ticket.id k ∉ Ticket.id <$> tickets s).
  { intros k Hk.
    assert (Hin : Ticket.id k ∈ Ticket.id <$> ks) by (by apply list_elem_of_fmap_2).
    rewrite Hids in Hin. apply list_elem_of_fmap in Hin as (i & -> & Hi).
    apply elem_of_seq in Hi. apply Hfresh. lia. }
  assert (Hfind : TicketsService.findByOrder orderId (tickets s ++ ks) = ks).
  { unfold TicketsService.findByOrder in *. rewrite filter_app, Hnone. simpl.
    apply (findByOrder_made env orderId order user (seq 0 n)). }
  split; [unfold ks, made; by rewrite !length_fmap, length_seq|].
  split.
  { unfold TicketsService.getTicketsByOrderId, bind, get. cbn [orders tickets].
    rewrite Ho.
    rewrite (bool_decide_eq_true_2 (Some (Order.userId order) = Some (Order.userId order)))
      by done.
    rewrite andb_false_r. by rewrite Hfind. }
  intros k Hk.
  assert (Hone : TicketsService.findOne (Ticket.id k) (tickets s ++ ks) = Some k).
  { rewrite findOne_app_fresh by (by apply Hnew). by apply findOne_NoDup. }
  assert (Hshape : ∃ i, k = withPdf (madeTicket env orderId order user i)).
  { unfold ks, made in Hk. apply list_elem_of_fmap in Hk as (k0 & -> & Hk0).
    apply list_elem_of_fmap in Hk0 as (i & -> & _). eauto. }
  destruct Hshape as [i ->].
  split.
  { unfold TicketsService.getTicketById, bind, get. cbn [orders tickets].
    rewrite Hone. cbn [Ticket.orderId withPdf Ticket.set_pdfUrl madeTicket]. rewrite Ho.
    rewrite (bool_decide_eq_true_2 (Some (Order.userId order) = Some (Order.userId order)))
      by done.
    by destruct (Js.truthy _). }
  split; [reflexivity|]. split; [reflexivity|].
  unfold TicketsService.validateTicket, bind, get. cbn [tickets]. rewrite Hone.
  reflexivity.
Qed.

Lemma generated_tickets_read_back_witness :
  ∃ ks s',
    TicketsService.generateTicketsForOrder Demo.env0 Demo.order1 Demo.store1 = (Ok ks, s')
    ∧ length ks = 3%nat
    ∧ TicketsService.getTicketsByOrderId Demo.order1 (Some Demo.alice) s' = (Ok ks, s').
Proof.
  destruct (generated_tickets_read_back Demo.env0 Demo.order1 Demo.store1
              (Order.mk "ORD-20250101-0001" "INV-20250101-0001" Demo.alice Demo.gala 3
                 100 300 OrderStatus.PENDING 3601000)
              (User.mk "alice@example.com" (Some "Alice"))
              (Event.mk "Gala" (Some "Hall") (Some "published") (Some 5000) 100 7))
    as (ks & s' & Hrun & Hlen & Hread & _).
  - vm_compute. reflexivity.
  - vm_compute. reflexivity.
  - vm_compute. reflexivity.
  - reflexivity.
  - reflexivity.
  - reflexivity.
  - intros i _. vm_compute. apply not_elem_of_nil.
  - simpl. intros i j Hi Hj Heq.
    destruct i as [|[|[|i]]], j as [|[|[|j]]]; try lia; vm_compute in Heq; discriminate.
  - exists ks, s'. split; [exact Hrun|]. split; [exact Hlen|exact Hread].
Defined.

(** ** The EXPIRED webhook *)

(** X24.  The provider reports EXPIRED for an order that is pending or
    awaiting payment: the webhook is acknowledged, the order is filed as
    expired, its quantity goes back to the quota of its event and its
    payment, when there is one, is set to expired.  Unlike the expiry
    sweep this path hands no mail to the mailer.  The order can no longer
    be cancelled. *)
Theorem webhook_expired_effect token env payload (s : Store) order :
  PaymentWebhook.status payload = XenditWebhookStatus.EXPIRED →
  PaymentWebhook.uuidRegex_test (PaymentWebhook.external_id payload) = true →
  orders s !! PaymentWebhook.external_id payload = Some order →
  prePayment (Order.status order) = true →
  let id := PaymentWebhook.external_id payload in
  ∃ s',
    PaymentWebhook.processWebhook token env payload token s = (Ok tt, s')
    ∧ orders s' = <[id := Order.set_status OrderStatus.EXPIRED order]> (orders s)
    ∧ events s'
      = match events s !! Order.eventId order with
        | Some event =>
          <[Order.eventId order :=
              Event.set_quota (Event.quota event + Order.quantity order) event]> (events s)
        | None => events s
        end
    ∧ payments s'
      = match payments s !! id with
        | Some payment => <[id := Payment.set_status PaymentStatus.EXPIRED payment]> (payments s)
        | None => payments s
        end
    ∧ outbox s' = outbox s
    ∧ ∀ env2 userId, ∃ e, OrdersService.cancel env2 id userId s' = (Throw e, s').
Proof.
  intros Hst Huuid Ho Hpre id.
  assert (Hps : PaymentWebhook.newPaymentStatus (PaymentWebhook.status payload)
                = Some PaymentStatus.EXPIRED) by (rewrite Hst; reflexivity).
  rewrite (processWebhook_accepted token env payload s _ order Huuid Hps Ho).
  cbv zeta. fold id.
  change (PaymentWebhook.mapPaymentStatusToOrderStatus PaymentStatus.EXPIRED)
    with OrderStatus.EXPIRED.
  set (sr := refreshed env payload PaymentStatus.EXPIRED s).
  assert (Hos : orders sr = orders s) by (unfold sr; by rewrite (refreshed_frame orders)).
  assert (Hes : events sr = events s) by (unfold sr; by rewrite (refreshed_frame events)).
  assert (Hob : outbox sr = outbox s) by (unfold sr; by rewrite (refreshed_frame outbox)).
  assert (Hpay : payments sr
                 = match payments s !! id with
                   | Some payment =>
                     <[id := Payment.set_status PaymentStatus.EXPIRED payment]> (payments s)
                   | None => payments s
                   end).
  { unfold sr, refreshed. fold id. by destruct (payments s !! id). }
  assert (Ho' : orders sr !! id = Some order) by (by rewrite Hos).
  assert (Hne : Order.status order ≠ OrderStatus.EXPIRED).
  { intros H. by rewrite H in Hpre. }
  rewrite (updateStatus_changed env id OrderStatus.EXPIRED (webhookPaymentData payload)
             sr order Ho' Hne).
  cbv zeta.
  assert (Hr : OrdersService.restoresQuota OrderStatus.EXPIRED (Order.status order) = true)
    by exact Hpre.
  rewrite Hr.
  rewrite (bool_decide_eq_false_2 (OrderStatus.EXPIRED = OrderStatus.PAID)) by done.
  rewrite (bool_decide_eq_false_2 (PaymentStatus.EXPIRED = PaymentStatus.PAID)) by done.
  set (order' := Order.set_status OrderStatus.EXPIRED order).
  set (tk := TicketsService.findByOrder id (tickets sr)).
  destruct (restored_ledger env order' OrderStatus.EXPIRED tk sr) as [Hro Hre].
  assert (Hrp : payments (restored env order' OrderStatus.EXPIRED tk sr) = payments sr
                ∧ outbox (restored env order' OrderStatus.EXPIRED tk sr) = outbox sr).
  { unfold restored. by destruct (events sr !! Order.eventId order'), tk. }
  destruct Hrp as [Hrp Hrob].
  eexists. split; [reflexivity|].
  cbn [orders events payments outbox with_orders].
  rewrite Hro, Hre, Hrp, Hrob, Hos, Hes, Hob, Hpay.
  split; [done|]. split; [done|]. split; [done|]. split; [done|].
  intros env2 userId. unfold OrdersService.cancel. unfold bind at 1, get at 1.
  cbn [orders with_orders]. rewrite lookup_insert_eq.
  destruct (negb (bool_decide (Order.userId order' = userId))); [by eexists|].
  by eexists.
Qed.

Lemma webhook_expired_effect_witness :
  ∃ s',
    PaymentWebhook.processWebhook Demo.token (Demo.at_time 2000 Demo.env0)
      (Demo.webhook XenditWebhookStatus.EXPIRED) Demo.token Demo.store1 = (Ok tt, s')
    ∧ Order.status <$> orders s' !! Demo.order1 = Some OrderStatus.EXPIRED
    ∧ Event.quota <$> events s' !! Demo.gala = Some 10
    ∧ outbox s' = outbox Demo.store1.
Proof.
  destruct (webhook_expired_effect Demo.token (Demo.at_time 2000 Demo.env0)
              (Demo.webhook XenditWebhookStatus.EXPIRED) Demo.store1
              (Order.mk "ORD-20250101-0001" "INV-20250101-0001" Demo.alice Demo.gala 3
                 100 300 OrderStatus.PENDING 3601000))
    as (s' & Hrun & Hos & Hes & _ & Hob & _).
  - reflexivity.
  - vm_compute. reflexivity.
  - vm_compute. reflexivity.
  - reflexivity.
  - exists s'. split; [exact Hrun|].
    split; [rewrite Hos, lookup_insert_eq; reflexivity|].
    split; [rewrite Hes; vm_compute; reflexivity|exact Hob].
Defined.
